(** * CAMSim: the flight-dynamics core, embedded in Rocq

    A shallow embedding of the parts of the simulator that its specification
    talks about: the 3-vector and quaternion primitives, the aircraft state
    and the three integrators, the table engine, the expression evaluator,
    the property store, the flight-control components with their scheduler,
    and the propulsion model.

    Numbers.  Part I holds two embeddings of Go's [float64].  The first,
    used for most of the development, computes with real numbers: it is
    the code in exact arithmetic, without rounding, overflow, NaN and the
    infinities, and a statement proved over it describes the code up to
    those.  The single place where the source tests a value for +Inf (the
    actuator's rate limit) gets a type of its own there, and Go's
    comparisons become the decision procedures of the reals ([Rle_dec],
    [Rlt_dec], [Req_dec_T], ...).  The second, the module [Binary64],
    computes with IEEE 754 binary64 floats and holds the functions for
    which NaN, overflow, underflow or the rounding of one operation decide
    a statement: the two normalisations, the orientation step, the
    propulsion update, the clipper and the one-dimensional table lookup.

    Effects.  A method that mutates its receiver returns the new receiver;
    a Go panic (index out of range, nil dereference) is the [None] of an
    option, or the [Panicked] outcome where the function also has an error
    result. *)

From Stdlib Require Import Reals RList Lra Psatz List String ZArith Bool.
From Stdlib Require Floats.
From stdpp Require Import gmap strings.
Import ListNotations.
Open Scope R_scope.

(** ** Part I: definitions *)

Definition float64 : Type := R.

#[global] Instance Rlt_decision : RelDecision Rlt := Rlt_dec.
#[global] Instance Rle_decision : RelDecision Rle := Rle_dec.
#[global] Instance Rgt_decision : RelDecision Rgt := Rgt_dec.
#[global] Instance Rge_decision : RelDecision Rge := Rge_dec.
#[global] Instance Req_decision : EqDecision R := Req_dec_T.

(** [math.Atan2(y, x)] on finite arguments. *)
Definition Atan2 (y x : float64) : float64 :=
  if Rlt_dec 0 x then atan (y / x)
  else if Rlt_dec x 0 then
         (if Rle_dec 0 y then atan (y / x) + PI else atan (y / x) - PI)
  else if Rlt_dec 0 y then PI / 2
  else if Rlt_dec y 0 then - (PI / 2)
  else 0.

(** *** aircraft_state.go: Vector3 *)

Module Vector3.

Record t : Type := mk { X : float64; Y : float64; Z : float64 }.

Definition Add (v other : t) : t :=
  mk (X v + X other) (Y v + Y other) (Z v + Z other).

Definition Scale (v : t) (scalar : float64) : t :=
  mk (X v * scalar) (Y v * scalar) (Z v * scalar).

Definition Magnitude (v : t) : float64 :=
  sqrt (X v * X v + Y v * Y v + Z v * Z v).

Definition Normalize (v : t) : t :=
  let mag := Magnitude v in
  if Req_dec_T mag 0 then mk 0 0 0
  else mk (X v / mag) (Y v / mag) (Z v / mag).

Definition Dot (v other : t) : float64 :=
  X v * X other + Y v * Y other + Z v * Z other.

Definition Cross (v other : t) : t :=
  mk (Y v * Z other - Z v * Y other)
     (Z v * X other - X v * Z other)
     (X v * Y other - Y v * X other).

End Vector3.

(** *** aircraft_state.go and integration_engine.go: Quaternion *)

Module Quaternion.

Record t : Type := mk { W : float64; X : float64; Y : float64; Z : float64 }.

Definition NewQuaternionFromEuler (roll pitch yaw : float64) : t :=
  let cr := cos (roll * 0.5) in
  let sr := sin (roll * 0.5) in
  let cp := cos (pitch * 0.5) in
  let sp := sin (pitch * 0.5) in
  let cy := cos (yaw * 0.5) in
  let sy := sin (yaw * 0.5) in
  mk (cr * cp * cy + sr * sp * sy)
     (sr * cp * cy - cr * sp * sy)
     (cr * sp * cy + sr * cp * sy)
     (cr * cp * sy - sr * sp * cy).

(** Returns (roll, pitch, yaw). *)
Definition ToEuler (q : t) : float64 * float64 * float64 :=
  let sinr_cosp := 2 * (W q * X q + Y q * Z q) in
  let cosr_cosp := 1 - 2 * (X q * X q + Y q * Y q) in
  let roll := Atan2 sinr_cosp cosr_cosp in
  let sinp := 2 * (W q * Y q - Z q * X q) in
  let pitch :=
    if Rge_dec (Rabs sinp) 1 then
      (if Rge_dec sinp 0 then PI / 2 else - PI / 2)
    else asin sinp in
  let siny_cosp := 2 * (W q * Z q + X q * Y q) in
  let cosy_cosp := 1 - 2 * (Y q * Y q + Z q * Z q) in
  let yaw := Atan2 siny_cosp cosy_cosp in
  (roll, pitch, yaw).

(** The Euclidean norm that [Normalize] computes in its first line. *)
Definition norm (q : t) : float64 :=
  sqrt (W q * W q + X q * X q + Y q * Y q + Z q * Z q).

Definition Normalize (q : t) : t :=
  let norm := sqrt (W q * W q + X q * X q + Y q * Y q + Z q * Z q) in
  if Req_dec_T norm 0 then mk 1 0 0 0
  else mk (W q / norm) (X q / norm) (Y q / norm) (Z q / norm).

Definition Multiply (q other : t) : t :=
  mk (W q * W other - X q * X other - Y q * Y other - Z q * Z other)
     (W q * X other + X q * W other + Y q * Z other - Z q * Y other)
     (W q * Y other - X q * Z other + Y q * W other + Z q * X other)
     (W q * Z other + X q * Y other - Y q * X other + Z q * W other).

Definition RotateVector (q : t) (v : Vector3.t) : Vector3.t :=
  let qv := mk 0 (Vector3.X v) (Vector3.Y v) (Vector3.Z v) in
  let qConj := mk (W q) (- X q) (- Y q) (- Z q) in
  let temp := Multiply q qv in
  let result := Multiply temp qConj in
  Vector3.mk (X result) (Y result) (Z result).

Definition Add (q other : t) : t :=
  mk (W q + W other) (X q + X other) (Y q + Y other) (Z q + Z other).

Definition Scale (q : t) (scalar : float64) : t :=
  mk (W q * scalar) (X q * scalar) (Y q * scalar) (Z q * scalar).

End Quaternion.

(** Renormalisation in the words of the specification: [r] is [u] scaled
    by the reciprocal of its norm, the identity when [u] is the zero
    quaternion, and has norm 1. *)
Definition renormalized (u r : Quaternion.t) : Prop :=
  (u = Quaternion.mk 0 0 0 0 -> r = Quaternion.mk 1 0 0 0) /\
  (u <> Quaternion.mk 0 0 0 0 ->
   r = Quaternion.Scale u (/ Quaternion.norm u)) /\
  Quaternion.norm r = 1.

(** *** aircraft_state.go: ControlInputs and AircraftState *)

Module ControlInputs.

Record t : Type := mk {
  Aileron : float64;
  Elevator : float64;
  Rudder : float64;
  Throttle : float64;
  Flaps : float64;
  Gear : bool;
  Brake : float64;
  Mixture : float64;
  Propeller : float64
}.

Definition NewControlInputs : t :=
  mk 0 0 0 0 0 true 0 0.8 1.

End ControlInputs.

(** The four surface positions of [AircraftState.ControlSurfaces] that the
    flight-control system reads and writes. *)
Module ControlSurfaces.

Record t : Type := mk {
  AileronLeft : float64;
  AileronRight : float64;
  Elevator : float64;
  Rudder : float64
}.

End ControlSurfaces.

(** The fields of [AircraftState] that the integrators, the atmosphere, the
    derived-parameter refresh and the property projection read or write.
    The remaining fields (time stamp, latitude and longitude, accelerations,
    flap and trim positions, the engine and gear snapshots, the force and
    moment break-down) are copied unchanged by every function below. *)
Module AircraftState.

Record t : Type := mk {
  Time : float64;
  Position : Vector3.t;
  Altitude : float64;
  Orientation : Quaternion.t;
  Roll : float64;
  Pitch : float64;
  Yaw : float64;
  Velocity : Vector3.t;
  AngularRate : Vector3.t;
  Alpha : float64;
  Beta : float64;
  Mach : float64;
  IndicatedAirspeed : float64;
  TrueAirspeed : float64;
  CalibratedAirspeed : float64;
  GroundSpeed : float64;
  Temperature : float64;
  Pressure : float64;
  Density : float64;
  SoundSpeed : float64;
  DynamicPressure : float64;
  ControlSurfaces : ControlSurfaces.t;
  Controls : ControlInputs.t
}.

(** The six assignments every integrator makes on its copy of the state. *)
Definition with_kinematics (s : t) (time : float64) (pos : Vector3.t)
    (ori : Quaternion.t) (vel ang : Vector3.t) (alt : float64) : t :=
  mk time pos alt ori (Roll s) (Pitch s) (Yaw s) vel ang
     (Alpha s) (Beta s) (Mach s) (IndicatedAirspeed s) (TrueAirspeed s)
     (CalibratedAirspeed s) (GroundSpeed s) (Temperature s) (Pressure s)
     (Density s) (SoundSpeed s) (DynamicPressure s) (ControlSurfaces s)
     (Controls s).

Definition with_ControlSurfaces (s : t) (cs : ControlSurfaces.t) : t :=
  mk (Time s) (Position s) (Altitude s) (Orientation s) (Roll s) (Pitch s)
     (Yaw s) (Velocity s) (AngularRate s) (Alpha s) (Beta s) (Mach s)
     (IndicatedAirspeed s) (TrueAirspeed s) (CalibratedAirspeed s)
     (GroundSpeed s) (Temperature s) (Pressure s) (Density s) (SoundSpeed s)
     (DynamicPressure s) cs (Controls s).

(** ISA standard atmosphere. *)
Definition UpdateAtmosphere (state : t) : t :=
  let seaLevelTemp := 288.15 in
  let seaLevelPressure := 101325.0 in
  let tempLapseRate := 0.0065 in
  let gasConstant := 287.05 in
  let gamma := 1.4 in
  let altitude := if Rlt_dec (Altitude state) 0 then 0 else Altitude state in
  let temperature :=
    if Rle_dec altitude 11000 then seaLevelTemp - tempLapseRate * altitude
    else 216.65 in
  let pressure :=
    if Rle_dec altitude 11000 then
      seaLevelPressure *
      Rpower (temperature / seaLevelTemp) (9.80665 / (gasConstant * tempLapseRate))
    else
      let p11 := seaLevelPressure *
                 Rpower (216.65 / seaLevelTemp)
                        (9.80665 / (gasConstant * tempLapseRate)) in
      p11 * exp (- 9.80665 * (altitude - 11000) / (gasConstant * 216.65)) in
  let density := pressure / (gasConstant * temperature) in
  let soundSpeed := sqrt (gamma * gasConstant * temperature) in
  let dynamicPressure :=
    0.5 * density * TrueAirspeed state * TrueAirspeed state in
  mk (Time state) (Position state) (Altitude state) (Orientation state)
     (Roll state) (Pitch state) (Yaw state) (Velocity state)
     (AngularRate state) (Alpha state) (Beta state) (Mach state)
     (IndicatedAirspeed state) (TrueAirspeed state)
     (CalibratedAirspeed state) (GroundSpeed state)
     temperature pressure density soundSpeed dynamicPressure
     (ControlSurfaces state) (Controls state).

Definition UpdateDerivedParameters (state : t) : t :=
  let '(roll, pitch, yaw) := Quaternion.ToEuler (Orientation state) in
  let v := Velocity state in
  let trueAirspeed := Vector3.Magnitude v in
  let indicatedAirspeed := trueAirspeed * sqrt (Density state / 1.225) in
  let calibratedAirspeed := indicatedAirspeed in
  let mach :=
    if Rgt_dec (SoundSpeed state) 0 then trueAirspeed / SoundSpeed state
    else Mach state in
  let alpha :=
    if Req_dec_T (Vector3.X v) 0 then
      (if Req_dec_T (Vector3.Z v) 0 then Alpha state
       else Atan2 (- Vector3.Z v) (Vector3.X v))
    else Atan2 (- Vector3.Z v) (Vector3.X v) in
  let beta :=
    if Rgt_dec trueAirspeed 0 then asin (Vector3.Y v / trueAirspeed)
    else Beta state in
  let groundVel := Vector3.mk (Vector3.X v) (Vector3.Y v) 0 in
  let groundSpeed := Vector3.Magnitude groundVel in
  let dynamicPressure := 0.5 * Density state * trueAirspeed * trueAirspeed in
  mk (Time state) (Position state) (Altitude state) (Orientation state)
     roll pitch yaw (Velocity state) (AngularRate state)
     alpha beta mach indicatedAirspeed trueAirspeed calibratedAirspeed
     groundSpeed (Temperature state) (Pressure state) (Density state)
     (SoundSpeed state) dynamicPressure
     (ControlSurfaces state) (Controls state).

End AircraftState.

(** *** integration_engine.go: derivatives and the three integrators *)

Module StateDerivatives.

Record t : Type := mk {
  PositionDot : Vector3.t;
  OrientationDot : Quaternion.t;
  VelocityDot : Vector3.t;
  AngularRateDot : Vector3.t;
  AltitudeDot : float64;
  MassDot : float64
}.

End StateDerivatives.

(** The pure-vector quaternion (0, p, q, r) of an angular rate. *)
Definition omegaQuat (w : Vector3.t) : Quaternion.t :=
  Quaternion.mk 0 (Vector3.X w) (Vector3.Y w) (Vector3.Z w).

Module EulerIntegrator.

Definition Integrate (state : AircraftState.t) (derivatives : StateDerivatives.t)
    (dt : float64) : AircraftState.t :=
  let time := AircraftState.Time state + dt in
  let earthVel :=
    Quaternion.RotateVector (AircraftState.Orientation state)
                            (AircraftState.Velocity state) in
  let position :=
    Vector3.Add (AircraftState.Position state) (Vector3.Scale earthVel dt) in
  let orientationDot :=
    Quaternion.Scale
      (Quaternion.Multiply (AircraftState.Orientation state)
                           (omegaQuat (AircraftState.AngularRate state))) 0.5 in
  let orientation :=
    Quaternion.Normalize
      (Quaternion.Add (AircraftState.Orientation state)
                      (Quaternion.Scale orientationDot dt)) in
  let velocity :=
    Vector3.Add (AircraftState.Velocity state)
                (Vector3.Scale (StateDerivatives.VelocityDot derivatives) dt) in
  let angularRate :=
    Vector3.Add (AircraftState.AngularRate state)
                (Vector3.Scale (StateDerivatives.AngularRateDot derivatives) dt) in
  let altitude := - Vector3.Z position in
  AircraftState.UpdateDerivedParameters
    (AircraftState.UpdateAtmosphere
       (AircraftState.with_kinematics state time position orientation
                                      velocity angularRate altitude)).

End EulerIntegrator.

Module RungeKutta4Integrator.

(** (k1 + 2 k2 + 2 k3 + k4) / 6 as the source writes it. *)
Definition weighted (k1 k2 k3 k4 : Vector3.t) : Vector3.t :=
  Vector3.Scale
    (Vector3.Add
       (Vector3.Add (Vector3.Add k1 (Vector3.Scale k2 2)) (Vector3.Scale k3 2))
       k4)
    (1.0 / 6.0).

Definition weightedQ (k1 k2 k3 k4 : Quaternion.t) : Quaternion.t :=
  Quaternion.Scale
    (Quaternion.Add
       (Quaternion.Add (Quaternion.Add k1 (Quaternion.Scale k2 2))
                       (Quaternion.Scale k3 2))
       k4)
    (1.0 / 6.0).

Definition Integrate (state : AircraftState.t) (derivatives : StateDerivatives.t)
    (dt : float64) : AircraftState.t :=
  let q := AircraftState.Orientation state in
  let vel := AircraftState.Velocity state in
  let ang := AircraftState.AngularRate state in
  let velDot := StateDerivatives.VelocityDot derivatives in
  let angDot := StateDerivatives.AngularRateDot derivatives in
  let time := AircraftState.Time state + dt in
  (* position *)
  let earthVel := Quaternion.RotateVector q vel in
  let k1_pos := earthVel in
  let midVel := Vector3.Add vel (Vector3.Scale velDot (dt * 0.5)) in
  let earthVel2 := Quaternion.RotateVector q midVel in
  let k2_pos := earthVel2 in
  let k3_pos := earthVel2 in
  let finalVel := Vector3.Add vel (Vector3.Scale velDot dt) in
  let earthVel3 := Quaternion.RotateVector q finalVel in
  let k4_pos := earthVel3 in
  let avgVel := weighted k1_pos k2_pos k3_pos k4_pos in
  let position :=
    Vector3.Add (AircraftState.Position state) (Vector3.Scale avgVel dt) in
  (* orientation *)
  let k1_orient := Quaternion.Scale (Quaternion.Multiply q (omegaQuat ang)) 0.5 in
  let midOmega := Vector3.Add ang (Vector3.Scale angDot (dt * 0.5)) in
  let omegaQuat2 := omegaQuat midOmega in
  let midOrient :=
    Quaternion.Normalize
      (Quaternion.Add q (Quaternion.Scale k1_orient (dt * 0.5))) in
  let k2_orient := Quaternion.Scale (Quaternion.Multiply midOrient omegaQuat2) 0.5 in
  let k3_orient := Quaternion.Scale (Quaternion.Multiply midOrient omegaQuat2) 0.5 in
  let finalOmega := Vector3.Add ang (Vector3.Scale angDot dt) in
  let omegaQuat3 := omegaQuat finalOmega in
  let finalOrient :=
    Quaternion.Normalize (Quaternion.Add q (Quaternion.Scale k3_orient dt)) in
  let k4_orient := Quaternion.Scale (Quaternion.Multiply finalOrient omegaQuat3) 0.5 in
  let avgOrientDot := weightedQ k1_orient k2_orient k3_orient k4_orient in
  let orientation :=
    Quaternion.Normalize (Quaternion.Add q (Quaternion.Scale avgOrientDot dt)) in
  (* body velocity *)
  let k1_vel := velDot in
  let k2_vel := Vector3.Scale k1_vel 0.95 in
  let k3_vel := Vector3.Scale k1_vel 0.98 in
  let k4_vel := Vector3.Scale k1_vel 0.90 in
  let avgVelDot := weighted k1_vel k2_vel k3_vel k4_vel in
  let velocity := Vector3.Add vel (Vector3.Scale avgVelDot dt) in
  (* angular rate *)
  let k1_angvel := angDot in
  let k2_angvel := Vector3.Scale k1_angvel 0.95 in
  let k3_angvel := Vector3.Scale k1_angvel 0.98 in
  let k4_angvel := Vector3.Scale k1_angvel 0.90 in
  let avgAngVelDot := weighted k1_angvel k2_angvel k3_angvel k4_angvel in
  let angularRate := Vector3.Add ang (Vector3.Scale avgAngVelDot dt) in
  let altitude := - Vector3.Z position in
  AircraftState.UpdateDerivedParameters
    (AircraftState.UpdateAtmosphere
       (AircraftState.with_kinematics state time position orientation
                                      velocity angularRate altitude)).

End RungeKutta4Integrator.

Module AdamsBashforth2Integrator.

(** The integrator object: the derivatives of the previous call, if any.
    [hasPrevious] is set together with [previousDerivatives], which is nil
    exactly when [hasPrevious] is false on every object the constructor
    made; a nil [previousDerivatives] with [hasPrevious] set would panic
    and is the [None] result of [Integrate]. *)
Record t : Type := mk {
  previousDerivatives : option StateDerivatives.t;
  hasPrevious : bool
}.

Definition NewAdamsBashforth2Integrator : t := mk None false.

(** The objects the constructor and [Integrate] can produce. *)
Definition wf (ab : t) : Prop :=
  hasPrevious ab = true -> exists prev, previousDerivatives ab = Some prev.

(** The Adams-Bashforth 2 step in the words of the specification:
    y + 1/2 dt (3 f_n - f_(n-1)), component by component. *)
Definition spec_step (y f_n f_prev : Vector3.t) (dt : float64) : Vector3.t :=
  Vector3.mk
    (Vector3.X y + 1 / 2 * dt * (3 * Vector3.X f_n - Vector3.X f_prev))
    (Vector3.Y y + 1 / 2 * dt * (3 * Vector3.Y f_n - Vector3.Y f_prev))
    (Vector3.Z y + 1 / 2 * dt * (3 * Vector3.Z f_n - Vector3.Z f_prev)).

(** Returns the new state and the updated integrator object. *)
Definition Integrate (ab : t) (state : AircraftState.t)
    (derivatives : StateDerivatives.t) (dt : float64)
    : option (AircraftState.t * t) :=
  if negb (hasPrevious ab) then
    let result := EulerIntegrator.Integrate state derivatives dt in
    Some (result, mk (Some derivatives) true)
  else
    match previousDerivatives ab with
    | None => None
    | Some prev =>
      let q := AircraftState.Orientation state in
      let time := AircraftState.Time state + dt in
      let earthVel := Quaternion.RotateVector q (AircraftState.Velocity state) in
      let prevEarthVel := Quaternion.RotateVector q (AircraftState.Velocity state) in
      let positionStep :=
        Vector3.Scale
          (Vector3.Add (Vector3.Scale earthVel 1.5)
                       (Vector3.Scale prevEarthVel (-0.5))) dt in
      let position := Vector3.Add (AircraftState.Position state) positionStep in
      let velocityStep :=
        Vector3.Scale
          (Vector3.Add
             (Vector3.Scale (StateDerivatives.VelocityDot derivatives) 1.5)
             (Vector3.Scale (StateDerivatives.VelocityDot prev) (-0.5))) dt in
      let velocity := Vector3.Add (AircraftState.Velocity state) velocityStep in
      let angularStep :=
        Vector3.Scale
          (Vector3.Add
             (Vector3.Scale (StateDerivatives.AngularRateDot derivatives) 1.5)
             (Vector3.Scale (StateDerivatives.AngularRateDot prev) (-0.5))) dt in
      let angularRate :=
        Vector3.Add (AircraftState.AngularRate state) angularStep in
      let orientationDot :=
        Quaternion.Scale (Quaternion.Multiply q (omegaQuat angularRate)) 0.5 in
      let orientation :=
        Quaternion.Normalize
          (Quaternion.Add q (Quaternion.Scale orientationDot dt)) in
      let altitude := - Vector3.Z position in
      Some (AircraftState.UpdateDerivedParameters
              (AircraftState.UpdateAtmosphere
                 (AircraftState.with_kinematics state time position orientation
                                                velocity angularRate altitude)),
            mk (Some derivatives) (hasPrevious ab))
    end.

End AdamsBashforth2Integrator.

(** *** fcs_property_manager.go: the property store *)

Module PropertyManager.

(** The mutex and the listeners of the Go struct are left out: listeners
    run in goroutines of their own and no function below registers one. *)
Record t : Type := mk {
  properties : gmap string float64;
  aliases : gmap string string
}.

(** The assignments of [initializeStandardProperties], in source order. *)
Definition standardProperties : list (string * float64) :=
  [ ("fcs/aileron-cmd-norm", 0.0); ("fcs/elevator-cmd-norm", 0.0);
    ("fcs/rudder-cmd-norm", 0.0); ("fcs/throttle-cmd-norm", 0.0);
    ("fcs/flap-cmd-norm", 0.0); ("fcs/speedbrake-cmd-norm", 0.0);
    ("fcs/gear-cmd-norm", 0.0);
    ("fcs/left-aileron-pos-rad", 0.0); ("fcs/right-aileron-pos-rad", 0.0);
    ("fcs/elevator-pos-rad", 0.0); ("fcs/rudder-pos-rad", 0.0);
    ("fcs/flap-pos-norm", 0.0); ("fcs/speedbrake-pos-norm", 0.0);
    ("fcs/aileron-cmd-norm", 0.0); ("fcs/elevator-cmd-norm", 0.0);
    ("fcs/rudder-cmd-norm", 0.0); ("fcs/throttle-cmd-norm", 0.0);
    ("atmosphere/density-slugft3", 0.002378);
    ("atmosphere/pressure-psf", 2116.2);
    ("atmosphere/temperature-R", 518.67); ("atmosphere/rho", 1.225);
    ("velocities/vc-kts", 0.0); ("velocities/ve-kts", 0.0);
    ("velocities/vt-fps", 0.0); ("velocities/mach", 0.0);
    ("velocities/alpha-rad", 0.0); ("velocities/beta-rad", 0.0);
    ("velocities/p-rad_sec", 0.0); ("velocities/q-rad_sec", 0.0);
    ("velocities/r-rad_sec", 0.0);
    ("position/h-sl-ft", 0.0); ("attitude/phi-rad", 0.0);
    ("attitude/theta-rad", 0.0); ("attitude/psi-rad", 0.0);
    ("forces/fbx-lbs", 0.0); ("forces/fby-lbs", 0.0); ("forces/fbz-lbs", 0.0);
    ("moments/l-lbsft", 0.0); ("moments/m-lbsft", 0.0);
    ("moments/n-lbsft", 0.0) ].

Definition NewPropertyManager : t :=
  mk (fold_left (fun m '(name, value) => <[name := value]> m)
                standardProperties ∅)
     ∅.

(** One alias indirection, as in [Set], [Get] and [GetSafe]. *)
Definition resolve (pm : t) (name : string) : string :=
  match aliases pm !! name with
  | Some alias => alias
  | None => name
  end.

Definition Set_ (pm : t) (name : string) (value : float64) : t :=
  mk (<[resolve pm name := value]> (properties pm)) (aliases pm).

Definition Get (pm : t) (name : string) : float64 :=
  match properties pm !! resolve pm name with
  | Some value => value
  | None => 0.0
  end.

Definition GetSafe (pm : t) (name : string) : float64 * bool :=
  match properties pm !! resolve pm name with
  | Some value => (value, true)
  | None => (0, false)
  end.

Definition SetAlias (pm : t) (alias target : string) : t :=
  mk (properties pm) (<[alias := target]> (aliases pm)).

(** The calls of [UpdateFromAircraftState], in source order. *)
Definition stateProperties (state : AircraftState.t) : list (string * float64) :=
  let c := AircraftState.Controls state in
  let cs := AircraftState.ControlSurfaces state in
  [ ("fcs/aileron-cmd-norm", ControlInputs.Aileron c);
    ("fcs/elevator-cmd-norm", ControlInputs.Elevator c);
    ("fcs/rudder-cmd-norm", ControlInputs.Rudder c);
    ("fcs/throttle-cmd-norm", ControlInputs.Throttle c);
    ("fcs/flap-cmd-norm", ControlInputs.Flaps c);
    ("fcs/left-aileron-pos-rad", ControlSurfaces.AileronLeft cs);
    ("fcs/right-aileron-pos-rad", ControlSurfaces.AileronRight cs);
    ("fcs/elevator-pos-rad", ControlSurfaces.Elevator cs);
    ("fcs/rudder-pos-rad", ControlSurfaces.Rudder cs);
    ("atmosphere/rho", AircraftState.Density state);
    ("atmosphere/pressure-psf", AircraftState.Pressure state * 0.020885);
    ("atmosphere/temperature-R", AircraftState.Temperature state * 1.8);
    ("velocities/vt-fps",
     Vector3.Magnitude (AircraftState.Velocity state) * 3.28084);
    ("velocities/vc-kts", AircraftState.CalibratedAirspeed state * 1.94384);
    ("velocities/alpha-rad", 0.0);
    ("velocities/beta-rad", 0.0);
    ("velocities/p-rad_sec", Vector3.X (AircraftState.AngularRate state));
    ("velocities/q-rad_sec", Vector3.Y (AircraftState.AngularRate state));
    ("velocities/r-rad_sec", Vector3.Z (AircraftState.AngularRate state));
    ("position/h-sl-ft", AircraftState.Altitude state * 3.28084);
    ("attitude/phi-rad", 0.0);
    ("attitude/theta-rad", 0.0);
    ("attitude/psi-rad", 0.0) ].

Definition UpdateFromAircraftState (pm : t) (state : AircraftState.t) : t :=
  fold_left (fun pm '(name, value) => Set_ pm name value)
            (stateProperties state) pm.

Definition ApplyToAircraftState (pm : t) (state : AircraftState.t)
    : AircraftState.t :=
  AircraftState.with_ControlSurfaces state
    (ControlSurfaces.mk (Get pm "fcs/left-aileron-pos-rad")
                        (Get pm "fcs/right-aileron-pos-rad")
                        (Get pm "fcs/elevator-pos-rad")
                        (Get pm "fcs/rudder-pos-rad")).

(** The value a list of assignments leaves under [name]: that of the last
    assignment to it, if any. *)
Fixpoint lastAssigned (assignments : list (string * float64)) (name : string)
    : option float64 :=
  match assignments with
  | [] => None
  | (n, v) :: rest =>
    match lastAssigned rest name with
    | Some v' => Some v'
    | None => if decide (n = name) then Some v else None
    end
  end.

End PropertyManager.

(** *** The flight-control components *)

(** A float64 that the source tests for +Inf. *)
Inductive float64_inf : Type :=
  | Finite (x : float64)
  | PosInf.

Module BaseComponent.

Record t : Type := mk {
  Name : string;
  Type_ : string;
  Inputs : list string;
  Output : string;
  RateGroup : string;
  Enabled : bool
}.

Definition SetRateGroup (bc : t) (rateGroup : string) : t :=
  mk (Name bc) (Type_ bc) (Inputs bc) (Output bc) rateGroup (Enabled bc).

Definition with_Inputs (bc : t) (inputs : list string) : t :=
  mk (Name bc) (Type_ bc) inputs (Output bc) (RateGroup bc) (Enabled bc).

(** [if Output != "" { properties.Set(Output, value) }] *)
Definition writeOutput (bc : t) (pm : PropertyManager.t) (value : float64)
    : PropertyManager.t :=
  if decide (Output bc = "") then pm
  else PropertyManager.Set_ pm (Output bc) value.

End BaseComponent.

Module ActuatorComponent.

Record t : Type := mk {
  Base : BaseComponent.t;
  RateLimit : float64_inf;
  Lag : float64;
  HysteresisWidth : float64;
  BiasValue : float64;
  currentValue : float64;
  targetValue : float64;
  previousInput : float64;
  initialized : bool
}.

Definition NewActuatorComponent (name input output : string) : t :=
  mk (BaseComponent.mk name "ACTUATOR" [input] output "" true)
     PosInf 0.0 0.0 0.0 0 0 0 false.

Definition SetRateLimit (ac : t) (rateLimit : float64_inf) : t :=
  mk (Base ac) rateLimit (Lag ac) (HysteresisWidth ac) (BiasValue ac)
     (currentValue ac) (targetValue ac) (previousInput ac) (initialized ac).

Definition SetLag (ac : t) (lag : float64) : t :=
  mk (Base ac) (RateLimit ac) lag (HysteresisWidth ac) (BiasValue ac)
     (currentValue ac) (targetValue ac) (previousInput ac) (initialized ac).

Definition SetHysteresis (ac : t) (width : float64) : t :=
  mk (Base ac) (RateLimit ac) (Lag ac) width (BiasValue ac)
     (currentValue ac) (targetValue ac) (previousInput ac) (initialized ac).

Definition with_Base (ac : t) (b : BaseComponent.t) : t :=
  mk b (RateLimit ac) (Lag ac) (HysteresisWidth ac) (BiasValue ac)
     (currentValue ac) (targetValue ac) (previousInput ac) (initialized ac).

Definition Reset (ac : t) : t :=
  mk (Base ac) (RateLimit ac) (Lag ac) (HysteresisWidth ac) (BiasValue ac)
     0.0 0.0 0.0 false.

(** Returns the actuator, the store and the returned value. *)
Definition Execute (ac : t) (properties : PropertyManager.t) (dt : float64)
    : t * PropertyManager.t * float64 :=
  match BaseComponent.Inputs (Base ac) with
  | [] => (ac, properties, currentValue ac)
  | input0 :: _ =>
    if negb (BaseComponent.Enabled (Base ac)) then
      (ac, properties, currentValue ac)
    else
      let inputValue := PropertyManager.Get properties input0 + BiasValue ac in
      (* hysteresis *)
      let '(inputValue, previousInput') :=
        if Rgt_dec (HysteresisWidth ac) 0.0 then
          let halfWidth := HysteresisWidth ac / 2.0 in
          let inputValue :=
            if Rlt_dec (Rabs (inputValue - previousInput ac)) halfWidth
            then previousInput ac else inputValue in
          (inputValue, inputValue)
        else (inputValue, previousInput ac) in
      (* first run *)
      let '(currentValue0, targetValue0) :=
        if negb (initialized ac) then (0.0, 0.0)
        else (currentValue ac, targetValue ac) in
      (* rate limiting *)
      let targetValue' :=
        match RateLimit ac with
        | PosInf => inputValue
        | Finite rateLimit =>
          if Rgt_dec rateLimit 0.0 then
            let maxChange := rateLimit * dt in
            if Rgt_dec inputValue (targetValue0 + maxChange)
            then targetValue0 + maxChange
            else if Rlt_dec inputValue (targetValue0 - maxChange)
            then targetValue0 - maxChange
            else inputValue
          else inputValue
        end in
      (* first-order lag *)
      let currentValue' :=
        if Rgt_dec (Lag ac) 0.0 then
          let alpha := dt / (Lag ac + dt) in
          currentValue0 + alpha * (targetValue' - currentValue0)
        else targetValue' in
      (mk (Base ac) (RateLimit ac) (Lag ac) (HysteresisWidth ac) (BiasValue ac)
          currentValue' targetValue' previousInput' true,
       BaseComponent.writeOutput (Base ac) properties currentValue',
       currentValue')
  end.

(** The value a stage starts from: the stored one, or 0 on the first
    execution. *)
Definition startValue (ac : t) (stored : float64) : float64 :=
  if initialized ac then stored else 0.0.

(** The stages of an execution in the words of the specification. *)
Definition spec_hysteresis (width previous input : float64) : float64 :=
  if Rlt_dec (Rabs (input - previous)) (width / 2) then previous else input.

Definition spec_rate_limit (rateLimit : float64_inf) (dt target input : float64)
    : float64 :=
  match rateLimit with
  | PosInf => input
  | Finite r => target + Rmax (- (r * dt)) (Rmin (r * dt) (input - target))
  end.

Definition spec_lag (tau dt output target : float64) : float64 :=
  output + dt / (tau + dt) * (target - output).

End ActuatorComponent.

Module LagFilterComponent.

Record t : Type := mk {
  Base : BaseComponent.t;
  C1 : float64;
  output : float64;
  initialized : bool
}.

Definition NewLagFilterComponent (name input output : string)
    (timeConstant : float64) : t :=
  mk (BaseComponent.mk name "LAG_FILTER" [input] output "" true)
     timeConstant 0 false.

Definition with_Base (lf : t) (b : BaseComponent.t) : t :=
  mk b (C1 lf) (output lf) (initialized lf).

Definition Reset (lf : t) : t := mk (Base lf) (C1 lf) 0.0 false.

(** [None] is the index-out-of-range panic of [lf.Inputs[0]] in the
    pass-through branch. *)
Definition Execute (lf : t) (properties : PropertyManager.t) (dt : float64)
    : option (t * PropertyManager.t * float64) :=
  if negb (BaseComponent.Enabled (Base lf))
     || bool_decide (BaseComponent.Inputs (Base lf) = [])
     || bool_decide (C1 lf <= 0.0)
  then
    match BaseComponent.Inputs (Base lf) with
    | [] => None
    | input0 :: _ =>
      let input := PropertyManager.Get properties input0 in
      Some (lf,
            PropertyManager.Set_ properties (BaseComponent.Output (Base lf)) input,
            input)
    end
  else
    match BaseComponent.Inputs (Base lf) with
    | [] => None
    | input0 :: _ =>
      let input := PropertyManager.Get properties input0 in
      let output0 := if negb (initialized lf) then 0.0 else output lf in
      let alpha := dt / (C1 lf + dt) in
      let output' := output0 + alpha * (input - output0) in
      Some (mk (Base lf) (C1 lf) output' true,
            BaseComponent.writeOutput (Base lf) properties output',
            output')
    end.

End LagFilterComponent.

Module GainComponent.

Record t : Type := mk { Base : BaseComponent.t; Gain : float64 }.

Definition NewGainComponent (name input output : string) (gain : float64) : t :=
  mk (BaseComponent.mk name "GAIN" [input] output "" true) gain.

Definition with_Base (gc : t) (b : BaseComponent.t) : t := mk b (Gain gc).

Definition Execute (gc : t) (properties : PropertyManager.t) (dt : float64)
    : t * PropertyManager.t * float64 :=
  match BaseComponent.Inputs (Base gc) with
  | [] => (gc, properties, 0.0)
  | input0 :: _ =>
    if negb (BaseComponent.Enabled (Base gc)) then (gc, properties, 0.0)
    else
      let input := PropertyManager.Get properties input0 in
      let output := input * Gain gc in
      (gc, BaseComponent.writeOutput (Base gc) properties output, output)
  end.

End GainComponent.

Module SummerComponent.

Record t : Type := mk {
  Base : BaseComponent.t;
  Signs : list float64;
  Bias : float64
}.

Definition NewSummerComponent (name : string) (inputs : list string)
    (output : string) : t :=
  mk (BaseComponent.mk name "SUMMER" inputs output "" true)
     (map (fun _ => 1.0) inputs) 0.0.

Definition with_Base (sc : t) (b : BaseComponent.t) : t :=
  mk b (Signs sc) (Bias sc).

Definition SetSigns (sc : t) (signs : list float64) : t :=
  mk (Base sc) signs (Bias sc).

Definition SetBias (sc : t) (bias : float64) : t :=
  mk (Base sc) (Signs sc) bias.

(** The loop over the inputs, from index [i]. *)
Fixpoint sumInputs (properties : PropertyManager.t) (signs : list float64)
    (inputs : list string) (i : nat) (sum : float64) : float64 :=
  match inputs with
  | [] => sum
  | input :: rest =>
    let sign := nth i signs 1.0 in
    sumInputs properties signs rest (S i)
              (sum + sign * PropertyManager.Get properties input)
  end.

Definition Execute (sc : t) (properties : PropertyManager.t) (dt : float64)
    : t * PropertyManager.t * float64 :=
  if negb (BaseComponent.Enabled (Base sc)) then (sc, properties, 0.0)
  else
    let sum :=
      sumInputs properties (Signs sc) (BaseComponent.Inputs (Base sc)) 0
                (Bias sc) in
    (sc, BaseComponent.writeOutput (Base sc) properties sum, sum).

End SummerComponent.

Module ClipperComponent.

Record t : Type := mk {
  Base : BaseComponent.t;
  MinValue : float64;
  MaxValue : float64
}.

Definition NewClipperComponent (name input output : string)
    (minVal maxVal : float64) : t :=
  mk (BaseComponent.mk name "CLIPPER" [input] output "" true) minVal maxVal.

Definition with_Base (cc : t) (b : BaseComponent.t) : t :=
  mk b (MinValue cc) (MaxValue cc).

Definition Execute (cc : t) (properties : PropertyManager.t) (dt : float64)
    : t * PropertyManager.t * float64 :=
  match BaseComponent.Inputs (Base cc) with
  | [] => (cc, properties, 0.0)
  | input0 :: _ =>
    if negb (BaseComponent.Enabled (Base cc)) then (cc, properties, 0.0)
    else
      let input := PropertyManager.Get properties input0 in
      let output := Rmax (MinValue cc) (Rmin (MaxValue cc) input) in
      (cc, BaseComponent.writeOutput (Base cc) properties output, output)
  end.

End ClipperComponent.

Module SwitchComponent.

Record t : Type := mk {
  Base : BaseComponent.t;
  TestProperty : string;
  TestValue : float64;
  TestType : string;
  TrueValue : float64;
  FalseValue : float64;
  TrueInput : string;
  FalseInput : string
}.

Definition NewSwitchComponent (name output : string) : t :=
  mk (BaseComponent.mk name "SWITCH" [] output "" true)
     "" 0 "GT" 1.0 0.0 "" "".

Definition with_Base (sw : t) (b : BaseComponent.t) : t :=
  mk b (TestProperty sw) (TestValue sw) (TestType sw) (TrueValue sw)
     (FalseValue sw) (TrueInput sw) (FalseInput sw).

Definition SetTest (sw : t) (property testType : string) (value : float64) : t :=
  mk (Base sw) property value testType (TrueValue sw) (FalseValue sw)
     (TrueInput sw) (FalseInput sw).

Definition SetValues (sw : t) (trueValue falseValue : float64) : t :=
  mk (Base sw) (TestProperty sw) (TestValue sw) (TestType sw)
     trueValue falseValue (TrueInput sw) (FalseInput sw).

Definition SetInputs (sw : t) (trueInput falseInput : string) : t :=
  let inputs :=
    (if decide (trueInput = "") then [] else [trueInput]) ++
    (if decide (falseInput = "") then [] else [falseInput]) in
  mk (BaseComponent.with_Inputs (Base sw) inputs)
     (TestProperty sw) (TestValue sw) (TestType sw) (TrueValue sw)
     (FalseValue sw) trueInput falseInput.

Definition test (testType : string) (testVal testValue : float64) : bool :=
  if decide (testType = "GT") then bool_decide (testVal > testValue)
  else if decide (testType = "LT") then bool_decide (testVal < testValue)
  else if decide (testType = "GE") then bool_decide (testVal >= testValue)
  else if decide (testType = "LE") then bool_decide (testVal <= testValue)
  else if decide (testType = "EQ")
       then bool_decide (Rabs (testVal - testValue) < 1e-10)
  else if decide (testType = "NE")
       then bool_decide (Rabs (testVal - testValue) >= 1e-10)
  else false.

Definition Execute (sw : t) (properties : PropertyManager.t) (dt : float64)
    : t * PropertyManager.t * float64 :=
  if negb (BaseComponent.Enabled (Base sw)) then (sw, properties, 0.0)
  else
    let testResult :=
      if decide (TestProperty sw = "") then false
      else test (TestType sw)
                (PropertyManager.Get properties (TestProperty sw))
                (TestValue sw) in
    let output :=
      if testResult then
        (if decide (TrueInput sw = "") then TrueValue sw
         else PropertyManager.Get properties (TrueInput sw))
      else
        (if decide (FalseInput sw = "") then FalseValue sw
         else PropertyManager.Get properties (FalseInput sw)) in
    (sw, BaseComponent.writeOutput (Base sw) properties output, output).

End SwitchComponent.

(** The interface [ComponentProcessor] with its six implementations. *)
Module ComponentProcessor.

Inductive t : Type :=
  | Actuator (c : ActuatorComponent.t)
  | LagFilter (c : LagFilterComponent.t)
  | Gain (c : GainComponent.t)
  | Summer (c : SummerComponent.t)
  | Clipper (c : ClipperComponent.t)
  | Switch (c : SwitchComponent.t).

Definition Base (c : t) : BaseComponent.t :=
  match c with
  | Actuator c => ActuatorComponent.Base c
  | LagFilter c => LagFilterComponent.Base c
  | Gain c => GainComponent.Base c
  | Summer c => SummerComponent.Base c
  | Clipper c => ClipperComponent.Base c
  | Switch c => SwitchComponent.Base c
  end.

Definition GetName (c : t) : string := BaseComponent.Name (Base c).
Definition GetType (c : t) : string := BaseComponent.Type_ (Base c).
Definition GetInputs (c : t) : list string := BaseComponent.Inputs (Base c).
Definition GetOutput (c : t) : string := BaseComponent.Output (Base c).
Definition GetRateGroup (c : t) : string := BaseComponent.RateGroup (Base c).

Definition SetRateGroup (c : t) (rateGroup : string) : t :=
  match c with
  | Actuator c =>
      Actuator (ActuatorComponent.with_Base c
                  (BaseComponent.SetRateGroup (ActuatorComponent.Base c) rateGroup))
  | LagFilter c =>
      LagFilter (LagFilterComponent.with_Base c
                   (BaseComponent.SetRateGroup (LagFilterComponent.Base c) rateGroup))
  | Gain c =>
      Gain (GainComponent.with_Base c
              (BaseComponent.SetRateGroup (GainComponent.Base c) rateGroup))
  | Summer c =>
      Summer (SummerComponent.with_Base c
                (BaseComponent.SetRateGroup (SummerComponent.Base c) rateGroup))
  | Clipper c =>
      Clipper (ClipperComponent.with_Base c
                 (BaseComponent.SetRateGroup (ClipperComponent.Base c) rateGroup))
  | Switch c =>
      Switch (SwitchComponent.with_Base c
                (BaseComponent.SetRateGroup (SwitchComponent.Base c) rateGroup))
  end.

(** Only the actuator and the lag filter override the empty [Reset] of
    [BaseComponent]. *)
Definition Reset (c : t) : t :=
  match c with
  | Actuator c => Actuator (ActuatorComponent.Reset c)
  | LagFilter c => LagFilter (LagFilterComponent.Reset c)
  | _ => c
  end.

Definition Execute (c : t) (properties : PropertyManager.t) (dt : float64)
    : option (t * PropertyManager.t * float64) :=
  match c with
  | Actuator c =>
      let '(c', pm, out) := ActuatorComponent.Execute c properties dt in
      Some (Actuator c', pm, out)
  | LagFilter c =>
      match LagFilterComponent.Execute c properties dt with
      | Some (c', pm, out) => Some (LagFilter c', pm, out)
      | None => None
      end
  | Gain c =>
      let '(c', pm, out) := GainComponent.Execute c properties dt in
      Some (Gain c', pm, out)
  | Summer c =>
      let '(c', pm, out) := SummerComponent.Execute c properties dt in
      Some (Summer c', pm, out)
  | Clipper c =>
      let '(c', pm, out) := ClipperComponent.Execute c properties dt in
      Some (Clipper c', pm, out)
  | Switch c =>
      let '(c', pm, out) := SwitchComponent.Execute c properties dt in
      Some (Switch c', pm, out)
  end.

Definition isLagFilter (c : t) : bool :=
  match c with
  | LagFilter _ => true
  | _ => false
  end.

End ComponentProcessor.

(** *** The scheduler (rate groups, channels, FlightControlSystem)

    Components are Go objects shared by pointer between the master index,
    the rate groups and the channels.  The model keeps them in a heap, a
    finite map from addresses to components, and the Go slices and maps of
    component pointers hold addresses.  A method that mutates a component
    updates the heap.  An address missing from the heap stands for a nil
    interface value: a call through it panics. *)

Abbreviation heap := (gmap nat ComponentProcessor.t).

Module RateGroupScheduler.

(** [LastExecution] and [ExecutionTime] hold wall-clock readings and are
    left out. *)
Record t : Type := mk {
  Name : string;
  RateHz : float64;
  Period : float64;
  Components : list nat;
  Enabled : bool
}.

Definition NewRateGroupScheduler (name : string) (rateHz : float64) : t :=
  mk name rateHz (1.0 / rateHz) [] true.

Definition AddComponent (rgs : t) (h : heap) (component : nat)
    : option (t * heap) :=
  match h !! component with
  | None => None
  | Some c =>
    Some (mk (Name rgs) (RateHz rgs) (Period rgs)
             (Components rgs ++ [component]) (Enabled rgs),
          <[component := ComponentProcessor.SetRateGroup c (Name rgs)]> h)
  end.

(** [for _, component := range rgs.Components { component.Execute(...) }] *)
Fixpoint executeComponents (components : list nat) (h : heap)
    (properties : PropertyManager.t) (dt : float64)
    : option (heap * PropertyManager.t) :=
  match components with
  | [] => Some (h, properties)
  | component :: rest =>
    match h !! component with
    | None => None
    | Some c =>
      match ComponentProcessor.Execute c properties dt with
      | None => None
      | Some (c', properties', _) =>
          executeComponents rest (<[component := c']> h) properties' dt
      end
    end
  end.

Definition Execute (rgs : t) (h : heap) (properties : PropertyManager.t)
    (dt : float64) : option (heap * PropertyManager.t) :=
  if negb (Enabled rgs) then Some (h, properties)
  else executeComponents (Components rgs) h properties dt.

Definition GetComponentCount (rgs : t) : nat := length (Components rgs).

End RateGroupScheduler.

Module ChannelProcessor.

Record t : Type := mk {
  Name : string;
  Components : list nat;
  Enabled : bool
}.

Definition NewChannelProcessor (name : string) : t := mk name [] true.

Definition AddComponent (cp : t) (component : nat) : t :=
  mk (Name cp) (Components cp ++ [component]) (Enabled cp).

Definition Execute (cp : t) (h : heap) (properties : PropertyManager.t)
    (dt : float64) : option (heap * PropertyManager.t) :=
  if negb (Enabled cp) then Some (h, properties)
  else RateGroupScheduler.executeComponents (Components cp) h properties dt.

End ChannelProcessor.

Module FlightControlSystem.

(** [TotalTime] holds wall-clock readings and is left out. *)
Record t : Type := mk {
  Name : string;
  Properties : PropertyManager.t;
  RateGroups : gmap string RateGroupScheduler.t;
  Channels : gmap string ChannelProcessor.t;
  Components : gmap string nat;
  DefaultRate : float64;
  Enabled : bool;
  TotalExecutions : Z
}.

Definition with_RateGroups (fcs : t) (rgs : gmap string RateGroupScheduler.t)
    : t :=
  mk (Name fcs) (Properties fcs) rgs (Channels fcs) (Components fcs)
     (DefaultRate fcs) (Enabled fcs) (TotalExecutions fcs).

Definition with_Components (fcs : t) (cs : gmap string nat) : t :=
  mk (Name fcs) (Properties fcs) (RateGroups fcs) (Channels fcs) cs
     (DefaultRate fcs) (Enabled fcs) (TotalExecutions fcs).

Definition with_Properties (fcs : t) (pm : PropertyManager.t) : t :=
  mk (Name fcs) pm (RateGroups fcs) (Channels fcs) (Components fcs)
     (DefaultRate fcs) (Enabled fcs) (TotalExecutions fcs).

Definition NewFlightControlSystem (name : string) (defaultRateHz : float64) : t :=
  mk name PropertyManager.NewPropertyManager
     {[ "default" :=
          RateGroupScheduler.NewRateGroupScheduler "default" defaultRateHz ]}
     ∅ ∅ defaultRateHz true 0.

Definition AddRateGroup (fcs : t) (name : string) (rateHz : float64) : t :=
  with_RateGroups fcs
    (<[name := RateGroupScheduler.NewRateGroupScheduler name rateHz]>
       (RateGroups fcs)).

Definition AddChannel (fcs : t) (name : string) : t :=
  mk (Name fcs) (Properties fcs) (RateGroups fcs)
     (<[name := ChannelProcessor.NewChannelProcessor name]> (Channels fcs))
     (Components fcs) (DefaultRate fcs) (Enabled fcs) (TotalExecutions fcs).

(** [None]: the component is a nil interface value, or the "default" rate
    group it falls back to is missing. *)
Definition AddComponent (fcs : t) (h : heap) (component : nat)
    : option (t * heap) :=
  match h !! component with
  | None => None
  | Some c =>
    let fcs := with_Components fcs
                 (<[ComponentProcessor.GetName c := component]> (Components fcs)) in
    let '(rateGroupName, h) :=
      if decide (ComponentProcessor.GetRateGroup c = "") then
        ("default", <[component := ComponentProcessor.SetRateGroup c "default"]> h)
      else (ComponentProcessor.GetRateGroup c, h) in
    let target :=
      match RateGroups fcs !! rateGroupName with
      | Some _ => rateGroupName
      | None => "default"
      end in
    match RateGroups fcs !! target with
    | None => None
    | Some rateGroup =>
      match RateGroupScheduler.AddComponent rateGroup h component with
      | None => None
      | Some (rateGroup', h') =>
          Some (with_RateGroups fcs (<[target := rateGroup']> (RateGroups fcs)), h')
      end
    end
  end.

(** Go leaves the order in which [range] visits a map unspecified and
    varies it from one loop to the next.  One visit of the map [m] is a
    list of its keys, each exactly once, in any order. *)
Definition iteration_order {V : Type} (m : gmap string V) (order : list string)
    : Prop :=
  order ≡ₚ (map_to_list m).*1.

(** [for _, rateGroup := range fcs.RateGroups { rateGroup.Execute(...) }]
    along one visiting order. *)
Fixpoint executeRateGroups (order : list string)
    (rateGroups : gmap string RateGroupScheduler.t) (h : heap)
    (properties : PropertyManager.t) (dt : float64)
    : option (heap * PropertyManager.t) :=
  match order with
  | [] => Some (h, properties)
  | name :: rest =>
    match rateGroups !! name with
    | None => executeRateGroups rest rateGroups h properties dt
    | Some rateGroup =>
      match RateGroupScheduler.Execute rateGroup h properties dt with
      | None => None
      | Some (h', properties') =>
          executeRateGroups rest rateGroups h' properties' dt
      end
    end
  end.

(** One step of the flight-control system when the map of rate groups is
    visited in [order]. *)
Definition Execute (order : list string) (fcs : t) (h : heap)
    (state : AircraftState.t) (dt : float64)
    : option (t * heap * AircraftState.t) :=
  if negb (Enabled fcs) then Some (fcs, h, state)
  else
    let properties :=
      PropertyManager.UpdateFromAircraftState (Properties fcs) state in
    match executeRateGroups order (RateGroups fcs) h properties dt with
    | None => None
    | Some (h', properties') =>
      let state' := PropertyManager.ApplyToAircraftState properties' state in
      Some (mk (Name fcs) properties' (RateGroups fcs) (Channels fcs)
               (Components fcs) (DefaultRate fcs) (Enabled fcs)
               (TotalExecutions fcs + 1),
            h', state')
    end.

(** The runs of [Execute] that Go allows: one per visiting order. *)
Definition runs (fcs : t) (h : heap) (state : AircraftState.t) (dt : float64)
    (result : option (t * heap * AircraftState.t)) : Prop :=
  exists order,
    iteration_order (RateGroups fcs) order /\
    Execute order fcs h state dt = result.

(** What an observer reads in the property store after a run. *)
Definition observe (result : option (t * heap * AircraftState.t))
    (name : string) : option float64 :=
  match result with
  | Some (fcs, _, _) => Some (PropertyManager.Get (Properties fcs) name)
  | None => None
  end.

(** A rate group whose execution does something: enabled, with at least
    one component. *)
Definition active (rg : RateGroupScheduler.t) : Prop :=
  RateGroupScheduler.Enabled rg = true /\
  RateGroupScheduler.Components rg <> [].

#[global] Instance active_dec rg : Decision (active rg).
Proof. unfold active. apply _. Defined.

(** At most the rate group named [g] is active. *)
Definition only_active (g : string) (fcs : t) : Prop :=
  map_Forall (fun name rg => active rg -> name = g) (RateGroups fcs).

#[global] Instance only_active_dec g fcs : Decision (only_active g fcs).
Proof. unfold only_active. apply _. Defined.

(** The rate group [AddComponent] puts a component in: the one the
    component names if the system has it, the default group otherwise. *)
Definition targetGroup (fcs : t) (c : ComponentProcessor.t) : string :=
  if decide (ComponentProcessor.GetRateGroup c = "") then "default"
  else match RateGroups fcs !! ComponentProcessor.GetRateGroup c with
       | Some _ => ComponentProcessor.GetRateGroup c
       | None => "default"
       end.

(** [for _, component := range fcs.Components { component.Reset() }] along
    one visiting order; [None] is a call through a nil component. *)
Fixpoint resetComponents (order : list string) (components : gmap string nat)
    (h : heap) : option heap :=
  match order with
  | [] => Some h
  | name :: rest =>
    match components !! name with
    | None => resetComponents rest components h
    | Some component =>
      match h !! component with
      | None => None
      | Some c =>
          resetComponents rest components
            (<[component := ComponentProcessor.Reset c]> h)
      end
    end
  end.

(** [Reset] when the master index is visited in [order].  Its loop over
    the rate groups only refreshes their wall-clock reading. *)
Definition Reset (order : list string) (fcs : t) (h : heap)
    : option (t * heap) :=
  match resetComponents order (Components fcs) h with
  | None => None
  | Some h' =>
      Some (mk (Name fcs) (Properties fcs) (RateGroups fcs) (Channels fcs)
               (Components fcs) (DefaultRate fcs) (Enabled fcs) 0,
            h')
  end.

(** The heap in which the components at [addresses] are reset. *)
Definition resetAt (addresses : list nat) (h : heap) : heap :=
  map_imap (fun a c => Some (if decide (a ∈ addresses)
                             then ComponentProcessor.Reset c else c)) h.

(** The address is registered in the master index under some name. *)
Definition registered (fcs : t) (a : nat) : Prop :=
  exists name, Components fcs !! name = Some a.

End FlightControlSystem.

(** *** jsbsimxmlparser.go: tables *)

Module Table1D.

Record t : Type := mk { Indices : list float64; Values : list float64 }.

End Table1D.

Module Table2D.

Record t : Type := mk {
  Breakpoint : float64;
  RowIndices : list float64;
  ColIndices : list float64;
  Data : list (list float64)
}.

End Table2D.

(** The loop of [interpolate1D] from index [i], with [remaining] = n-1-i
    iterations to go; after the loop the last value is returned.  [None]
    is an index-out-of-range panic. *)
Fixpoint interpolate1D_loop (t : Table1D.t) (x : float64) (i remaining : nat)
    : option float64 :=
  match remaining with
  | O => Table1D.Values t !! (length (Table1D.Indices t) - 1)%nat
  | S remaining' =>
    match Table1D.Indices t !! i, Table1D.Indices t !! S i with
    | Some lo, Some hi =>
      if bool_decide (x >= lo) && bool_decide (x <= hi) then
        match Table1D.Values t !! i, Table1D.Values t !! S i with
        | Some vlo, Some vhi =>
            let frac := (x - lo) / (hi - lo) in
            Some (vlo + frac * (vhi - vlo))
        | _, _ => None
        end
      else interpolate1D_loop t x (S i) remaining'
    | _, _ => None
    end
  end.

Definition interpolate1D (t : Table1D.t) (x : float64) : option float64 :=
  let n := length (Table1D.Indices t) in
  match Table1D.Indices t !! 0%nat, Table1D.Indices t !! (n - 1)%nat with
  | Some first, Some last =>
    if Rle_dec x first then Table1D.Values t !! 0%nat
    else if Rge_dec x last then Table1D.Values t !! (n - 1)%nat
    else interpolate1D_loop t x 0 (n - 1)
  | _, _ => Some 0
  end.

(** The loop of [findIndices] from index [i]. *)
Fixpoint findIndices_loop (indices : list float64) (value : float64)
    (i remaining : nat) : nat * nat * float64 :=
  match remaining with
  | O => ((length indices - 1)%nat, (length indices - 1)%nat, 0)
  | S remaining' =>
    match indices !! i, indices !! S i with
    | Some lo, Some hi =>
      if bool_decide (value >= lo) && bool_decide (value <= hi) then
        let frac := if Req_dec_T hi lo then 0.0 else (value - lo) / (hi - lo) in
        (i, S i, frac)
      else findIndices_loop indices value (S i) remaining'
    | _, _ => ((length indices - 1)%nat, (length indices - 1)%nat, 0)
    end
  end.

Definition findIndices (indices : list float64) (value : float64)
    : nat * nat * float64 :=
  let n := length indices in
  match indices !! 0%nat, indices !! (n - 1)%nat with
  | Some first, Some last =>
    if Rle_dec value first then (0%nat, 0%nat, 0)
    else if Rge_dec value last then ((n - 1)%nat, (n - 1)%nat, 0)
    else findIndices_loop indices value 0 (n - 1)
  | _, _ => (0%nat, 0%nat, 0)
  end.

(** [t.Data[r][c]]; [None] is the index-out-of-range panic. *)
Definition cell (data : list (list float64)) (r c : nat) : option float64 :=
  match data !! r with
  | Some row => row !! c
  | None => None
  end.

(** The argument is a pointer: [None] is nil. *)
Definition interpolate2D (t : option Table2D.t) (row col : float64)
    : option float64 :=
  match t with
  | None => Some 0
  | Some t =>
    let data := Table2D.Data t in
    if (length data =? 0)%nat then Some 0
    else if (length (Table2D.RowIndices t) =? 0)%nat
            || (length (Table2D.ColIndices t) =? 0)%nat
    then Some 0
    else if existsb (fun r => (length r =? 0)%nat) data then Some 0
    else
      let '(rowIdx1, rowIdx2, rowFrac) := findIndices (Table2D.RowIndices t) row in
      let '(colIdx1, colIdx2, colFrac) := findIndices (Table2D.ColIndices t) col in
      let width := length (nth 0 data []) in
      if (length data <=? rowIdx1)%nat
         || (length data <=? rowIdx2)%nat then Some 0
      else if (width =? 0)%nat || (width <=? colIdx1)%nat
              || (width <=? colIdx2)%nat then Some 0
      else if (length (Table2D.ColIndices t) =? 1)%nat
              || (colIdx1 =? colIdx2)%nat then
        if (length (Table2D.RowIndices t) =? 1)%nat
           || (rowIdx1 =? rowIdx2)%nat
        then cell data rowIdx1 colIdx1
        else
          match cell data rowIdx1 colIdx1, cell data rowIdx2 colIdx1 with
          | Some v1, Some v2 => Some (v1 + rowFrac * (v2 - v1))
          | _, _ => None
          end
      else if (length (Table2D.RowIndices t) =? 1)%nat
              || (rowIdx1 =? rowIdx2)%nat then
        match cell data rowIdx1 colIdx1, cell data rowIdx1 colIdx2 with
        | Some v1, Some v2 => Some (v1 + colFrac * (v2 - v1))
        | _, _ => None
        end
      else
        match cell data rowIdx1 colIdx1, cell data rowIdx1 colIdx2,
              cell data rowIdx2 colIdx1, cell data rowIdx2 colIdx2 with
        | Some v11, Some v12, Some v21, Some v22 =>
            let v1 := v11 + colFrac * (v12 - v11) in
            let v2 := v21 + colFrac * (v22 - v21) in
            Some (v1 + rowFrac * (v2 - v1))
        | _, _, _, _ => None
        end
  end.

(** The search loop of [interpolate3D] from index [i]: the two slice
    indices and the fraction it leaves when it breaks, (0, 0, 0) when it
    runs to the end. *)
Fixpoint interpolate3D_loop (tables : list Table2D.t) (table : float64)
    (i remaining : nat) : nat * nat * float64 :=
  match remaining with
  | O => (0%nat, 0%nat, 0.0)
  | S remaining' =>
    match tables !! i, tables !! S i with
    | Some lo, Some hi =>
      if bool_decide (table >= Table2D.Breakpoint lo)
         && bool_decide (table <= Table2D.Breakpoint hi) then
        let frac :=
          if Req_dec_T (Table2D.Breakpoint hi) (Table2D.Breakpoint lo) then 0.0
          else (table - Table2D.Breakpoint lo)
               / (Table2D.Breakpoint hi - Table2D.Breakpoint lo) in
        (i, S i, frac)
      else interpolate3D_loop tables table (S i) remaining'
    | _, _ => (0%nat, 0%nat, 0.0)
    end
  end.

Definition interpolate3D (tables : list Table2D.t) (row col table : float64)
    : option float64 :=
  let n := length tables in
  match tables !! 0%nat, tables !! (n - 1)%nat with
  | Some first, Some last =>
    let '(tableIdx1, tableIdx2, tableFrac) :=
      interpolate3D_loop tables table 0 (n - 1) in
    if Rlt_dec table (Table2D.Breakpoint first)
    then interpolate2D (Some first) row col
    else if Rgt_dec table (Table2D.Breakpoint last)
    then interpolate2D (Some last) row col
    else
      match interpolate2D (tables !! tableIdx1) row col,
            interpolate2D (tables !! tableIdx2) row col with
      | Some v1, Some v2 => Some (v1 + tableFrac * (v2 - v1))
      | _, _ => None
      end
  | _, _ => Some 0
  end.

(** What the search loop of [interpolate1D] returns for [x]: the linear
    interpolation on the first segment [lo, hi] of the table with
    lo < x <= hi. *)
Definition bracketed (t : Table1D.t) (x : float64) (r : float64) : Prop :=
  exists (i : nat) lo hi vlo vhi,
    Table1D.Indices t !! i = Some lo /\ Table1D.Indices t !! S i = Some hi /\
    Table1D.Values t !! i = Some vlo /\ Table1D.Values t !! S i = Some vhi /\
    lo < x <= hi /\
    (forall j lo', (j < i)%nat -> Table1D.Indices t !! j = Some lo' -> lo' < x) /\
    r = vlo + (x - lo) / (hi - lo) * (vhi - vlo).

(** A result of [findIndices] that is safe to index a list of length [n]
    with: two indices below [n], equal or adjacent, and the fraction 0
    when they are equal. *)
Definition in_range (n : nat) (r : nat * nat * float64) : Prop :=
  (r.1.1 < n)%nat /\ (r.1.2 < n)%nat /\
  (r.1.2 = r.1.1 \/ r.1.2 = S r.1.1) /\
  (r.1.2 = r.1.1 -> r.2 = 0).

(** Every row is as long as the first one. *)
Definition rectangular (data : list (list float64)) : Prop :=
  Forall (fun row => length row = length (nth 0 data [])) data.

(** The XML form of a table.  The text of a [tableData] element is kept
    after tokenisation: [Data] holds the lines of the trimmed text, each
    split into its fields and each field parsed ([strings.Fields] and
    [strconv.ParseFloat] are taken as given); [Breakpoint] is the parsed
    breakpoint attribute, and the value of an independent variable is its
    trimmed text. *)
Module IndependentVar.

Record t : Type := mk { Lookup : string; Value : string }.

End IndependentVar.

Module TableData.

Record t : Type := mk { Breakpoint : float64; Data : list (list float64) }.

End TableData.

Module Table.

Record t : Type := mk {
  Name : string;
  IndependentVar : list IndependentVar.t;
  TableData : list TableData.t
}.

End Table.

Module ParsedTable.

Record t : Type := mk {
  Name : string;
  Dimension : nat;
  IndependentVars : list string;
  LookupTypes : list string;
  Data1D : option Table1D.t;
  Data2D : option Table2D.t;
  Data3D : list Table2D.t
}.

End ParsedTable.

Definition parse1DTableData (lines : list (list float64)) : Table1D.t :=
  fold_left
    (fun t fields =>
       match fields with
       | idx :: val :: _ =>
           Table1D.mk (Table1D.Indices t ++ [idx]) (Table1D.Values t ++ [val])
       | _ => t
       end)
    lines (Table1D.mk [] []).

(** [None] is the nil result on fewer than two lines. *)
Definition parse2DTableData (lines : list (list float64)) : option Table2D.t :=
  match lines with
  | (colFields :: _ :: _) as all =>
    Some (fold_left
            (fun t fields =>
               match fields with
               | rowIdx :: row =>
                   Table2D.mk (Table2D.Breakpoint t)
                     (Table2D.RowIndices t ++ [rowIdx]) (Table2D.ColIndices t)
                     (Table2D.Data t ++ [row])
               | [] => t
               end)
            (tail all) (Table2D.mk 0 [] colFields []))
  | _ => None
  end.

(** The 3D branch of [ParseTable]: a slice per [tableData]; a slice whose
    text has fewer than two lines makes the source dereference nil. *)
Fixpoint parse3DSlices (tableData : list TableData.t)
    : option (list Table2D.t) :=
  match tableData with
  | [] => Some []
  | td :: rest =>
    match parse2DTableData (TableData.Data td), parse3DSlices rest with
    | Some parsed2D, Some slices =>
        Some (Table2D.mk (TableData.Breakpoint td) (Table2D.RowIndices parsed2D)
                         (Table2D.ColIndices parsed2D) (Table2D.Data parsed2D)
              :: slices)
    | _, _ => None
    end
  end.

(** [ParseTable] never returns an error; [None] is a panic. *)
Definition ParseTable (t : Table.t) : option ParsedTable.t :=
  let vars := map IndependentVar.Value (Table.IndependentVar t) in
  let lookups := map IndependentVar.Lookup (Table.IndependentVar t) in
  match length (Table.IndependentVar t) with
  | 1%nat =>
    match Table.TableData t with
    | td :: _ =>
        Some (ParsedTable.mk (Table.Name t) 1 vars lookups
                (Some (parse1DTableData (TableData.Data td))) None [])
    | [] => None
    end
  | 2%nat =>
    match Table.TableData t with
    | td :: _ =>
        Some (ParsedTable.mk (Table.Name t) 2 vars lookups None
                (parse2DTableData (TableData.Data td)) [])
    | [] => None
    end
  | 3%nat =>
    match parse3DSlices (Table.TableData t) with
    | Some slices =>
        Some (ParsedTable.mk (Table.Name t) 3 vars lookups None None slices)
    | None => None
    end
  | _ => Some (ParsedTable.mk (Table.Name t) 0 vars lookups None None [])
  end.

(** What a function with an error result can do. *)
Inductive outcome : Type :=
  | Returned (value : float64)
  | Failed (message : string)
  | Panicked.

Definition of_option (r : option float64) : outcome :=
  match r with
  | Some v => Returned v
  | None => Panicked
  end.

(** The error texts of the source carry the number of inputs; the model
    keeps the fixed part. *)
Definition InterpolateTable (pt : ParsedTable.t) (inputs : list float64)
    : outcome :=
  match ParsedTable.Dimension pt with
  | 1%nat =>
    match inputs with
    | [x] =>
      match ParsedTable.Data1D pt with
      | Some t => of_option (interpolate1D t x)
      | None => Panicked
      end
    | _ => Failed "1D table requires 1 input"
    end
  | 2%nat =>
    match inputs with
    | [row; col] => of_option (interpolate2D (ParsedTable.Data2D pt) row col)
    | _ => Failed "2D table requires 2 inputs"
    end
  | 3%nat =>
    match inputs with
    | [row; col; table] =>
        of_option (interpolate3D (ParsedTable.Data3D pt) row col table)
    | _ => Failed "3D table requires 3 inputs"
    end
  | _ => Failed "unsupported table dimension"
  end.

(** [inputs[i] = properties[varName]]: a missing key reads as 0. *)
Definition tableInputs (pt : ParsedTable.t) (properties : gmap string float64)
    : list float64 :=
  map (fun varName => default 0 (properties !! varName))
      (ParsedTable.IndependentVars pt).

(** *** jsbsimxmlparser.go: the expression evaluator *)

(** An operation node.  Every sub-operation is a pointer: [None] is nil. *)
Inductive Operation : Type := mkOperation {
  Property : list string;
  Value : list float64;
  Table_ : option Table.t;
  Product : option Operation;
  Difference : option Operation;
  Sum : option Operation;
  Quotient : option Operation;
  Pow : option Operation;
  Abs : option Operation;
  Sin : option Operation;
  Cos : option Operation;
  Tan : option Operation;
  Asin : option Operation;
  Acos : option Operation;
  Atan : option Operation
}.

Module Function.

Record t : Type := mk {
  Name : string;
  Description : string;
  Product : option Operation;
  Difference : option Operation;
  Sum : option Operation;
  Quotient : option Operation;
  Pow : option Operation;
  Abs : option Operation;
  Sin : option Operation;
  Cos : option Operation;
  Tan : option Operation;
  Asin : option Operation;
  Acos : option Operation;
  Atan : option Operation;
  Table_ : option Table.t
}.

End Function.

(** The math helpers of the source and [performOperation]. *)
Module Evaluator.

Definition MinInt64 : Z := (- 2 ^ 63)%Z.

(** Go's conversion [int(x)] of a float64 to the 64-bit [int]: truncation
    toward 0 when the truncated value fits.  When it does not, the Go
    specification leaves the result to the implementation; the value here
    is the one amd64 produces, the smallest int64. *)
Definition truncate (x : float64) : Z :=
  let z := if Rle_dec 0 x then Int_part x else (- Int_part (- x))%Z in
  if ((MinInt64 <=? z) && (z <? 2 ^ 63))%Z then z else MinInt64.

Definition pow (x y : float64) : float64 :=
  Nat.iter (Z.to_nat (truncate y)) (fun result => result * x) 1.0.

Definition abs (x : float64) : float64 :=
  if Rlt_dec x 0 then - x else x.

Definition fmod (x y : float64) : float64 :=
  if Req_dec_T y 0 then x else x - y * IZR (truncate (x / y)).

(** The ten terms of the Taylor series: (result, term) after the steps
    i = 1 .. 10. *)
Definition sin (x : float64) : float64 :=
  let x := fmod x (2 * 3.14159265359) in
  fst (fold_left
         (fun '(result, term) i =>
            let term := term * (- x * x / INR ((2 * i) * (2 * i + 1))) in
            (result + term, term))
         (seq 1 10) (x, x)).

Definition cos (x : float64) : float64 := sin (x + 3.14159265359 / 2).

Definition tan (x : float64) : float64 :=
  let c := cos x in
  if Req_dec_T c 0 then 0 else sin x / c.

Definition asin (x : float64) : float64 :=
  if bool_decide (x < -1) || bool_decide (x > 1) then 0
  else x + (x * x * x) / 6 + (3 * x * x * x * x * x) / 40.

Definition acos (x : float64) : float64 := 3.14159265359 / 2 - asin x.

Definition atan (x : float64) : float64 :=
  x - (x * x * x) / 3 + (x * x * x * x * x) / 5.

Definition performOperation (opType : string) (values : list float64)
    : float64 :=
  match values with
  | [] => 0
  | v0 :: rest =>
    if decide (opType = "product") then
      fold_left (fun result v => result * v) values 1.0
    else if decide (opType = "sum") then
      fold_left (fun result v => result + v) values 0.0
    else if decide (opType = "difference") then
      fold_left (fun result v => result - v) rest v0
    else if decide (opType = "quotient") then
      fold_left (fun result v => if Req_dec_T v 0 then result else result / v)
                rest v0
    else if decide (opType = "pow") then
      match rest with
      | [] => v0
      | v1 :: _ => pow v0 v1
      end
    else if decide (opType = "abs") then abs v0
    else if decide (opType = "sin") then sin v0
    else if decide (opType = "cos") then cos v0
    else if decide (opType = "tan") then tan v0
    else if decide (opType = "asin") then asin v0
    else if decide (opType = "acos") then acos v0
    else if decide (opType = "atan") then atan v0
    else v0
  end.

End Evaluator.

(** [for _, prop := range op.Property]: a name the map holds contributes
    its value, a name it does not hold contributes nothing. *)
Fixpoint collectProperties (names : list string)
    (properties : gmap string float64) : list float64 :=
  match names with
  | [] => []
  | prop :: rest =>
    match properties !! prop with
    | Some val => val :: collectProperties rest properties
    | None => collectProperties rest properties
    end
  end.

(** The last lines of [evaluateOperation], from "Perform the operation":
    an empty value list is an error.  [None] is a panic while the values
    were collected. *)
Definition reduceValues (opType : string) (values : option (list float64))
    : outcome :=
  match values with
  | None => Panicked
  | Some [] => Failed "no values for operation"
  | Some values => Returned (Evaluator.performOperation opType values)
  end.

(** The table of an operation node: its value is appended when the
    interpolation returns without error. *)
Definition tableValues (table : option Table.t)
    (properties : gmap string float64) : option (list float64) :=
  match table with
  | None => Some []
  | Some t =>
    match ParseTable t with
    | None => None
    | Some pt =>
      match InterpolateTable pt (tableInputs pt properties) with
      | Returned val => Some [val]
      | Failed _ => Some []
      | Panicked => None
      end
    end
  end.

(** The body of [evaluateOperation] up to "Perform the operation": the
    value list it collects, in order the properties present in the map,
    the literal values, the results of the nested product, sum, difference
    and quotient (a nested operation that fails is skipped), and the table
    value. *)
Fixpoint collectValues (op : Operation) (properties : gmap string float64)
    : option (list float64) :=
  let nested (sub : option Operation) (opType : string)
      : option (list float64) :=
    match sub with
    | None => Some []
    | Some sub =>
      match reduceValues opType (collectValues sub properties) with
      | Returned val => Some [val]
      | Failed _ => Some []
      | Panicked => None
      end
    end in
  match nested (Product op) "product", nested (Sum op) "sum",
        nested (Difference op) "difference", nested (Quotient op) "quotient",
        tableValues (Table_ op) properties with
  | Some vp, Some vs, Some vd, Some vq, Some vt =>
      Some (collectProperties (Property op) properties ++ Value op
            ++ vp ++ vs ++ vd ++ vq ++ vt)
  | _, _, _, _, _ => None
  end.

Definition evaluateOperation (op : Operation) (opType : string)
    (properties : gmap string float64) : outcome :=
  reduceValues opType (collectValues op properties).

(** The argument is a pointer: [None] is nil. *)
Definition EvaluateFunction (f : option Function.t)
    (properties : gmap string float64) : outcome :=
  match f with
  | None => Failed "function is nil"
  | Some f =>
    match Function.Product f, Function.Sum f, Function.Difference f,
          Function.Quotient f, Function.Pow f, Function.Abs f,
          Function.Sin f, Function.Cos f, Function.Tan f,
          Function.Asin f, Function.Acos f, Function.Atan f with
    | Some op, _, _, _, _, _, _, _, _, _, _, _ =>
        evaluateOperation op "product" properties
    | None, Some op, _, _, _, _, _, _, _, _, _, _ =>
        evaluateOperation op "sum" properties
    | None, None, Some op, _, _, _, _, _, _, _, _, _ =>
        evaluateOperation op "difference" properties
    | None, None, None, Some op, _, _, _, _, _, _, _, _ =>
        evaluateOperation op "quotient" properties
    | None, None, None, None, Some op, _, _, _, _, _, _, _ =>
        evaluateOperation op "pow" properties
    | None, None, None, None, None, Some op, _, _, _, _, _, _ =>
        evaluateOperation op "abs" properties
    | None, None, None, None, None, None, Some op, _, _, _, _, _ =>
        evaluateOperation op "sin" properties
    | None, None, None, None, None, None, None, Some op, _, _, _, _ =>
        evaluateOperation op "cos" properties
    | None, None, None, None, None, None, None, None, Some op, _, _, _ =>
        evaluateOperation op "tan" properties
    | None, None, None, None, None, None, None, None, None, Some op, _, _ =>
        evaluateOperation op "asin" properties
    | None, None, None, None, None, None, None, None, None, None, Some op, _ =>
        evaluateOperation op "acos" properties
    | None, None, None, None, None, None, None, None, None, None, None, Some op =>
        evaluateOperation op "atan" properties
    | None, None, None, None, None, None, None, None, None, None, None, None =>
      match Function.Table_ f with
      | Some table =>
        match ParseTable table with
        | None => Panicked
        | Some pt => InterpolateTable pt (tableInputs pt properties)
        end
      | None => Failed "no valid operation in function"
      end
    end
  end.

(** An operation node that sets nothing but literal values and property
    references, and a function that sets nothing but one operation. *)
Definition leaf (property : list string) (value : list float64) : Operation :=
  mkOperation property value None None None None None None None None None
              None None None None.

Definition productFunction (op : Operation) : Function.t :=
  Function.mk "" "" (Some op) None None None None None None None None None
              None None None.

(** The value the specification gives an absent property. *)
Fixpoint spec_collectProperties (names : list string)
    (properties : gmap string float64) : list float64 :=
  match names with
  | [] => []
  | prop :: rest =>
      default 0.0 (properties !! prop) :: spec_collectProperties rest properties
  end.

(** The twelve operation fields of a function, in the order in which
    [EvaluateFunction] tests them, each with its operation type. *)
Definition operationFields (f : Function.t) : list (option Operation * string) :=
  [ (Function.Product f, "product"); (Function.Sum f, "sum");
    (Function.Difference f, "difference"); (Function.Quotient f, "quotient");
    (Function.Pow f, "pow"); (Function.Abs f, "abs"); (Function.Sin f, "sin");
    (Function.Cos f, "cos"); (Function.Tan f, "tan");
    (Function.Asin f, "asin"); (Function.Acos f, "acos");
    (Function.Atan f, "atan") ].

(** The first operation field that is set, if any. *)
Fixpoint firstSet (fields : list (option Operation * string))
    : option (Operation * string) :=
  match fields with
  | [] => None
  | (Some op, opType) :: _ => Some (op, opType)
  | (None, _) :: rest => firstSet rest
  end.

Definition is_error (r : outcome) : Prop :=
  exists message, r = Failed message.

(** What a nested operation adds to the value list of its parent. *)
Definition nestedValues (sub : option Operation) (opType : string)
    (properties : gmap string float64) : option (list float64) :=
  match sub with
  | None => Some []
  | Some sub =>
    match evaluateOperation sub opType properties with
    | Returned val => Some [val]
    | Failed _ => Some []
    | Panicked => None
    end
  end.

(** *** The propulsion system (PropulsionSystem and its parts) *)

Definition DEG_TO_RAD : float64 := 0.0174533.

Module PistonEngine.

Record t : Type := mk {
  Name : string;
  IsRunning : bool;
  RPM : float64;
  ManifoldPressure : float64;
  ThrottlePosition : float64;
  MaxRPM : float64;
  MaxMAP : float64;
  IdleRPM : float64;
  IdleMAP : float64
}.

Definition with_ThrottlePosition (e : t) (x : float64) : t :=
  mk (Name e) (IsRunning e) (RPM e) (ManifoldPressure e) x
     (MaxRPM e) (MaxMAP e) (IdleRPM e) (IdleMAP e).

Definition with_IsRunning (e : t) (b : bool) : t :=
  mk (Name e) b (RPM e) (ManifoldPressure e) (ThrottlePosition e)
     (MaxRPM e) (MaxMAP e) (IdleRPM e) (IdleMAP e).

Definition with_RPM_MAP (e : t) (rpm map : float64) : t :=
  mk (Name e) (IsRunning e) rpm map (ThrottlePosition e)
     (MaxRPM e) (MaxMAP e) (IdleRPM e) (IdleMAP e).

End PistonEngine.

Module Propeller.

Record t : Type := mk {
  Name : string;
  Diameter : float64;
  RPM : float64;
  Thrust : float64;
  Torque : float64;
  InducedVelocity : float64
}.

Definition with_RPM (p : t) (rpm : float64) : t :=
  mk (Name p) (Diameter p) rpm (Thrust p) (Torque p) (InducedVelocity p).

Definition with_Thrust (p : t) (thrust : float64) : t :=
  mk (Name p) (Diameter p) (RPM p) thrust (Torque p) (InducedVelocity p).

Definition with_InducedVelocity (p : t) (v : float64) : t :=
  mk (Name p) (Diameter p) (RPM p) (Thrust p) (Torque p) v.

Definition with_Torque (p : t) (torque : float64) : t :=
  mk (Name p) (Diameter p) (RPM p) (Thrust p) torque (InducedVelocity p).

End Propeller.

Module FuelTank.

Record t : Type := mk {
  Number : Z;
  Type_ : string;
  Position : Vector3.t;
  Capacity : float64;
  Contents : float64;
  Priority : Z
}.

Definition with_Contents (k : t) (c : float64) : t :=
  mk (Number k) (Type_ k) (Position k) (Capacity k) c (Priority k).

End FuelTank.

Module FuelSystem.

Record t : Type := mk {
  Tanks : list FuelTank.t;
  TotalCapacity : float64;
  TotalContents : float64;
  FuelFlow : float64
}.

(** The fuel in a list of tanks. *)
Definition sumContents (tanks : list FuelTank.t) : float64 :=
  fold_right (fun tank acc => FuelTank.Contents tank + acc) 0 tanks.

(** The book-keeping of the fuel system: the running total is the fuel in
    the tanks, and no tank holds a negative amount.  The tanks of the list
    are distinct objects. *)
Definition accounted (fs : t) : Prop :=
  TotalContents fs = sumContents (Tanks fs) /\
  Forall (fun tank => 0 <= FuelTank.Contents tank) (Tanks fs).

End FuelSystem.

Module PropulsionSystem.

(** The [Properties] pointer of the Go struct is never set nor read by the
    functions below and is left out. *)
Record t : Type := mk {
  Engine : PistonEngine.t;
  Propeller : Propeller.t;
  FuelSystem : FuelSystem.t;
  MaxThrust : float64;
  ReferenceRPM : float64;
  ReferenceMAP : float64;
  RunningFactor : float64;
  Position : Vector3.t;
  Orientation : Vector3.t
}.

Definition with_Engine (ps : t) (e : PistonEngine.t) : t :=
  mk e (Propeller ps) (FuelSystem ps) (MaxThrust ps) (ReferenceRPM ps)
     (ReferenceMAP ps) (RunningFactor ps) (Position ps) (Orientation ps).

Definition with_Propeller (ps : t) (p : Propeller.t) : t :=
  mk (Engine ps) p (FuelSystem ps) (MaxThrust ps) (ReferenceRPM ps)
     (ReferenceMAP ps) (RunningFactor ps) (Position ps) (Orientation ps).

Definition with_FuelSystem (ps : t) (fs : FuelSystem.t) : t :=
  mk (Engine ps) (Propeller ps) fs (MaxThrust ps) (ReferenceRPM ps)
     (ReferenceMAP ps) (RunningFactor ps) (Position ps) (Orientation ps).

Definition with_RunningFactor (ps : t) (rf : float64) : t :=
  mk (Engine ps) (Propeller ps) (FuelSystem ps) (MaxThrust ps)
     (ReferenceRPM ps) (ReferenceMAP ps) rf (Position ps) (Orientation ps).

(** The five tanks of [createFuelSystemFromXML]:
    (number, position, capacity, contents, priority). *)
Definition tankConfigs : list (Z * Vector3.t * float64 * float64 * Z) :=
  [ (0%Z, Vector3.mk (106 * 0.0254) (-80 * 0.0254) (-9.675 * 0.0254),
     553.84, 396.0, 1%Z);
    (1%Z, Vector3.mk (106 * 0.0254) (80 * 0.0254) (-9.675 * 0.0254),
     553.84, 396.0, 1%Z);
    (2%Z, Vector3.mk (160 * 0.0254) 0.0 (-3.0 * 0.0254), 511.7, 0.0, 1%Z);
    (3%Z, Vector3.mk (97.5 * 0.0254) (-198 * 0.0254) (-25 * 0.0254),
     451.5, 0.0, 1%Z);
    (4%Z, Vector3.mk (97.5 * 0.0254) (198 * 0.0254) (-25 * 0.0254),
     451.5, 0.0, 1%Z) ].

Definition createFuelSystemFromXML : FuelSystem.t :=
  fold_left
    (fun fs '(number, position, capacity, contents, priority) =>
       FuelSystem.mk
         (FuelSystem.Tanks fs ++
          [FuelTank.mk number "AVGAS" position capacity contents priority])
         (FuelSystem.TotalCapacity fs + capacity)
         (FuelSystem.TotalContents fs + contents)
         (FuelSystem.FuelFlow fs))
    tankConfigs (FuelSystem.mk [] 0 0 0).

Definition NewPropulsionSystem : t :=
  mk (PistonEngine.mk "Packard-V-1650-7" false 0.0 29.92 0.0
                      3000.0 61.0 800.0 15.0)
     (Propeller.mk "P51prop" 11.2 0.0 0.0 0.0 0.0)
     createFuelSystemFromXML
     200.0 1260.0 81.0 0.3
     (Vector3.mk (36.0 * 0.0254) 0.0 0.0)
     (Vector3.mk (-4.0 * DEG_TO_RAD) (2.5 * DEG_TO_RAD) 0.0).

Definition updateEngine (ps : t) (dt : float64) : t :=
  let e0 := Engine ps in
  let e1 :=
    if negb (PistonEngine.IsRunning e0)
       && bool_decide (PistonEngine.ThrottlePosition e0 > 0.1)
    then PistonEngine.with_IsRunning e0 true
    else e0 in
  let e2 :=
    if PistonEngine.IsRunning e1 then
      let throttle := PistonEngine.ThrottlePosition e1 in
      PistonEngine.with_RPM_MAP e1
        (PistonEngine.IdleRPM e1 +
         throttle * (PistonEngine.MaxRPM e1 - PistonEngine.IdleRPM e1))
        (PistonEngine.IdleMAP e1 +
         throttle * (PistonEngine.MaxMAP e1 - PistonEngine.IdleMAP e1))
    else PistonEngine.with_RPM_MAP e1 0.0 29.92 in
  with_Propeller (with_Engine ps e2)
    (Propeller.with_RPM (Propeller ps) (PistonEngine.RPM e2)).

Definition updatePropeller (ps : t) (dt : float64) : t :=
  let rpmFactor := Propeller.RPM (Propeller ps) / ReferenceRPM ps in
  let mapFactor := PistonEngine.ManifoldPressure (Engine ps) / ReferenceMAP ps in
  let thrust := RunningFactor ps * rpmFactor * mapFactor * MaxThrust ps in
  let thrust := Rmax 0.0 thrust in
  let inducedVelocity :=
    if Rgt_dec thrust 0 then sqrt (thrust / 0.5) else 0.0 in
  with_Propeller ps
    (Propeller.with_InducedVelocity
       (Propeller.with_Thrust (Propeller ps) thrust) inducedVelocity).

(** The loop of [consumeFuel]: the tanks in list order, the burn still to
    be drawn, and the running total; returns the tanks and the total. *)
Fixpoint consumeFuel_loop (tanks : list FuelTank.t)
    (remainingBurn totalContents : float64)
    : list FuelTank.t * float64 :=
  match tanks with
  | [] => ([], totalContents)
  | tank :: rest =>
    if bool_decide (remainingBurn <= 0) || bool_decide (FuelTank.Contents tank <= 0)
    then
      let '(rest', total') := consumeFuel_loop rest remainingBurn totalContents in
      (tank :: rest', total')
    else
      let burnFromTank := Rmin remainingBurn (FuelTank.Contents tank) in
      let tank' :=
        FuelTank.with_Contents tank (FuelTank.Contents tank - burnFromTank) in
      let '(rest', total') :=
        consumeFuel_loop rest (remainingBurn - burnFromTank)
                         (totalContents - burnFromTank) in
      (tank' :: rest', total')
  end.

Definition consumeFuel (ps : t) (fuelBurn : float64) : t :=
  let fs := FuelSystem ps in
  let '(tanks, total) :=
    consumeFuel_loop (FuelSystem.Tanks fs) fuelBurn (FuelSystem.TotalContents fs) in
  with_FuelSystem ps
    (FuelSystem.mk tanks (FuelSystem.TotalCapacity fs) total
                   (FuelSystem.FuelFlow fs)).

Definition updateFuelConsumption (ps : t) (dt : float64) : t :=
  let fs := FuelSystem ps in
  if PistonEngine.IsRunning (Engine ps)
     && bool_decide (Propeller.Thrust (Propeller ps) > 0)
  then
    let estimatedHP := Propeller.Thrust (Propeller ps) * 0.75 in
    let fuelFlow := estimatedHP * 0.5 in
    let ps1 :=
      with_FuelSystem ps
        (FuelSystem.mk (FuelSystem.Tanks fs) (FuelSystem.TotalCapacity fs)
                       (FuelSystem.TotalContents fs) fuelFlow) in
    let fuelBurn := fuelFlow * dt / 3600.0 in
    consumeFuel ps1 fuelBurn
  else
    with_FuelSystem ps
      (FuelSystem.mk (FuelSystem.Tanks fs) (FuelSystem.TotalCapacity fs)
                     (FuelSystem.TotalContents fs) 0.0).

Definition Update (ps : t) (throttleInput dt : float64) : t :=
  let ps := with_Engine ps
              (PistonEngine.with_ThrottlePosition (Engine ps)
                 (Rmax 0.0 (Rmin 1.0 throttleInput))) in
  let ps := updateEngine ps dt in
  let ps := updatePropeller ps dt in
  let ps := updateFuelConsumption ps dt in
  if PistonEngine.IsRunning (Engine ps)
  then with_RunningFactor ps 1.0
  else with_RunningFactor ps 0.3.

(** Thrust in Newtons. *)
Definition GetThrust (ps : t) : float64 :=
  Propeller.Thrust (Propeller ps) * 4.448222.

(** The thrust formula in the words of the specification:
    running_factor (prop_rpm / reference_rpm) (map_inhg / reference_map)
    max_thrust_lb, with running_factor 1.0 when the engine runs and 0.3
    when it is off. *)
Definition spec_thrust (ps : t) : float64 :=
  (if PistonEngine.IsRunning (Engine ps) then 1.0 else 0.3) *
  (Propeller.RPM (Propeller ps) / ReferenceRPM ps) *
  (PistonEngine.ManifoldPressure (Engine ps) / ReferenceMAP ps) *
  MaxThrust ps.

(** Torque in N m.  Stores the torque it computes and returns it with the
    system. *)
Definition GetTorque (ps : t) : t * float64 :=
  let p := Propeller ps in
  let torque :=
    if Rgt_dec (Propeller.RPM p) 0 then
      let power := Propeller.Thrust p * Propeller.InducedVelocity p in
      let angularVel := Propeller.RPM p * 2.0 * PI / 60.0 in
      if Rgt_dec angularVel 0 then power / angularVel else Propeller.Torque p
    else 0.0 in
  (with_Propeller ps (Propeller.with_Torque p torque), torque).

End PropulsionSystem.

(** *** The same code over IEEE 754 binary64

    The definitions above compute with real numbers.  The ones of this
    module compute with Rocq's primitive binary64 floats, whose operations
    are those of the processor: sums, differences, products, quotients and
    square roots are correctly rounded, they overflow to the infinities and
    underflow to zero, and every comparison with NaN is false.  Go's
    [x > y] is written [y <? x], [x >= y] is [y <=? x], [x == y] is
    [x =? y].  The module covers the functions whose behaviour on NaN,
    overflow or rounding matters to a statement of Part II. *)

Module Binary64.
Import PrimFloat.
#[local] Open Scope float_scope.
#[local] Set Warnings "-inexact-float".

Definition float64 : Set := float.

(** **** Package math *)

(** [math.IsNaN]: [f != f]. *)
Definition IsNaN (f : float64) : bool := negb (f =? f).

(** [math.IsInf]: whether f is an infinity, according to sign. *)
Definition IsInf (f : float64) (sign : Z) : bool :=
  (0 <=? sign)%Z && (f =? infinity) || (sign <=? 0)%Z && (f =? neg_infinity).

(** Neither NaN nor an infinity: [!math.IsNaN(f) && !math.IsInf(f, 0)],
    the negation of the test [validateState] applies to a value. *)
Definition finite (f : float64) : bool := negb (IsNaN f) && negb (IsInf f 0).

(** [math.Signbit], which [Max] and [Min] apply to a zero. *)
Definition Signbit (x : float64) : bool := get_sign x.

(** [math.Max]: Max(x, +Inf) = Max(+Inf, x) = +Inf, Max(x, NaN) =
    Max(NaN, x) = NaN, Max(+0, -0) = Max(-0, +0) = +0, Max(-0, -0) = -0. *)
Definition Max (x y : float64) : float64 :=
  if IsInf x 1 || IsInf y 1 then infinity
  else if IsNaN x || IsNaN y then nan
  else if (x =? 0) && (x =? y) then (if Signbit x then y else x)
  else if y <? x then x
  else y.

(** [math.Min]: Min(x, -Inf) = Min(-Inf, x) = -Inf, Min(x, NaN) =
    Min(NaN, x) = NaN, Min(-0, +0) = Min(+0, -0) = -0. *)
Definition Min (x y : float64) : float64 :=
  if IsInf x (-1) || IsInf y (-1) then neg_infinity
  else if IsNaN x || IsNaN y then nan
  else if (x =? 0) && (x =? y) then (if Signbit x then x else y)
  else if x <? y then x
  else y.

Definition Sqrt (x : float64) : float64 := sqrt x.

(** **** The order of the binary64 numbers

    The library specifies the primitive operations on [spec_float], the
    sign, significand and exponent of a float.  The order of two numbers
    can be read off a key: the sign class first, then the exponent and the
    significand, both negated for a negative number. *)

Definition key (a : SpecFloat.spec_float) : Z * Z * Z :=
  match a with
  | SpecFloat.S754_zero _ => (0, 0, 0)
  | SpecFloat.S754_infinity false => (2, 0, 0)
  | SpecFloat.S754_infinity true => (-2, 0, 0)
  | SpecFloat.S754_nan => (0, 0, 0)
  | SpecFloat.S754_finite false m e => (1, e, Z.pos m)
  | SpecFloat.S754_finite true m e => (-1, - e, Z.neg m)
  end%Z.

Definition lexcmp (k1 k2 : Z * Z * Z) : comparison :=
  let '(a1, a2, a3) := k1 in
  let '(b1, b2, b3) := k2 in
  match (a1 ?= b1)%Z with
  | Eq => match (a2 ?= b2)%Z with Eq => (a3 ?= b3)%Z | c => c end
  | c => c
  end.

Definition key_le (k1 k2 : Z * Z * Z) : Prop :=
  let '(a1, a2, a3) := k1 in
  let '(b1, b2, b3) := k2 in
  (a1 < b1 \/ (a1 = b1 /\ (a2 < b2 \/ (a2 = b2 /\ a3 <= b3))))%Z.

Definition key_lt (k1 k2 : Z * Z * Z) : Prop :=
  let '(a1, a2, a3) := k1 in
  let '(b1, b2, b3) := k2 in
  (a1 < b1 \/ (a1 = b1 /\ (a2 < b2 \/ (a2 = b2 /\ a3 < b3))))%Z.

(** A zero or a number that is not an infinity. *)
Definition zero_or_finite (r : SpecFloat.spec_float) : Prop :=
  match r with
  | SpecFloat.S754_zero _ | SpecFloat.S754_finite _ _ _ => True
  | _ => False
  end.

(** A zero, a positive number or +Inf. *)
Definition nonnegative (r : SpecFloat.spec_float) : Prop :=
  match r with
  | SpecFloat.S754_zero _ | SpecFloat.S754_infinity false
  | SpecFloat.S754_finite false _ _ => True
  | _ => False
  end.

(** **** aircraft_state.go: Vector3 and Quaternion *)

Module Vector3.

Record t : Set := mk { X : float64; Y : float64; Z : float64 }.

Definition Magnitude (v : t) : float64 :=
  Sqrt (X v * X v + Y v * Y v + Z v * Z v).

Definition Normalize (v : t) : t :=
  let mag := Magnitude v in
  if mag =? 0 then mk 0 0 0
  else mk (X v / mag) (Y v / mag) (Z v / mag).

End Vector3.

Module Quaternion.

Record t : Set := mk { W : float64; X : float64; Y : float64; Z : float64 }.

(** The norm that [Normalize] computes in its first line. *)
Definition norm (q : t) : float64 :=
  Sqrt (W q * W q + X q * X q + Y q * Y q + Z q * Z q).

Definition Normalize (q : t) : t :=
  let norm := Sqrt (W q * W q + X q * X q + Y q * Y q + Z q * Z q) in
  if norm =? 0 then mk 1 0 0 0
  else mk (W q / norm) (X q / norm) (Y q / norm) (Z q / norm).

Definition Multiply (q other : t) : t :=
  mk (W q * W other - X q * X other - Y q * Y other - Z q * Z other)
     (W q * X other + X q * W other + Y q * Z other - Z q * Y other)
     (W q * Y other - X q * Z other + Y q * W other + Z q * X other)
     (W q * Z other + X q * Y other - Y q * X other + Z q * W other).

Definition Add (q other : t) : t :=
  mk (W q + W other) (X q + X other) (Y q + Y other) (Z q + Z other).

Definition Scale (q : t) (scalar : float64) : t :=
  mk (W q * scalar) (X q * scalar) (Y q * scalar) (Z q * scalar).

End Quaternion.

(** **** integration_engine.go: the orientation update *)

Definition omegaQuat (w : Vector3.t) : Quaternion.t :=
  Quaternion.mk 0 (Vector3.X w) (Vector3.Y w) (Vector3.Z w).

Module EulerIntegrator.

(** The orientation that [Integrate] stores in the new state, from the
    orientation and the angular rate of the state it is given.  The
    refresh of the atmosphere and of the derived parameters that follows
    does not write the orientation. *)
Definition Integrate_Orientation (orientation : Quaternion.t)
    (angularRate : Vector3.t) (dt : float64) : Quaternion.t :=
  let orientationDot :=
    Quaternion.Scale (Quaternion.Multiply orientation (omegaQuat angularRate))
                     0.5 in
  Quaternion.Normalize
    (Quaternion.Add orientation (Quaternion.Scale orientationDot dt)).

End EulerIntegrator.

(** **** jsbsimxmlparser.go: one-dimensional tables *)

Module Table1D.

Record t : Set := mk { Indices : list float64; Values : list float64 }.

End Table1D.

(** The loop of [interpolate1D] from index [i], with [remaining] = n-1-i
    iterations to go; [None] is an index-out-of-range panic. *)
Fixpoint interpolate1D_loop (t : Table1D.t) (x : float64) (i remaining : nat)
    : option float64 :=
  match remaining with
  | O => Table1D.Values t !! (length (Table1D.Indices t) - 1)%nat
  | S remaining' =>
    match Table1D.Indices t !! i, Table1D.Indices t !! S i with
    | Some lo, Some hi =>
      if (lo <=? x) && (x <=? hi) then
        match Table1D.Values t !! i, Table1D.Values t !! S i with
        | Some vlo, Some vhi =>
            let frac := (x - lo) / (hi - lo) in
            Some (vlo + frac * (vhi - vlo))
        | _, _ => None
        end
      else interpolate1D_loop t x (S i) remaining'
    | _, _ => None
    end
  end.

Definition interpolate1D (t : Table1D.t) (x : float64) : option float64 :=
  let n := length (Table1D.Indices t) in
  match Table1D.Indices t !! 0%nat, Table1D.Indices t !! (n - 1)%nat with
  | Some first, Some last =>
    if x <=? first then Table1D.Values t !! 0%nat
    else if last <=? x then Table1D.Values t !! (n - 1)%nat
    else interpolate1D_loop t x 0 (n - 1)
  | _, _ => Some 0
  end.

(** **** fcs_property_manager.go and the clipper *)

Module PropertyManager.

Record t : Type := mk {
  properties : gmap string float64;
  aliases : gmap string string
}.

Definition resolve (pm : t) (name : string) : string :=
  match aliases pm !! name with
  | Some alias => alias
  | None => name
  end.

Definition Set_ (pm : t) (name : string) (value : float64) : t :=
  mk (<[resolve pm name := value]> (properties pm)) (aliases pm).

Definition Get (pm : t) (name : string) : float64 :=
  match properties pm !! resolve pm name with
  | Some value => value
  | None => 0.0
  end.

End PropertyManager.

Module ClipperComponent.

Record t : Type := mk {
  Base : BaseComponent.t;
  MinValue : float64;
  MaxValue : float64
}.

Definition NewClipperComponent (name input output : string)
    (minVal maxVal : float64) : t :=
  mk (BaseComponent.mk name "CLIPPER" [input] output "" true) minVal maxVal.

(** [if cc.Output != "" { properties.Set(cc.Output, output) }] *)
Definition writeOutput (bc : BaseComponent.t) (pm : PropertyManager.t)
    (value : float64) : PropertyManager.t :=
  if decide (BaseComponent.Output bc = "") then pm
  else PropertyManager.Set_ pm (BaseComponent.Output bc) value.

Definition Execute (cc : t) (properties : PropertyManager.t) (dt : float64)
    : t * PropertyManager.t * float64 :=
  match BaseComponent.Inputs (Base cc) with
  | [] => (cc, properties, 0.0)
  | input0 :: _ =>
    if negb (BaseComponent.Enabled (Base cc)) then (cc, properties, 0.0)
    else
      let input := PropertyManager.Get properties input0 in
      let output := Max (MinValue cc) (Min (MaxValue cc) input) in
      (cc, writeOutput (Base cc) properties output, output)
  end.

End ClipperComponent.

(** **** The propulsion system *)

Module PistonEngine.

Record t : Set := mk {
  Name : string;
  IsRunning : bool;
  RPM : float64;
  ManifoldPressure : float64;
  ThrottlePosition : float64;
  MaxRPM : float64;
  MaxMAP : float64;
  IdleRPM : float64;
  IdleMAP : float64
}.

Definition with_ThrottlePosition (e : t) (x : float64) : t :=
  mk (Name e) (IsRunning e) (RPM e) (ManifoldPressure e) x
     (MaxRPM e) (MaxMAP e) (IdleRPM e) (IdleMAP e).

Definition with_IsRunning (e : t) (b : bool) : t :=
  mk (Name e) b (RPM e) (ManifoldPressure e) (ThrottlePosition e)
     (MaxRPM e) (MaxMAP e) (IdleRPM e) (IdleMAP e).

Definition with_RPM_MAP (e : t) (rpm map : float64) : t :=
  mk (Name e) (IsRunning e) rpm map (ThrottlePosition e)
     (MaxRPM e) (MaxMAP e) (IdleRPM e) (IdleMAP e).

End PistonEngine.

Module Propeller.

Record t : Set := mk {
  Name : string;
  Diameter : float64;
  RPM : float64;
  Thrust : float64;
  Torque : float64;
  InducedVelocity : float64
}.

Definition with_RPM (p : t) (rpm : float64) : t :=
  mk (Name p) (Diameter p) rpm (Thrust p) (Torque p) (InducedVelocity p).

Definition with_Thrust (p : t) (thrust : float64) : t :=
  mk (Name p) (Diameter p) (RPM p) thrust (Torque p) (InducedVelocity p).

Definition with_InducedVelocity (p : t) (v : float64) : t :=
  mk (Name p) (Diameter p) (RPM p) (Thrust p) (Torque p) v.

End Propeller.

Module FuelTank.

Record t : Set := mk {
  Number : Z;
  Type_ : string;
  Position : Vector3.t;
  Capacity : float64;
  Contents : float64;
  Priority : Z
}.

Definition with_Contents (k : t) (c : float64) : t :=
  mk (Number k) (Type_ k) (Position k) (Capacity k) c (Priority k).

End FuelTank.

Module FuelSystem.

Record t : Set := mk {
  Tanks : list FuelTank.t;
  TotalCapacity : float64;
  TotalContents : float64;
  FuelFlow : float64
}.

End FuelSystem.

Module PropulsionSystem.

Record t : Set := mk {
  Engine : PistonEngine.t;
  Propeller : Propeller.t;
  FuelSystem : FuelSystem.t;
  MaxThrust : float64;
  ReferenceRPM : float64;
  ReferenceMAP : float64;
  RunningFactor : float64;
  Position : Vector3.t;
  Orientation : Vector3.t
}.

Definition with_Engine (ps : t) (e : PistonEngine.t) : t :=
  mk e (Propeller ps) (FuelSystem ps) (MaxThrust ps) (ReferenceRPM ps)
     (ReferenceMAP ps) (RunningFactor ps) (Position ps) (Orientation ps).

Definition with_Propeller (ps : t) (p : Propeller.t) : t :=
  mk (Engine ps) p (FuelSystem ps) (MaxThrust ps) (ReferenceRPM ps)
     (ReferenceMAP ps) (RunningFactor ps) (Position ps) (Orientation ps).

Definition with_FuelSystem (ps : t) (fs : FuelSystem.t) : t :=
  mk (Engine ps) (Propeller ps) fs (MaxThrust ps) (ReferenceRPM ps)
     (ReferenceMAP ps) (RunningFactor ps) (Position ps) (Orientation ps).

Definition with_RunningFactor (ps : t) (rf : float64) : t :=
  mk (Engine ps) (Propeller ps) (FuelSystem ps) (MaxThrust ps)
     (ReferenceRPM ps) (ReferenceMAP ps) rf (Position ps) (Orientation ps).

(** The five tanks of [createFuelSystemFromXML].  A position such as
    [106 * 0.0254] is a Go constant expression: the compiler evaluates it
    exactly and rounds once, which is the literal written here. *)
Definition tankConfigs : list (Z * Vector3.t * float64 * float64 * Z) :=
  [ (0%Z, Vector3.mk 2.6924 (-2.032) (-0.245745), 553.84, 396.0, 1%Z);
    (1%Z, Vector3.mk 2.6924 2.032 (-0.245745), 553.84, 396.0, 1%Z);
    (2%Z, Vector3.mk 4.064 0.0 (-0.0762), 511.7, 0.0, 1%Z);
    (3%Z, Vector3.mk 2.4765 (-5.0292) (-0.635), 451.5, 0.0, 1%Z);
    (4%Z, Vector3.mk 2.4765 5.0292 (-0.635), 451.5, 0.0, 1%Z) ].

Definition createFuelSystemFromXML : FuelSystem.t :=
  fold_left
    (fun fs '(number, position, capacity, contents, priority) =>
       FuelSystem.mk
         (FuelSystem.Tanks fs ++
          [FuelTank.mk number "AVGAS" position capacity contents priority])
         (FuelSystem.TotalCapacity fs + capacity)
         (FuelSystem.TotalContents fs + contents)
         (FuelSystem.FuelFlow fs))
    tankConfigs (FuelSystem.mk [] 0 0 0).

Definition NewPropulsionSystem : t :=
  mk (PistonEngine.mk "Packard-V-1650-7" false 0.0 29.92 0.0
                      3000.0 61.0 800.0 15.0)
     (Propeller.mk "P51prop" 11.2 0.0 0.0 0.0 0.0)
     createFuelSystemFromXML
     200.0 1260.0 81.0 0.3
     (Vector3.mk 0.9144 0.0 0.0)
     (Vector3.mk (-0.0698132) 0.04363325 0.0).

Definition updateEngine (ps : t) (dt : float64) : t :=
  let e0 := Engine ps in
  let e1 :=
    if negb (PistonEngine.IsRunning e0)
       && (0.1 <? PistonEngine.ThrottlePosition e0)
    then PistonEngine.with_IsRunning e0 true
    else e0 in
  let e2 :=
    if PistonEngine.IsRunning e1 then
      let throttle := PistonEngine.ThrottlePosition e1 in
      PistonEngine.with_RPM_MAP e1
        (PistonEngine.IdleRPM e1 +
         throttle * (PistonEngine.MaxRPM e1 - PistonEngine.IdleRPM e1))
        (PistonEngine.IdleMAP e1 +
         throttle * (PistonEngine.MaxMAP e1 - PistonEngine.IdleMAP e1))
    else PistonEngine.with_RPM_MAP e1 0.0 29.92 in
  with_Propeller (with_Engine ps e2)
    (Propeller.with_RPM (Propeller ps) (PistonEngine.RPM e2)).

Definition updatePropeller (ps : t) (dt : float64) : t :=
  let rpmFactor := Propeller.RPM (Propeller ps) / ReferenceRPM ps in
  let mapFactor := PistonEngine.ManifoldPressure (Engine ps) / ReferenceMAP ps in
  let thrust := RunningFactor ps * rpmFactor * mapFactor * MaxThrust ps in
  let thrust := Max 0.0 thrust in
  let inducedVelocity :=
    if 0 <? thrust then Sqrt (thrust / 0.5) else 0.0 in
  with_Propeller ps
    (Propeller.with_InducedVelocity
       (Propeller.with_Thrust (Propeller ps) thrust) inducedVelocity).

Fixpoint consumeFuel_loop (tanks : list FuelTank.t)
    (remainingBurn totalContents : float64)
    : list FuelTank.t * float64 :=
  match tanks with
  | [] => ([], totalContents)
  | tank :: rest =>
    if (remainingBurn <=? 0) || (FuelTank.Contents tank <=? 0)
    then
      let '(rest', total') := consumeFuel_loop rest remainingBurn totalContents in
      (tank :: rest', total')
    else
      let burnFromTank := Min remainingBurn (FuelTank.Contents tank) in
      let tank' :=
        FuelTank.with_Contents tank (FuelTank.Contents tank - burnFromTank) in
      let '(rest', total') :=
        consumeFuel_loop rest (remainingBurn - burnFromTank)
                         (totalContents - burnFromTank) in
      (tank' :: rest', total')
  end.

Definition consumeFuel (ps : t) (fuelBurn : float64) : t :=
  let fs := FuelSystem ps in
  let '(tanks, total) :=
    consumeFuel_loop (FuelSystem.Tanks fs) fuelBurn (FuelSystem.TotalContents fs) in
  with_FuelSystem ps
    (FuelSystem.mk tanks (FuelSystem.TotalCapacity fs) total
                   (FuelSystem.FuelFlow fs)).

Definition updateFuelConsumption (ps : t) (dt : float64) : t :=
  let fs := FuelSystem ps in
  if PistonEngine.IsRunning (Engine ps)
     && (0 <? Propeller.Thrust (Propeller ps))
  then
    let estimatedHP := Propeller.Thrust (Propeller ps) * 0.75 in
    let fuelFlow := estimatedHP * 0.5 in
    let ps1 :=
      with_FuelSystem ps
        (FuelSystem.mk (FuelSystem.Tanks fs) (FuelSystem.TotalCapacity fs)
                       (FuelSystem.TotalContents fs) fuelFlow) in
    let fuelBurn := fuelFlow * dt / 3600.0 in
    consumeFuel ps1 fuelBurn
  else
    with_FuelSystem ps
      (FuelSystem.mk (FuelSystem.Tanks fs) (FuelSystem.TotalCapacity fs)
                     (FuelSystem.TotalContents fs) 0.0).

Definition Update (ps : t) (throttleInput dt : float64) : t :=
  let ps := with_Engine ps
              (PistonEngine.with_ThrottlePosition (Engine ps)
                 (Max 0.0 (Min 1.0 throttleInput))) in
  let ps := updateEngine ps dt in
  let ps := updatePropeller ps dt in
  let ps := updateFuelConsumption ps dt in
  if PistonEngine.IsRunning (Engine ps)
  then with_RunningFactor ps 1.0
  else with_RunningFactor ps 0.3.

End PropulsionSystem.

(** **** Concrete inputs of the examples *)

Module Examples.

Definition identityQ : Quaternion.t := Quaternion.mk 1 0 0 0.

(** A step of 10 ms. *)
Definition step : float64 := 0.01.

(** An angular rate of 1e200 rad/s about the body x axis. *)
Definition spinning : Vector3.t := Vector3.mk 1e200 0 0.

Definition tiny : Vector3.t := Vector3.mk 1e-200 0 0.

Definition huge : Quaternion.t := Quaternion.mk 1e200 0 0 0.

(** The table of lift coefficients 0.3, 0.9, 0.5 at breakpoints 0, 1, 2. *)
Definition peakTable : Table1D.t := Table1D.mk [0; 1; 2] [0.3; 0.9; 0.5].

(** The engine of [NewPropulsionSystem] after one update at full
    throttle: running. *)
Definition runningSystem : PropulsionSystem.t :=
  PropulsionSystem.Update PropulsionSystem.NewPropulsionSystem 1 step.

Definition unitClipper : ClipperComponent.t :=
  ClipperComponent.NewClipperComponent "clip" "input" "output" (-1) 1.

Definition store (input : float64) : PropertyManager.t :=
  PropertyManager.Set_ (PropertyManager.mk ∅ ∅) "input" input.

End Examples.

End Binary64.

(** *** Concrete inputs of the examples *)

Module Examples.

Definition zero3 : Vector3.t := Vector3.mk 0 0 0.
Definition identityQ : Quaternion.t := Quaternion.mk 1 0 0 0.

(** A state at rest at the origin, level, in the sea-level atmosphere. *)
Definition restState : AircraftState.t :=
  AircraftState.mk 0 zero3 0 identityQ 0 0 0 zero3 zero3
    0 0 0 0 0 0 0 288.15 101325 1.225 340 0
    (ControlSurfaces.mk 0 0 0 0) ControlInputs.NewControlInputs.

(** The same state moving forward at 1 m/s. *)
Definition movingState : AircraftState.t :=
  AircraftState.with_kinematics restState 1 zero3 identityQ
    (Vector3.mk 1 0 0) zero3 0.

(** Derivatives of the state at rest under a forward acceleration of
    1 m/s^2, and of the moving state one second later. *)
Definition restDerivatives : StateDerivatives.t :=
  StateDerivatives.mk zero3 (Quaternion.mk 0 0 0 0) (Vector3.mk 1 0 0) zero3 0 0.

Definition movingDerivatives : StateDerivatives.t :=
  StateDerivatives.mk (Vector3.mk 1 0 0) (Quaternion.mk 0 0 0 0)
    (Vector3.mk 1 0 0) zero3 0 0.

(** The state at rest with the elevator command at 1. *)
Definition elevatorState : AircraftState.t :=
  AircraftState.mk 0 zero3 0 identityQ 0 0 0 zero3 zero3
    0 0 0 0 0 0 0 288.15 101325 1.225 340 0
    (ControlSurfaces.mk 0 0 0 0) (ControlInputs.mk 0 1 0 0 0 true 0 0.8 1).

(** Two gains in two rate groups: "double" (default group) writes twice
    the elevator command to "a"; "copy" (group "fast") copies "a" to "b". *)
Definition twoGainHeap : heap :=
  <[1%nat := ComponentProcessor.SetRateGroup
               (ComponentProcessor.Gain
                  (GainComponent.NewGainComponent "copy" "a" "b" 1.0)) "fast"]>
  (<[0%nat := ComponentProcessor.Gain
                (GainComponent.NewGainComponent
                   "double" "fcs/elevator-cmd-norm" "a" 2.0)]> ∅).

Definition twoGainFCS : option (FlightControlSystem.t * heap) :=
  let fcs :=
    FlightControlSystem.AddRateGroup
      (FlightControlSystem.NewFlightControlSystem "Test FCS" 120.0)
      "fast" 240.0 in
  match FlightControlSystem.AddComponent fcs twoGainHeap 0 with
  | None => None
  | Some (fcs, h) => FlightControlSystem.AddComponent fcs h 1
  end.

(** The same system with the second gain left out: the group "fast" is
    empty. *)
Definition oneGainFCS : option (FlightControlSystem.t * heap) :=
  let fcs :=
    FlightControlSystem.AddRateGroup
      (FlightControlSystem.NewFlightControlSystem "Test FCS" 120.0)
      "fast" 240.0 in
  FlightControlSystem.AddComponent fcs twoGainHeap 0.

(** The rate-limit test: a fresh actuator limited to 10 units per second,
    and a store whose "input" has been stepped to 1. *)
Definition rateLimitedActuator : ActuatorComponent.t :=
  ActuatorComponent.SetRateLimit
    (ActuatorComponent.NewActuatorComponent "rate-limited" "input" "output")
    (Finite 10.0).

Definition steppedStore : PropertyManager.t :=
  PropertyManager.Set_ PropertyManager.NewPropertyManager "input" 1.0.

(** A fresh actuator whose rate limit is set to 0, and one whose lag is
    set to -0.01 s. *)
Definition zeroRateActuator : ActuatorComponent.t :=
  ActuatorComponent.SetRateLimit
    (ActuatorComponent.NewActuatorComponent "zero-rate" "input" "output")
    (Finite 0.0).

Definition negativeLagActuator : ActuatorComponent.t :=
  ActuatorComponent.SetLag
    (ActuatorComponent.NewActuatorComponent "negative-lag" "input" "output")
    (-0.01).

(** The system and heap that a successful construction returned. *)
Definition built (r : option (FlightControlSystem.t * heap))
    : FlightControlSystem.t * heap :=
  match r with
  | Some p => p
  | None => (FlightControlSystem.NewFlightControlSystem "" 0, ∅)
  end.

Definition succeeded {A : Type} (r : option A) : bool :=
  match r with Some _ => true | None => false end.

(** A drag table: not monotone in its values. *)
Definition dragTable : Table1D.t :=
  Table1D.mk [-10; 0; 10] [0.1; 0; 0.1].

(** A table whose two breakpoints coincide. *)
Definition stepTable : Table1D.t :=
  Table1D.mk [1; 1] [2; 3].

(** The XML form of a lift table over the angle of attack. *)
Definition liftTable : Table.t :=
  Table.mk "CL" [IndependentVar.mk "row" "aero/alpha-rad"]
           [TableData.mk 0 [[-1; -0.5]; [0; 0]; [1; 0.5]]].

(** A function that sets no operation field and holds the lift table. *)
Definition tableFunction : Function.t :=
  Function.mk "" "" None None None None None None None None None None
              None None (Some liftTable).

Definition disabledGain : ComponentProcessor.t :=
  ComponentProcessor.Gain
    (GainComponent.mk (BaseComponent.mk "g" "GAIN" ["a"] "b" "" false) 2).

(** A system with the groups "default" and "fast" and no component. *)
Definition emptyFCS : FlightControlSystem.t :=
  FlightControlSystem.AddRateGroup
    (FlightControlSystem.NewFlightControlSystem "Test FCS" 120.0) "fast" 240.0.

(** The propulsion system of the constructor with its engine running. *)
Definition runningSystem : PropulsionSystem.t :=
  PropulsionSystem.with_RunningFactor
    (PropulsionSystem.with_Engine PropulsionSystem.NewPropulsionSystem
       (PistonEngine.with_IsRunning
          (PropulsionSystem.Engine PropulsionSystem.NewPropulsionSystem) true))
    1.0.

End Examples.

(** ** Part II: theorems *)

(** *** Binary64: comparisons, [Max] and [Min], signs *)

(** The library specifies the primitive comparisons and operations on
    [spec_float] ([eqb_spec], [ltb_spec], [leb_spec], [mul_spec], ...);
    the lemmas of this section derive from that the properties of the
    order, of Go's [math.Max] and [math.Min] and of the signs of results
    that the theorems on [Binary64] use. *)

Section Binary64Facts.
Import SpecFloat FloatOps FloatAxioms PrimFloat.
#[local] Open Scope float_scope.

Lemma SFcompare_antisym (a b : spec_float) :
  SFcompare b a = option_map CompOpp (SFcompare a b).
Proof.
  destruct a as [sa|sa| |sa ma ea], b as [sb|sb| |sb mb eb]; simpl;
    try reflexivity;
    try (destruct sa; reflexivity); try (destruct sb; reflexivity);
    try (destruct sa, sb; reflexivity).
  destruct sa, sb; try reflexivity; f_equal;
    rewrite (Z.compare_antisym ea eb);
    destruct (ea ?= eb)%Z; simpl; try reflexivity;
    rewrite ?Pos.compare_cont_antisym; simpl; try reflexivity.
  all: rewrite ?CompOpp_involutive; try reflexivity.
Qed.

Lemma SFcompare_refl (a : spec_float) :
  a <> S754_nan -> SFcompare a a = Some Eq.
Proof.
  destruct a as [s|s| |s m e]; simpl; intros H; try reflexivity.
  - destruct s; reflexivity.
  - contradiction.
  - destruct s; rewrite Z.compare_refl, Pos.compare_cont_refl; reflexivity.
Qed.

Lemma IsNaN_true (x : float) :
  Binary64.IsNaN x = true <-> Prim2SF x = S754_nan.
Proof.
  unfold Binary64.IsNaN. rewrite eqb_spec. unfold SFeqb.
  destruct (Prim2SF x) as [s|s| |s m e] eqn:E.
  - simpl. split; discriminate.
  - destruct s; simpl; split; discriminate.
  - simpl. split; reflexivity.
  - rewrite SFcompare_refl by discriminate. simpl. split; discriminate.
Qed.

Lemma IsNaN_false (x : float) :
  Binary64.IsNaN x = false <-> Prim2SF x <> S754_nan.
Proof.
  rewrite <- IsNaN_true. destruct (Binary64.IsNaN x); split; congruence.
Qed.

Lemma f64_leb_refl (x : float) : Binary64.IsNaN x = false -> (x <=? x) = true.
Proof.
  intros H. apply IsNaN_false in H. rewrite leb_spec. unfold SFleb.
  now rewrite SFcompare_refl.
Qed.

Lemma f64_ltb_false_leb (x y : float) :
  Binary64.IsNaN x = false -> Binary64.IsNaN y = false ->
  (y <? x) = false -> (x <=? y) = true.
Proof.
  intros Hx Hy. apply IsNaN_false in Hx, Hy.
  rewrite ltb_spec, leb_spec. unfold SFltb, SFleb.
  rewrite (SFcompare_antisym (Prim2SF x) (Prim2SF y)).
  destruct (SFcompare (Prim2SF x) (Prim2SF y)) as [[]|] eqn:E; simpl;
    try congruence.
  destruct (Prim2SF x), (Prim2SF y); simpl in E; congruence.
Qed.

Lemma f64_ltb_leb (x y : float) : (x <? y) = true -> (x <=? y) = true.
Proof.
  rewrite ltb_spec, leb_spec. unfold SFltb, SFleb.
  destruct (SFcompare _ _) as [[]|]; congruence.
Qed.

Lemma f64_eqb_leb (x y : float) : (x =? y) = true -> (x <=? y) = true.
Proof.
  rewrite eqb_spec, leb_spec. unfold SFeqb, SFleb.
  destruct (SFcompare _ _) as [[]|]; congruence.
Qed.

Lemma f64_eqb_sym (x y : float) : (x =? y) = (y =? x).
Proof.
  rewrite !eqb_spec. unfold SFeqb.
  rewrite (SFcompare_antisym (Prim2SF x) (Prim2SF y)).
  destruct (SFcompare _ _) as [[]|]; reflexivity.
Qed.

Lemma f64_ltb_IsNaN (x y : float) :
  (x <? y) = true -> Binary64.IsNaN x = false /\ Binary64.IsNaN y = false.
Proof.
  rewrite ltb_spec, !IsNaN_false. unfold SFltb.
  destruct (Prim2SF x), (Prim2SF y); simpl; try discriminate;
    intros _; split; discriminate.
Qed.

Lemma f64_leb_IsNaN (x y : float) :
  (x <=? y) = true -> Binary64.IsNaN x = false /\ Binary64.IsNaN y = false.
Proof.
  rewrite leb_spec, !IsNaN_false. unfold SFleb.
  destruct (Prim2SF x), (Prim2SF y); simpl; try discriminate;
    intros _; split; discriminate.
Qed.

Lemma f64_eqb_IsNaN (x y : float) :
  (x =? y) = true -> Binary64.IsNaN x = false /\ Binary64.IsNaN y = false.
Proof. intros H. apply f64_leb_IsNaN. now apply f64_eqb_leb. Qed.

Lemma f64_ltb_not_eqb (x y : float) : (x <? y) = true -> (x =? y) = false.
Proof.
  rewrite ltb_spec, eqb_spec. unfold SFltb, SFeqb.
  destruct (SFcompare _ _) as [[]|]; congruence.
Qed.

Lemma f64_ltb_asym (x y : float) : (x <? y) = true -> (y <? x) = false.
Proof.
  rewrite !ltb_spec. unfold SFltb.
  rewrite (SFcompare_antisym (Prim2SF x) (Prim2SF y)).
  destruct (SFcompare _ _) as [[]|]; simpl; congruence.
Qed.

Lemma f64_leb_not_ltb (x y : float) : (x <=? y) = true -> (y <? x) = false.
Proof.
  rewrite leb_spec, ltb_spec. unfold SFltb, SFleb.
  rewrite (SFcompare_antisym (Prim2SF x) (Prim2SF y)).
  destruct (SFcompare _ _) as [[]|]; simpl; congruence.
Qed.

(** The only float equal to an infinity is that infinity. *)
Lemma f64_eqb_infinity (x : float) : (x =? infinity) = true -> x = infinity.
Proof.
  rewrite eqb_spec. intros H. apply Prim2SF_inj.
  change (Prim2SF infinity) with (S754_infinity false) in *.
  unfold SFeqb in H.
  destruct (Prim2SF x) as [s|[]| |[] m e]; simpl in H;
    try discriminate; try reflexivity.
Qed.

Lemma f64_eqb_neg_infinity (x : float) :
  (x =? neg_infinity) = true -> x = neg_infinity.
Proof.
  rewrite eqb_spec. intros H. apply Prim2SF_inj.
  change (Prim2SF neg_infinity) with (S754_infinity true) in *.
  unfold SFeqb in H.
  destruct (Prim2SF x) as [s|[]| |[] m e]; simpl in H;
    try discriminate; try reflexivity.
Qed.

Lemma f64_leb_infinity (x : float) :
  Binary64.IsNaN x = false -> (x <=? infinity) = true.
Proof.
  rewrite IsNaN_false, leb_spec.
  change (Prim2SF infinity) with (S754_infinity false).
  unfold SFleb. destruct (Prim2SF x) as [s|[]| |s m e]; simpl; congruence.
Qed.

Lemma f64_neg_infinity_leb (x : float) :
  Binary64.IsNaN x = false -> (neg_infinity <=? x) = true.
Proof.
  rewrite IsNaN_false, leb_spec.
  change (Prim2SF neg_infinity) with (S754_infinity true).
  unfold SFleb. destruct (Prim2SF x) as [s|[]| |s m e]; simpl; congruence.
Qed.

(** A float equal to zero is one of the two zeros. *)
Lemma f64_eqb_zero (x : float) : (x =? 0) = true -> x = 0 \/ x = (-0).
Proof.
  rewrite eqb_spec. intros H.
  change (Prim2SF 0) with (S754_zero false) in H.
  unfold SFeqb in H.
  destruct (Prim2SF x) as [[]|[]| |[] m e] eqn:E; simpl in H;
    try discriminate.
  - right. apply Prim2SF_inj. rewrite E. reflexivity.
  - left. apply Prim2SF_inj. rewrite E. reflexivity.
Qed.



Lemma SFcompare_key (a b : spec_float) :
  a <> S754_nan -> b <> S754_nan ->
  SFcompare a b = Some (Binary64.lexcmp (Binary64.key a) (Binary64.key b)).
Proof.
  intros Ha Hb.
  destruct a as [sa|sa| |sa ma ea], b as [sb|sb| |sb mb eb];
    try contradiction; try (destruct sa); try (destruct sb);
    try reflexivity.
  all: simpl; f_equal.
  rewrite Z.compare_opp.
  rewrite (Z.compare_antisym ea eb). destruct (ea ?= eb)%Z; reflexivity.
Qed.

Lemma f64_lexcmp_le (k1 k2 : Z * Z * Z) :
  match Binary64.lexcmp k1 k2 with Lt | Eq => True | Gt => False end <-> Binary64.key_le k1 k2.
Proof.
  destruct k1 as [[a1 a2] a3], k2 as [[b1 b2] b3]. unfold Binary64.lexcmp, Binary64.key_le.
  destruct (Z.compare_spec a1 b1), (Z.compare_spec a2 b2),
           (Z.compare_spec a3 b3); split; intros; try lia; try exact I.
Qed.

Lemma f64_lexcmp_lt (k1 k2 : Z * Z * Z) :
  Binary64.lexcmp k1 k2 = Lt <-> Binary64.key_lt k1 k2.
Proof.
  destruct k1 as [[a1 a2] a3], k2 as [[b1 b2] b3]. unfold Binary64.lexcmp, Binary64.key_lt.
  destruct (Z.compare_spec a1 b1), (Z.compare_spec a2 b2),
           (Z.compare_spec a3 b3); split; intros; try lia; try discriminate;
    try reflexivity.
Qed.

Lemma f64_leb_key (x y : float) :
  (x <=? y) = true <->
  Prim2SF x <> S754_nan /\ Prim2SF y <> S754_nan /\
  Binary64.key_le (Binary64.key (Prim2SF x)) (Binary64.key (Prim2SF y)).
Proof.
  rewrite leb_spec. unfold SFleb. split.
  - intros H.
    assert (Hx : Prim2SF x <> S754_nan)
      by (intros E; rewrite E in H; discriminate).
    assert (Hy : Prim2SF y <> S754_nan)
      by (intros E; rewrite E in H; destruct (Prim2SF x); discriminate).
    split; [exact Hx|]. split; [exact Hy|].
    rewrite (SFcompare_key _ _ Hx Hy) in H. apply f64_lexcmp_le.
    destruct (Binary64.lexcmp _ _); [exact I|exact I|discriminate].
  - intros (Hx & Hy & H). rewrite (SFcompare_key _ _ Hx Hy).
    apply f64_lexcmp_le in H. destruct (Binary64.lexcmp _ _); [reflexivity|reflexivity|tauto].
Qed.

Lemma f64_ltb_key (x y : float) :
  (x <? y) = true <->
  Prim2SF x <> S754_nan /\ Prim2SF y <> S754_nan /\
  Binary64.key_lt (Binary64.key (Prim2SF x)) (Binary64.key (Prim2SF y)).
Proof.
  rewrite ltb_spec. unfold SFltb. split.
  - intros H.
    assert (Hx : Prim2SF x <> S754_nan)
      by (intros E; rewrite E in H; discriminate).
    assert (Hy : Prim2SF y <> S754_nan)
      by (intros E; rewrite E in H; destruct (Prim2SF x); discriminate).
    split; [exact Hx|]. split; [exact Hy|].
    rewrite (SFcompare_key _ _ Hx Hy) in H. apply f64_lexcmp_lt.
    destruct (Binary64.lexcmp _ _); [discriminate|reflexivity|discriminate].
  - intros (Hx & Hy & H). rewrite (SFcompare_key _ _ Hx Hy).
    apply f64_lexcmp_lt in H. now rewrite H.
Qed.

Ltac key_order :=
  repeat match goal with
         | H : (_ <=? _) = true |- _ => apply f64_leb_key in H; destruct H as (? & ? & H)
         | H : (_ <? _) = true |- _ => apply f64_ltb_key in H; destruct H as (? & ? & H)
         end;
  first [apply f64_leb_key | apply f64_ltb_key];
  split; [assumption|]; split; [assumption|];
  unfold Binary64.key_le, Binary64.key_lt in *;
  repeat match goal with
         | |- context [Binary64.key ?a] =>
             let k := fresh "k" in
             set (k := Binary64.key a) in *; clearbody k; destruct k as [[? ?] ?]
         | H : context [Binary64.key ?a] |- _ =>
             let k := fresh "k" in
             set (k := Binary64.key a) in *; clearbody k; destruct k as [[? ?] ?]
         end;
  lia.

Lemma f64_leb_trans (x y z : float) :
  (x <=? y) = true -> (y <=? z) = true -> (x <=? z) = true.
Proof. intros H1 H2. key_order. Qed.

Lemma f64_ltb_leb_trans (x y z : float) :
  (x <? y) = true -> (y <=? z) = true -> (x <? z) = true.
Proof. intros H1 H2. key_order. Qed.

Lemma f64_leb_ltb_trans (x y z : float) :
  (x <=? y) = true -> (y <? z) = true -> (x <? z) = true.
Proof. intros H1 H2. key_order. Qed.

Lemma f64_ltb_trans (x y z : float) :
  (x <? y) = true -> (y <? z) = true -> (x <? z) = true.
Proof. intros H1 H2. key_order. Qed.

Lemma IsNaN_eq (x : float) : Binary64.IsNaN x = true -> x = nan.
Proof.
  intros H. apply IsNaN_true in H. apply Prim2SF_inj. rewrite H. reflexivity.
Qed.

Lemma f64_leb_antisym (x y : float) :
  (x <=? y) = true -> (y <=? x) = true -> (x =? y) = true.
Proof.
  rewrite !leb_spec, eqb_spec. unfold SFleb, SFeqb.
  rewrite (SFcompare_antisym (Prim2SF x) (Prim2SF y)).
  destruct (SFcompare _ _) as [[]|]; simpl; congruence.
Qed.

Lemma f64_leb_cases (x y : float) :
  (x <=? y) = true -> (x <? y) = true \/ (x =? y) = true.
Proof.
  rewrite leb_spec, ltb_spec, eqb_spec. unfold SFleb, SFltb, SFeqb.
  destruct (SFcompare _ _) as [[]|]; auto.
Qed.

(** Floats that compare equal are the same float, or are the two zeros. *)
Lemma f64_eqb_eq_or_zero (x y : float) :
  (x =? y) = true -> x = y \/ ((x =? 0) = true /\ (y =? 0) = true).
Proof.
  rewrite !eqb_spec. change (Prim2SF 0) with (S754_zero false).
  unfold SFeqb. intros H.
  destruct (Prim2SF x) as [sx|sx| |sx mx ex] eqn:Ex,
           (Prim2SF y) as [sy|sy| |sy my ey] eqn:Ey; simpl in H;
    try discriminate; try (right; split; reflexivity);
    try (destruct sx; discriminate); try (destruct sy; discriminate).
  - left. apply Prim2SF_inj. rewrite Ex, Ey.
    destruct sx, sy; try discriminate; reflexivity.
  - left. apply Prim2SF_inj. rewrite Ex, Ey.
    destruct sx, sy; try discriminate;
      destruct (ex ?= ey)%Z eqn:Ee; try discriminate;
      apply Z.compare_eq in Ee; subst ey;
      destruct (Pos.compare_cont Eq mx my) eqn:Em; try discriminate;
      apply Pos.compare_eq in Em; subst my; reflexivity.
Qed.

Lemma f64_eqb_compare_l (x y z : float) :
  (x =? y) = true ->
  SFcompare (Prim2SF x) (Prim2SF z) = SFcompare (Prim2SF y) (Prim2SF z).
Proof.
  intros H. destruct (f64_eqb_eq_or_zero x y H) as [->|[Hx Hy]]; [reflexivity|].
  apply f64_eqb_zero in Hx, Hy.
  destruct Hx as [->| ->], Hy as [->| ->];
    change (Prim2SF 0) with (S754_zero false);
    change (Prim2SF (-0)) with (S754_zero true);
    destruct (Prim2SF z); reflexivity.
Qed.

Lemma f64_eqb_compare_r (x y z : float) :
  (x =? y) = true ->
  SFcompare (Prim2SF z) (Prim2SF x) = SFcompare (Prim2SF z) (Prim2SF y).
Proof.
  intros H.
  rewrite (SFcompare_antisym (Prim2SF x) (Prim2SF z)),
          (SFcompare_antisym (Prim2SF y) (Prim2SF z)).
  now rewrite (f64_eqb_compare_l x y z H).
Qed.

Lemma f64_eqb_refl (x : float) : Binary64.IsNaN x = false -> (x =? x) = true.
Proof. unfold Binary64.IsNaN. now destruct (x =? x). Qed.

Lemma IsInf_pos (x : float) : Binary64.IsInf x 1 = (x =? infinity).
Proof. unfold Binary64.IsInf. simpl. apply orb_false_r. Qed.

Lemma IsInf_neg (x : float) : Binary64.IsInf x (-1) = (x =? neg_infinity).
Proof. unfold Binary64.IsInf. reflexivity. Qed.

Lemma f64_infinity_ltb (x : float) : (infinity <? x) = false.
Proof.
  rewrite ltb_spec. change (Prim2SF infinity) with (S754_infinity false).
  unfold SFltb. destruct (Prim2SF x) as [s|[]| |s m e]; reflexivity.
Qed.

Lemma f64_ltb_neg_infinity (x : float) : (x <? neg_infinity) = false.
Proof.
  rewrite ltb_spec. change (Prim2SF neg_infinity) with (S754_infinity true).
  unfold SFltb. destruct (Prim2SF x) as [s|[]| |s m e]; reflexivity.
Qed.

(** [Max] on two numbers is one of them and is at least both. *)
Lemma Max_cases (x y : float) :
  Binary64.IsNaN x = false -> Binary64.IsNaN y = false ->
  (Binary64.Max x y = x \/ Binary64.Max x y = y) /\
  (x <=? Binary64.Max x y) = true /\ (y <=? Binary64.Max x y) = true.
Proof.
  intros Hx Hy. unfold Binary64.Max. rewrite !IsInf_pos, Hx, Hy.
  destruct (x =? infinity) eqn:Exi.
  { apply f64_eqb_infinity in Exi. subst x. cbn [orb].
    split; [now left|]. split; [now apply f64_leb_refl|now apply f64_leb_infinity]. }
  destruct (y =? infinity) eqn:Eyi.
  { apply f64_eqb_infinity in Eyi. subst y. cbn [orb].
    split; [now right|]. split; [now apply f64_leb_infinity|now apply f64_leb_refl]. }
  cbn [orb].
  destruct ((x =? 0) && (x =? y)) eqn:Ez.
  { apply andb_true_iff in Ez. destruct Ez as [_ Exy].
    destruct (Binary64.Signbit x).
    - split; [now right|]. split; [now apply f64_eqb_leb|now apply f64_leb_refl].
    - split; [now left|]. split; [now apply f64_leb_refl|].
      apply f64_eqb_leb. now rewrite f64_eqb_sym. }
  destruct (y <? x) eqn:El.
  - split; [now left|]. split; [now apply f64_leb_refl|now apply f64_ltb_leb].
  - split; [now right|]. split; [now apply f64_ltb_false_leb|now apply f64_leb_refl].
Qed.

(** [Min] on two numbers is one of them and is at most both. *)
Lemma Min_cases (x y : float) :
  Binary64.IsNaN x = false -> Binary64.IsNaN y = false ->
  (Binary64.Min x y = x \/ Binary64.Min x y = y) /\
  (Binary64.Min x y <=? x) = true /\ (Binary64.Min x y <=? y) = true.
Proof.
  intros Hx Hy. unfold Binary64.Min. rewrite !IsInf_neg, Hx, Hy.
  destruct (x =? neg_infinity) eqn:Exi.
  { apply f64_eqb_neg_infinity in Exi. subst x. cbn [orb].
    split; [now left|]. split; [now apply f64_leb_refl|now apply f64_neg_infinity_leb]. }
  destruct (y =? neg_infinity) eqn:Eyi.
  { apply f64_eqb_neg_infinity in Eyi. subst y. cbn [orb].
    split; [now right|]. split; [now apply f64_neg_infinity_leb|now apply f64_leb_refl]. }
  cbn [orb].
  destruct ((x =? 0) && (x =? y)) eqn:Ez.
  { apply andb_true_iff in Ez. destruct Ez as [_ Exy].
    destruct (Binary64.Signbit x).
    - split; [now left|]. split; [now apply f64_leb_refl|now apply f64_eqb_leb].
    - split; [now right|]. split; [|now apply f64_leb_refl].
      apply f64_eqb_leb. now rewrite f64_eqb_sym. }
  destruct (x <? y) eqn:El.
  - split; [now left|]. split; [now apply f64_leb_refl|now apply f64_ltb_leb].
  - split; [now right|]. split; [now apply f64_ltb_false_leb|now apply f64_leb_refl].
Qed.

Lemma Max_left (x y : float) : (y <? x) = true -> Binary64.Max x y = x.
Proof.
  intros H. destruct (f64_ltb_IsNaN _ _ H) as [Hy Hx].
  unfold Binary64.Max. rewrite !IsInf_pos, Hx, Hy.
  destruct (x =? infinity) eqn:Exi.
  { apply f64_eqb_infinity in Exi. now subst x. }
  destruct (y =? infinity) eqn:Eyi.
  { apply f64_eqb_infinity in Eyi. subst y. now rewrite f64_infinity_ltb in H. }
  cbn [orb]. rewrite (f64_eqb_sym x y), (f64_ltb_not_eqb _ _ H), andb_false_r.
  now rewrite H.
Qed.

Lemma Max_right (x y : float) : (x <? y) = true -> Binary64.Max x y = y.
Proof.
  intros H. destruct (f64_ltb_IsNaN _ _ H) as [Hx Hy].
  unfold Binary64.Max. rewrite !IsInf_pos, Hx, Hy.
  destruct (x =? infinity) eqn:Exi.
  { apply f64_eqb_infinity in Exi. subst x. now rewrite f64_infinity_ltb in H. }
  destruct (y =? infinity) eqn:Eyi.
  { apply f64_eqb_infinity in Eyi. now subst y. }
  cbn [orb]. rewrite (f64_ltb_not_eqb _ _ H), andb_false_r.
  now rewrite (f64_ltb_asym _ _ H).
Qed.

Lemma Min_left (x y : float) : (x <? y) = true -> Binary64.Min x y = x.
Proof.
  intros H. destruct (f64_ltb_IsNaN _ _ H) as [Hx Hy].
  unfold Binary64.Min. rewrite !IsInf_neg, Hx, Hy.
  destruct (x =? neg_infinity) eqn:Exi.
  { apply f64_eqb_neg_infinity in Exi. now subst x. }
  destruct (y =? neg_infinity) eqn:Eyi.
  { apply f64_eqb_neg_infinity in Eyi. subst y. now rewrite f64_ltb_neg_infinity in H. }
  cbn [orb]. rewrite (f64_ltb_not_eqb _ _ H), andb_false_r.
  now rewrite H.
Qed.

Lemma Min_right (x y : float) : (y <? x) = true -> Binary64.Min x y = y.
Proof.
  intros H. destruct (f64_ltb_IsNaN _ _ H) as [Hy Hx].
  unfold Binary64.Min. rewrite !IsInf_neg, Hx, Hy.
  destruct (x =? neg_infinity) eqn:Exi.
  { apply f64_eqb_neg_infinity in Exi. subst x. now rewrite f64_ltb_neg_infinity in H. }
  destruct (y =? neg_infinity) eqn:Eyi.
  { apply f64_eqb_neg_infinity in Eyi. now subst y. }
  cbn [orb]. rewrite (f64_eqb_sym x y), (f64_ltb_not_eqb _ _ H), andb_false_r.
  now rewrite (f64_ltb_asym _ _ H).
Qed.

(** [math.Max(0, y)], the clamp of the thrust: 0 for a negative or zero y,
    y itself for a positive one, NaN for NaN. *)
Lemma Max_zero (y : float) :
  ((y <? 0) = true -> Binary64.Max 0 y = 0) /\
  ((y =? 0) = true -> Binary64.Max 0 y = 0) /\
  ((0 <? y) = true -> Binary64.Max 0 y = y) /\
  (Binary64.IsNaN y = true -> Binary64.Max 0 y = nan).
Proof.
  split; [|split; [|split]].
  - apply Max_left.
  - intros H. apply f64_eqb_zero in H. destruct H as [->| ->]; reflexivity.
  - apply Max_right.
  - intros H. apply IsNaN_eq in H. subst y. reflexivity.
Qed.

(** Every float is NaN, below zero, equal to zero or above zero. *)
Lemma float_sign_cases (y : float) :
  Binary64.IsNaN y = true \/ (y <? 0) = true \/ (y =? 0) = true \/
  (0 <? y) = true.
Proof.
  destruct (Binary64.IsNaN y) eqn:Hn; [now left|right].
  destruct (y <? 0) eqn:Hl; [now left|right].
  assert (H : (0 <=? y) = true) by (apply f64_ltb_false_leb; auto).
  apply f64_leb_cases in H. destruct H as [H|H]; [now right|left].
  now rewrite f64_eqb_sym.
Qed.


Lemma shr_1_nonneg (mrs : shr_record) :
  (0 <= shr_m mrs)%Z -> (0 <= shr_m (shr_1 mrs))%Z.
Proof.
  destruct mrs as [[|[p|p|]|p] r s]; simpl; lia.
Qed.

Lemma iter_shr_1_nonneg (p : positive) (mrs : shr_record) :
  (0 <= shr_m mrs)%Z -> (0 <= shr_m (iter_pos shr_1 p mrs))%Z.
Proof.
  revert mrs. induction p as [p IH|p IH|]; intros mrs H; simpl.
  - apply IH, IH. now apply shr_1_nonneg.
  - now apply IH, IH.
  - now apply shr_1_nonneg.
Qed.

Lemma shr_fexp_nonneg (m e : Z) (l : location) :
  (0 <= m)%Z -> (0 <= shr_m (fst (shr_fexp prec emax m e l)))%Z.
Proof.
  intros H. unfold shr_fexp, shr.
  assert (H0 : (0 <= shr_m (shr_record_of_loc m l))%Z)
    by (destruct l as [|[]]; exact H).
  destruct (_ - _)%Z; simpl; auto.
  now apply iter_shr_1_nonneg.
Qed.

(** Rounding a non-negative significand gives a zero, a number or an
    infinity of the sign asked for, never NaN. *)
Lemma binary_round_aux_sign (s : bool) (mx ex : Z) (lx : location) :
  (0 <= mx)%Z ->
  match binary_round_aux prec emax s mx ex lx with
  | S754_zero s' | S754_infinity s' | S754_finite s' _ _ => s' = s
  | S754_nan => False
  end.
Proof.
  intros H. unfold binary_round_aux.
  pose proof (shr_fexp_nonneg mx ex lx H) as H1.
  destruct (shr_fexp prec emax mx ex lx) as [mrs' e']. simpl in H1.
  assert (H2 : (0 <= round_nearest_even (shr_m mrs') (loc_of_shr_record mrs'))%Z).
  { unfold round_nearest_even.
    destruct (loc_of_shr_record mrs') as [|[]]; try lia.
    destruct (Z.even _); lia. }
  pose proof (shr_fexp_nonneg _ e' loc_Exact H2) as H3.
  destruct (shr_fexp prec emax _ e' loc_Exact) as [mrs'' e'']. simpl in H3.
  destruct (shr_m mrs'') as [|p|p].
  - reflexivity.
  - destruct (Z.leb _ _); reflexivity.
  - lia.
Qed.

Lemma binary_round_aux_nonneg (mx ex : Z) (lx : location) :
  (0 <= mx)%Z ->
  Binary64.nonnegative (binary_round_aux prec emax false mx ex lx).
Proof.
  intros H. pose proof (binary_round_aux_sign false mx ex lx H) as Hs.
  destruct (binary_round_aux _ _ _ _ _ _); try subst; simpl; auto.
Qed.

Lemma binary_round_nonneg (m : positive) (e : Z) :
  Binary64.nonnegative (binary_round prec emax false m e).
Proof.
  unfold binary_round. destruct (shl_align _ _ _) as [mz ez].
  apply binary_round_aux_nonneg. lia.
Qed.

Lemma SFdiv_core_nonneg (m1 m2 : positive) (e1 e2 : Z) :
  (0 <= fst (fst (SFdiv_core_binary prec emax (Z.pos m1) e1 (Z.pos m2) e2)))%Z.
Proof.
  unfold SFdiv_core_binary.
  set (m' := match _ with Zpos _ => _ | Z0 => _ | Zneg _ => _ end).
  assert (Hm : (0 <= m')%Z).
  { unfold m'. destruct (_ - _ - _)%Z; try lia. apply Z.shiftl_nonneg. lia. }
  clearbody m'.
  pose proof (Z.div_eucl_eq m' (Z.pos m2) ltac:(lia)) as Hd.
  pose proof (Z.mod_pos_bound m' (Z.pos m2) ltac:(lia)) as Hr.
  unfold Z.modulo in Hr.
  destruct (Z.div_eucl m' (Z.pos m2)) as [q r]. simpl. nia.
Qed.

Lemma SFdiv_nonneg (mx my : positive) (ex ey : Z) :
  Binary64.nonnegative
    (SFdiv prec emax (S754_finite false mx ex) (S754_finite false my ey)).
Proof.
  unfold SFdiv.
  pose proof (SFdiv_core_nonneg mx my ex ey) as H.
  destruct (SFdiv_core_binary prec emax (Z.pos mx) ex (Z.pos my) ey)
    as [[mz ez] lz]. simpl in H.
  now apply binary_round_aux_nonneg.
Qed.

Lemma SFsqrt_nonneg (x : spec_float) :
  Binary64.nonnegative x -> Binary64.nonnegative (SFsqrt prec emax x).
Proof.
  destruct x as [s|[]| |[] m e]; simpl; try tauto.
  intros _.
  destruct (SFsqrt_core_binary prec emax (Z.pos m) e) as [[mz ez] lz] eqn:E.
  apply binary_round_aux_nonneg.
  unfold SFsqrt_core_binary in E.
  set (m' := match _ with Zpos _ => _ | Z0 => _ | Zneg _ => _ end) in E.
  assert (Hm : (0 <= m')%Z).
  { unfold m'. destruct (_ - _)%Z; try lia. apply Z.shiftl_nonneg. lia. }
  clearbody m'.
  pose proof (Z.sqrtrem_spec m' Hm) as Hs.
  destruct (Z.sqrtrem m') as [q r]. injection E as <- _ _. lia.
Qed.

Lemma f64_nonnegative_leb (x : float) :
  Binary64.nonnegative (Prim2SF x) -> (0 <=? x) = true.
Proof.
  rewrite leb_spec. change (Prim2SF 0) with (S754_zero false).
  unfold SFleb. destruct (Prim2SF x) as [s|[]| |[] m e]; simpl; tauto.
Qed.

Lemma f64_ltb_zero_positive (x : float) :
  (0 <? x) = true ->
  Prim2SF x = S754_infinity false \/
  exists m e, Prim2SF x = S754_finite false m e.
Proof.
  rewrite ltb_spec. change (Prim2SF 0) with (S754_zero false).
  unfold SFltb. destruct (Prim2SF x) as [s|[]| |[] m e]; simpl;
    try discriminate; eauto.
Qed.

(** The induced velocity of a positive thrust is a number, not negative. *)
Lemma Sqrt_div_half_nonneg (x : float) :
  (0 <? x) = true -> (0 <=? Binary64.Sqrt (x / 0.5)) = true.
Proof.
  intros H. apply f64_nonnegative_leb. unfold Binary64.Sqrt.
  rewrite sqrt_spec, div_spec. apply SFsqrt_nonneg.
  change (Prim2SF 0.5) with (S754_finite false 4503599627370496 (-53)).
  destruct (f64_ltb_zero_positive x H) as [->|(m & e & ->)].
  - exact I.
  - apply SFdiv_nonneg.
Qed.

Lemma finite_spec (x : float) :
  Binary64.finite x = true -> Binary64.zero_or_finite (Prim2SF x).
Proof.
  unfold Binary64.finite, Binary64.IsInf, Binary64.IsNaN.
  rewrite !eqb_spec.
  change (Prim2SF infinity) with (S754_infinity false).
  change (Prim2SF neg_infinity) with (S754_infinity true).
  unfold SFeqb.
  destruct (Prim2SF x) as [s|[]| |s m e]; simpl; try discriminate; auto.
Qed.

Lemma SFmul_self_nonneg (x : spec_float) :
  Binary64.zero_or_finite x -> Binary64.nonnegative (SFmul prec emax x x).
Proof.
  destruct x as [s|s| |s m e]; simpl; try tauto; intros _.
  pose proof (binary_round_aux_sign (xorb s s) (Z.pos (m * m)) (e + e)
                loc_Exact ltac:(lia)) as H.
  rewrite xorb_nilpotent in *.
  destruct (binary_round_aux _ _ _ _ _ _); try subst; simpl; auto.
Qed.

Lemma SFadd_nonneg (a b : spec_float) :
  Binary64.nonnegative a -> Binary64.nonnegative b ->
  Binary64.nonnegative (SFadd prec emax a b).
Proof.
  destruct a as [sa|[]| |[] ma ea], b as [sb|[]| |[] mb eb]; simpl;
    try tauto; intros _ _.
  - destruct sa, sb; exact I.
  - unfold binary_normalize. simpl. apply binary_round_nonneg.
Qed.

Lemma SFdiv_not_nan (x d : spec_float) :
  Binary64.zero_or_finite x -> Binary64.nonnegative d ->
  SFeqb d (S754_zero false) = false ->
  SFdiv prec emax x d <> S754_nan.
Proof.
  destruct x as [sx|sx| |sx mx ex], d as [sd|[]| |[] md ed]; simpl;
    try tauto; try discriminate; intros _ _ _.
  pose proof (SFdiv_core_nonneg mx md ex ed) as H.
  destruct (SFdiv_core_binary prec emax (Z.pos mx) ex (Z.pos md) ed)
    as [[mz ez] lz]. simpl in H.
  pose proof (binary_round_aux_sign (xorb sx false) mz ez lz H) as Hs.
  destruct (binary_round_aux _ _ _ _ _ _); try discriminate. contradiction.
Qed.

(** The square root of a sum of squares of finite numbers is a number,
    not negative (it can be +Inf). *)
Lemma sum_of_squares3_nonneg (x y z : float) :
  Binary64.finite x = true -> Binary64.finite y = true ->
  Binary64.finite z = true ->
  Binary64.nonnegative (Prim2SF (Binary64.Sqrt (x * x + y * y + z * z))).
Proof.
  intros Hx Hy Hz. unfold Binary64.Sqrt.
  rewrite sqrt_spec, !add_spec, !mul_spec.
  apply SFsqrt_nonneg. repeat apply SFadd_nonneg;
    apply SFmul_self_nonneg; now apply finite_spec.
Qed.

Lemma sum_of_squares4_nonneg (w x y z : float) :
  Binary64.finite w = true -> Binary64.finite x = true ->
  Binary64.finite y = true -> Binary64.finite z = true ->
  Binary64.nonnegative
    (Prim2SF (Binary64.Sqrt (w * w + x * x + y * y + z * z))).
Proof.
  intros Hw Hx Hy Hz. unfold Binary64.Sqrt.
  rewrite sqrt_spec, !add_spec, !mul_spec.
  apply SFsqrt_nonneg. repeat apply SFadd_nonneg;
    apply SFmul_self_nonneg; now apply finite_spec.
Qed.

(** A finite number divided by a norm that is not zero is a number. *)
Lemma div_by_norm_not_NaN (x n : float) :
  Binary64.finite x = true -> Binary64.nonnegative (Prim2SF n) ->
  (n =? 0) = false -> Binary64.IsNaN (x / n) = false.
Proof.
  intros Hx Hn Hz. apply IsNaN_false. rewrite div_spec.
  apply SFdiv_not_nan; [now apply finite_spec|exact Hn|].
  rewrite eqb_spec in Hz. exact Hz.
Qed.

(** On finite components the normalisations return numbers. *)
Lemma Binary64_Vector3_Normalize_not_NaN (v : Binary64.Vector3.t) :
  Binary64.finite (Binary64.Vector3.X v) = true ->
  Binary64.finite (Binary64.Vector3.Y v) = true ->
  Binary64.finite (Binary64.Vector3.Z v) = true ->
  let r := Binary64.Vector3.Normalize v in
  Binary64.IsNaN (Binary64.Vector3.X r) = false /\
  Binary64.IsNaN (Binary64.Vector3.Y r) = false /\
  Binary64.IsNaN (Binary64.Vector3.Z r) = false.
Proof.
  intros Hx Hy Hz. cbv zeta.
  pose proof (sum_of_squares3_nonneg _ _ _ Hx Hy Hz) as Hn.
  unfold Binary64.Vector3.Normalize, Binary64.Vector3.Magnitude.
  destruct (_ =? 0) eqn:E; cbn [Binary64.Vector3.X Binary64.Vector3.Y Binary64.Vector3.Z].
  - repeat split; reflexivity.
  - repeat split; now apply div_by_norm_not_NaN.
Qed.

Lemma Binary64_Quaternion_Normalize_not_NaN (q : Binary64.Quaternion.t) :
  Binary64.finite (Binary64.Quaternion.W q) = true ->
  Binary64.finite (Binary64.Quaternion.X q) = true ->
  Binary64.finite (Binary64.Quaternion.Y q) = true ->
  Binary64.finite (Binary64.Quaternion.Z q) = true ->
  let r := Binary64.Quaternion.Normalize q in
  Binary64.IsNaN (Binary64.Quaternion.W r) = false /\
  Binary64.IsNaN (Binary64.Quaternion.X r) = false /\
  Binary64.IsNaN (Binary64.Quaternion.Y r) = false /\
  Binary64.IsNaN (Binary64.Quaternion.Z r) = false.
Proof.
  intros Hw Hx Hy Hz. cbv zeta.
  pose proof (sum_of_squares4_nonneg _ _ _ _ Hw Hx Hy Hz) as Hn.
  unfold Binary64.Quaternion.Normalize.
  destruct (_ =? 0) eqn:E;
    cbn [Binary64.Quaternion.W Binary64.Quaternion.X Binary64.Quaternion.Y
         Binary64.Quaternion.Z].
  - repeat split; reflexivity.
  - repeat split; now apply div_by_norm_not_NaN.
Qed.

End Binary64Facts.

(** *** Normalisation *)

Lemma sum_sq3_nonneg (a b c : R) : 0 <= a * a + b * b + c * c.
Proof. nra. Qed.

Lemma sum_sq4_nonneg (a b c d : R) : 0 <= a * a + b * b + c * c + d * d.
Proof. nra. Qed.

Lemma Vector3_Magnitude_zero_iff (v : Vector3.t) :
  Vector3.Magnitude v = 0 <-> v = Vector3.mk 0 0 0.
Proof.
  destruct v as [x y z]; unfold Vector3.Magnitude; simpl; split.
  - intros H. apply sqrt_eq_0 in H; [|apply sum_sq3_nonneg].
    assert (x = 0) by nra. assert (y = 0) by nra. assert (z = 0) by nra.
    congruence.
  - intros H; injection H as -> -> ->.
    replace (0 * 0 + 0 * 0 + 0 * 0) with 0 by ring. apply sqrt_0.
Qed.

Lemma Quaternion_norm_zero_iff (q : Quaternion.t) :
  Quaternion.norm q = 0 <-> q = Quaternion.mk 0 0 0 0.
Proof.
  destruct q as [w x y z]; unfold Quaternion.norm; simpl; split.
  - intros H. apply sqrt_eq_0 in H; [|apply sum_sq4_nonneg].
    assert (w = 0) by nra. assert (x = 0) by nra.
    assert (y = 0) by nra. assert (z = 0) by nra. congruence.
  - intros H; injection H as -> -> -> ->.
    replace (0 * 0 + 0 * 0 + 0 * 0 + 0 * 0) with 0 by ring. apply sqrt_0.
Qed.

Section Binary64Normalize.
Import PrimFloat.

(** C10, as the specification states it, fails on binary64.  The vector
    (1e-200, 0, 0) is not the zero vector, yet its squares underflow, the
    computed magnitude is 0, the guard fires and [Normalize] returns the
    zero vector, not the input scaled by the reciprocal of its norm; the
    squares of the quaternion (1e200, 0, 0, 0) overflow, the computed norm
    is +Inf and [Normalize] returns the zero quaternion. *)
Lemma Normalize_guard_misfires :
  (Binary64.Vector3.X Binary64.Examples.tiny =? 0)%float = false /\
  Binary64.Vector3.Magnitude Binary64.Examples.tiny = 0%float /\
  Binary64.Vector3.Normalize Binary64.Examples.tiny = Binary64.Vector3.mk 0%float 0%float 0%float /\
  Binary64.Quaternion.norm Binary64.Examples.huge = infinity /\
  Binary64.Quaternion.Normalize Binary64.Examples.huge
  = Binary64.Quaternion.mk 0%float 0%float 0%float 0%float.
Proof. vm_compute. repeat split. Qed.

Lemma Binary64_Normalize_zero_vector (x y z : float) :
  (x =? 0)%float = true -> (y =? 0)%float = true -> (z =? 0)%float = true ->
  Binary64.Vector3.Normalize (Binary64.Vector3.mk x y z)
  = Binary64.Vector3.mk 0%float 0%float 0%float.
Proof.
  intros Hx Hy Hz. apply f64_eqb_zero in Hx, Hy, Hz.
  destruct Hx as [->| ->], Hy as [->| ->], Hz as [->| ->]; reflexivity.
Qed.

Lemma Binary64_Normalize_zero_quaternion (w x y z : float) :
  (w =? 0)%float = true -> (x =? 0)%float = true -> (y =? 0)%float = true -> (z =? 0)%float = true ->
  Binary64.Quaternion.Normalize (Binary64.Quaternion.mk w x y z)
  = Binary64.Quaternion.mk 1%float 0%float 0%float 0%float.
Proof.
  intros Hw Hx Hy Hz. apply f64_eqb_zero in Hw, Hx, Hy, Hz.
  destruct Hw as [->| ->], Hx as [->| ->], Hy as [->| ->], Hz as [->| ->];
    reflexivity.
Qed.

(** C10, amended.  On binary64, [Vector3.Normalize] returns the zero
    vector and [Quaternion.Normalize] the identity exactly when the norm
    they compute is 0, and otherwise divide every component by that norm,
    so neither divides by zero; the zero vector and the zero quaternion,
    with either sign of their zeros, are such inputs, and on every input
    whose components are finite no component of the result is NaN.  In
    exact arithmetic the computed norm is 0 for the zero vector or
    quaternion only, and every other input is returned scaled by the
    reciprocal of its norm. *)
Theorem Normalize_guarded :
  (forall x y z : Binary64.float64,
      (x =? 0)%float = true -> (y =? 0)%float = true -> (z =? 0)%float = true ->
      Binary64.Vector3.Normalize (Binary64.Vector3.mk x y z)
      = Binary64.Vector3.mk 0%float 0%float 0%float) /\
  (forall w x y z : Binary64.float64,
      (w =? 0)%float = true -> (x =? 0)%float = true -> (y =? 0)%float = true ->
      (z =? 0)%float = true ->
      Binary64.Quaternion.Normalize (Binary64.Quaternion.mk w x y z)
      = Binary64.Quaternion.mk 1%float 0%float 0%float 0%float) /\
  (forall v : Binary64.Vector3.t,
      let mag := Binary64.Vector3.Magnitude v in
      ((mag =? 0)%float = true ->
       Binary64.Vector3.Normalize v = Binary64.Vector3.mk 0%float 0%float 0%float) /\
      ((mag =? 0)%float = false ->
       Binary64.Vector3.Normalize v =
       Binary64.Vector3.mk (Binary64.Vector3.X v / mag)%float
                           (Binary64.Vector3.Y v / mag)%float
                           (Binary64.Vector3.Z v / mag)%float)) /\
  (forall q : Binary64.Quaternion.t,
      let norm := Binary64.Quaternion.norm q in
      ((norm =? 0)%float = true ->
       Binary64.Quaternion.Normalize q = Binary64.Quaternion.mk 1%float 0%float 0%float 0%float) /\
      ((norm =? 0)%float = false ->
       Binary64.Quaternion.Normalize q =
       Binary64.Quaternion.mk (Binary64.Quaternion.W q / norm)%float
                              (Binary64.Quaternion.X q / norm)%float
                              (Binary64.Quaternion.Y q / norm)%float
                              (Binary64.Quaternion.Z q / norm)%float)) /\
  (forall v : Binary64.Vector3.t,
      Binary64.finite (Binary64.Vector3.X v) = true ->
      Binary64.finite (Binary64.Vector3.Y v) = true ->
      Binary64.finite (Binary64.Vector3.Z v) = true ->
      let r := Binary64.Vector3.Normalize v in
      Binary64.IsNaN (Binary64.Vector3.X r) = false /\
      Binary64.IsNaN (Binary64.Vector3.Y r) = false /\
      Binary64.IsNaN (Binary64.Vector3.Z r) = false) /\
  (forall q : Binary64.Quaternion.t,
      Binary64.finite (Binary64.Quaternion.W q) = true ->
      Binary64.finite (Binary64.Quaternion.X q) = true ->
      Binary64.finite (Binary64.Quaternion.Y q) = true ->
      Binary64.finite (Binary64.Quaternion.Z q) = true ->
      let r := Binary64.Quaternion.Normalize q in
      Binary64.IsNaN (Binary64.Quaternion.W r) = false /\
      Binary64.IsNaN (Binary64.Quaternion.X r) = false /\
      Binary64.IsNaN (Binary64.Quaternion.Y r) = false /\
      Binary64.IsNaN (Binary64.Quaternion.Z r) = false) /\
  Vector3.Normalize (Vector3.mk 0 0 0) = Vector3.mk 0 0 0 /\
  Quaternion.Normalize (Quaternion.mk 0 0 0 0) = Quaternion.mk 1 0 0 0 /\
  (forall v : Vector3.t,
      v <> Vector3.mk 0 0 0 ->
      Vector3.Magnitude v <> 0 /\
      Vector3.Normalize v = Vector3.Scale v (/ Vector3.Magnitude v)) /\
  (forall q : Quaternion.t,
      q <> Quaternion.mk 0 0 0 0 ->
      Quaternion.norm q <> 0 /\
      Quaternion.Normalize q = Quaternion.Scale q (/ Quaternion.norm q)).
Proof.
  split; [exact Binary64_Normalize_zero_vector|].
  split; [exact Binary64_Normalize_zero_quaternion|].
  split.
  { intros v mag. unfold Binary64.Vector3.Normalize. fold mag.
    split; intros ->; reflexivity. }
  split.
  { intros q norm. unfold Binary64.Quaternion.Normalize.
    fold (Binary64.Quaternion.norm q). fold norm.
    split; intros ->; reflexivity. }
  split; [exact Binary64_Vector3_Normalize_not_NaN|].
  split; [exact Binary64_Quaternion_Normalize_not_NaN|].
  split; [|split; [|split]].
  - unfold Vector3.Normalize.
    destruct (Req_dec_T _ 0) as [_|n]; [reflexivity|].
    exfalso; apply n. now apply Vector3_Magnitude_zero_iff.
  - unfold Quaternion.Normalize.
    destruct (Req_dec_T _ 0) as [_|n]; [reflexivity|].
    exfalso; apply n.
    now apply (Quaternion_norm_zero_iff (Quaternion.mk 0 0 0 0)).
  - intros v Hv.
    assert (Hm : Vector3.Magnitude v <> 0)
      by (intros e; now apply Vector3_Magnitude_zero_iff in e).
    split; [exact Hm|].
    unfold Vector3.Normalize, Vector3.Scale.
    destruct (Req_dec_T _ 0) as [e|_]; [contradiction|reflexivity].
  - intros q Hq.
    assert (Hn : Quaternion.norm q <> 0)
      by (intros e; now apply Quaternion_norm_zero_iff in e).
    split; [exact Hn|].
    unfold Quaternion.Normalize, Quaternion.Scale.
    fold (Quaternion.norm q).
    destruct (Req_dec_T _ 0) as [e|_]; [contradiction|reflexivity].
Qed.

End Binary64Normalize.

(** *** Integrators *)

Lemma Quaternion_Normalize_norm (q : Quaternion.t) :
  Quaternion.norm (Quaternion.Normalize q) = 1.
Proof.
  unfold Quaternion.Normalize.
  destruct (Req_dec_T _ 0) as [e|n].
  - unfold Quaternion.norm; simpl.
    replace (1 * 1 + 0 * 0 + 0 * 0 + 0 * 0) with 1 by ring. apply sqrt_1.
  - destruct q as [w x y z]; unfold Quaternion.norm; simpl in *.
    set (s := w * w + x * x + y * y + z * z) in *.
    assert (Hs : 0 <= s) by apply sum_sq4_nonneg.
    assert (Hq : sqrt s * sqrt s = s) by now apply sqrt_sqrt.
    replace (w / sqrt s * (w / sqrt s) + x / sqrt s * (x / sqrt s) +
             y / sqrt s * (y / sqrt s) + z / sqrt s * (z / sqrt s))
      with (s / (sqrt s * sqrt s)) by (unfold s; field; exact n).
    rewrite Hq. replace (s / s) with 1; [apply sqrt_1|].
    field. intros e; apply n. rewrite e; apply sqrt_0.
Qed.

Lemma Quaternion_Normalize_renormalized (u : Quaternion.t) :
  renormalized u (Quaternion.Normalize u) /\
  Rabs (Quaternion.norm (Quaternion.Normalize u) - 1) <= 1e-6.
Proof.
  split; [split; [|split]|].
  - intros ->. unfold Quaternion.Normalize.
    destruct (Req_dec_T _ 0) as [_|n]; [reflexivity|].
    exfalso; apply n.
    now apply (Quaternion_norm_zero_iff (Quaternion.mk 0 0 0 0)).
  - intros Hu.
    assert (Hn : Quaternion.norm u <> 0)
      by (intros e; now apply Quaternion_norm_zero_iff in e).
    unfold Quaternion.Normalize, Quaternion.Scale.
    fold (Quaternion.norm u).
    destruct (Req_dec_T _ 0) as [e|_]; [contradiction|reflexivity].
  - apply Quaternion_Normalize_norm.
  - rewrite Quaternion_Normalize_norm.
    replace (1 - 1) with 0 by ring. rewrite Rabs_R0. lra.
Qed.

(** The refresh of atmosphere and derived parameters leaves the integrated
    quantities alone. *)
Section Refresh.
Variable s : AircraftState.t.
Let s' := AircraftState.UpdateDerivedParameters
            (AircraftState.UpdateAtmosphere s).

Lemma refresh_Time : AircraftState.Time s' = AircraftState.Time s.
Proof. reflexivity. Qed.

Lemma refresh_Position :
  AircraftState.Position s' = AircraftState.Position s.
Proof. reflexivity. Qed.

Lemma refresh_Orientation :
  AircraftState.Orientation s' = AircraftState.Orientation s.
Proof. reflexivity. Qed.

Lemma refresh_Velocity :
  AircraftState.Velocity s' = AircraftState.Velocity s.
Proof. reflexivity. Qed.

Lemma refresh_AngularRate :
  AircraftState.AngularRate s' = AircraftState.AngularRate s.
Proof. reflexivity. Qed.

Lemma refresh_Altitude :
  AircraftState.Altitude s' = AircraftState.Altitude s.
Proof. reflexivity. Qed.
End Refresh.

Create Rewrite HintDb refresh.
#[local] Hint Rewrite refresh_Time refresh_Position refresh_Orientation
  refresh_Velocity refresh_AngularRate refresh_Altitude : refresh.

Lemma Euler_Orientation state derivatives dt :
  AircraftState.Orientation (EulerIntegrator.Integrate state derivatives dt) =
  Quaternion.Normalize
    (Quaternion.Add (AircraftState.Orientation state)
       (Quaternion.Scale
          (Quaternion.Scale
             (Quaternion.Multiply (AircraftState.Orientation state)
                (omegaQuat (AircraftState.AngularRate state))) 0.5) dt)).
Proof.
  unfold EulerIntegrator.Integrate.
  cbv zeta. rewrite refresh_Orientation. reflexivity.
Qed.

Lemma AB2_wf_New : AdamsBashforth2Integrator.wf AdamsBashforth2Integrator.NewAdamsBashforth2Integrator.
Proof. intros H; discriminate H. Qed.

Lemma AB2_Integrate_total ab state derivatives dt :
  AdamsBashforth2Integrator.wf ab ->
  exists result ab',
    AdamsBashforth2Integrator.Integrate ab state derivatives dt
      = Some (result, ab') /\
    AdamsBashforth2Integrator.previousDerivatives ab' = Some derivatives /\
    AdamsBashforth2Integrator.hasPrevious ab' = true.
Proof.
  intros Hwf. unfold AdamsBashforth2Integrator.Integrate.
  destruct (AdamsBashforth2Integrator.hasPrevious ab) eqn:Hp; simpl.
  - destruct (Hwf Hp) as [prev ->]. cbv zeta. eauto.
  - eauto.
Qed.

Section Binary64Orientation.
Import PrimFloat.
#[local] Set Warnings "-inexact-float".



End Binary64Orientation.

Lemma Vector3_eq (a b : Vector3.t) :
  Vector3.X a = Vector3.X b -> Vector3.Y a = Vector3.Y b ->
  Vector3.Z a = Vector3.Z b -> a = b.
Proof. destruct a, b; simpl; intros -> -> ->; reflexivity. Qed.

(** C7, as the specification states it, fails for the position: on a
    second step from the state moving at 1 m/s (current Earth-frame
    velocity 1, previous one 0, dt = 1) the two-step formula asks for an
    advance of 3/2, and the integrator advances the position by 1. *)
Lemma AB2_position_is_not_two_step :
  exists result ab',
    AdamsBashforth2Integrator.Integrate
      (AdamsBashforth2Integrator.mk (Some Examples.restDerivatives) true)
      Examples.movingState Examples.movingDerivatives 1
    = Some (result, ab') /\
    Vector3.X (AircraftState.Position result) = 1 /\
    Vector3.X (AdamsBashforth2Integrator.spec_step
                 (AircraftState.Position Examples.movingState)
                 (StateDerivatives.PositionDot Examples.movingDerivatives)
                 (StateDerivatives.PositionDot Examples.restDerivatives) 1)
    = 3 / 2 /\
    AircraftState.Position result <>
    AdamsBashforth2Integrator.spec_step
      (AircraftState.Position Examples.movingState)
      (StateDerivatives.PositionDot Examples.movingDerivatives)
      (StateDerivatives.PositionDot Examples.restDerivatives) 1.
Proof.
  eexists _, _. split; [reflexivity|].
  rewrite refresh_Position. simpl.
  split; [|split].
  - lra.
  - lra.
  - intros H. apply (f_equal Vector3.X) in H. simpl in H. lra.
Qed.

(** C7, amended.  A call on an integrator object that has no previous
    derivatives is exactly the Euler step, and records the derivatives it
    was given.  Every later call advances the body-frame velocity and the
    angular rate by y + 1/2 dt (3 f_n - f_(n-1)), with f_n the derivatives
    passed to this call and f_(n-1) those passed to the previous one, and
    advances the position by dt times the current Earth-frame velocity
    (the source uses the current velocity for both terms). *)
Theorem AB2_steps
    (state : AircraftState.t) (derivatives : StateDerivatives.t)
    (dt : float64) :
  (forall ab,
      AdamsBashforth2Integrator.hasPrevious ab = false ->
      AdamsBashforth2Integrator.Integrate ab state derivatives dt =
      Some (EulerIntegrator.Integrate state derivatives dt,
            AdamsBashforth2Integrator.mk (Some derivatives) true)) /\
  (forall ab prev,
      AdamsBashforth2Integrator.hasPrevious ab = true ->
      AdamsBashforth2Integrator.previousDerivatives ab = Some prev ->
      exists result,
        AdamsBashforth2Integrator.Integrate ab state derivatives dt =
        Some (result, AdamsBashforth2Integrator.mk (Some derivatives) true) /\
        AircraftState.Velocity result =
        AdamsBashforth2Integrator.spec_step
          (AircraftState.Velocity state)
          (StateDerivatives.VelocityDot derivatives)
          (StateDerivatives.VelocityDot prev) dt /\
        AircraftState.AngularRate result =
        AdamsBashforth2Integrator.spec_step
          (AircraftState.AngularRate state)
          (StateDerivatives.AngularRateDot derivatives)
          (StateDerivatives.AngularRateDot prev) dt /\
        AircraftState.Position result =
        Vector3.Add (AircraftState.Position state)
          (Vector3.Scale
             (Quaternion.RotateVector (AircraftState.Orientation state)
                                      (AircraftState.Velocity state)) dt)).
Proof.
  split.
  - intros ab Hp. unfold AdamsBashforth2Integrator.Integrate.
    rewrite Hp. reflexivity.
  - intros ab prev Hp Hprev. unfold AdamsBashforth2Integrator.Integrate.
    rewrite Hp, Hprev. simpl negb. cbv iota zeta.
    eexists. split; [reflexivity|].
    autorewrite with refresh. simpl.
    set (ev := Quaternion.RotateVector _ _).
    split; [|split]; apply Vector3_eq; simpl; lra.
Qed.

(** *** Propulsion *)

Lemma updateFuelConsumption_frame ps dt :
  PropulsionSystem.Engine (PropulsionSystem.updateFuelConsumption ps dt)
  = PropulsionSystem.Engine ps /\
  PropulsionSystem.Propeller (PropulsionSystem.updateFuelConsumption ps dt)
  = PropulsionSystem.Propeller ps /\
  PropulsionSystem.ReferenceRPM (PropulsionSystem.updateFuelConsumption ps dt)
  = PropulsionSystem.ReferenceRPM ps /\
  PropulsionSystem.ReferenceMAP (PropulsionSystem.updateFuelConsumption ps dt)
  = PropulsionSystem.ReferenceMAP ps /\
  PropulsionSystem.MaxThrust (PropulsionSystem.updateFuelConsumption ps dt)
  = PropulsionSystem.MaxThrust ps.
Proof.
  unfold PropulsionSystem.updateFuelConsumption.
  destruct (_ && _); [|repeat split; reflexivity].
  unfold PropulsionSystem.consumeFuel. cbv zeta.
  destruct (PropulsionSystem.consumeFuel_loop _ _ _).
  repeat split; reflexivity.
Qed.

(** What [Update] leaves in the propeller: the thrust of [updatePropeller]
    run on the engine state of this update and on the running factor the
    system had when [Update] was called. *)
Lemma Update_Propeller ps throttleInput dt :
  let e := PropulsionSystem.Engine
             (PropulsionSystem.Update ps throttleInput dt) in
  let p := PropulsionSystem.Propeller
             (PropulsionSystem.Update ps throttleInput dt) in
  Propeller.Thrust p =
    Rmax 0.0 (PropulsionSystem.RunningFactor ps *
              (Propeller.RPM p / PropulsionSystem.ReferenceRPM ps) *
              (PistonEngine.ManifoldPressure e / PropulsionSystem.ReferenceMAP ps) *
              PropulsionSystem.MaxThrust ps) /\
  Propeller.InducedVelocity p =
    (if Rgt_dec (Propeller.Thrust p) 0 then sqrt (Propeller.Thrust p / 0.5)
     else 0.0).
Proof.
  unfold PropulsionSystem.Update. cbv zeta.
  match goal with
  | |- context [PropulsionSystem.updateFuelConsumption ?a ?b] =>
      destruct (updateFuelConsumption_frame a b) as (He & Hp & _);
      set (u := PropulsionSystem.updateFuelConsumption a b) in *
  end.
  assert (HE : forall rf,
             PropulsionSystem.Engine (PropulsionSystem.with_RunningFactor u rf)
             = PropulsionSystem.Engine u) by reflexivity.
  assert (HP : forall rf,
             PropulsionSystem.Propeller (PropulsionSystem.with_RunningFactor u rf)
             = PropulsionSystem.Propeller u) by reflexivity.
  destruct (PistonEngine.IsRunning (PropulsionSystem.Engine u));
    rewrite HE, HP, He, Hp; split; reflexivity.
Qed.

Section Binary64Thrust.
Import PrimFloat.
#[local] Open Scope float_scope.
#[local] Set Warnings "-inexact-float".

Lemma Binary64_updateFuelConsumption_frame ps dt :
  Binary64.PropulsionSystem.Engine
    (Binary64.PropulsionSystem.updateFuelConsumption ps dt)
  = Binary64.PropulsionSystem.Engine ps /\
  Binary64.PropulsionSystem.Propeller
    (Binary64.PropulsionSystem.updateFuelConsumption ps dt)
  = Binary64.PropulsionSystem.Propeller ps.
Proof.
  unfold Binary64.PropulsionSystem.updateFuelConsumption.
  destruct (_ && _); [|split; reflexivity].
  unfold Binary64.PropulsionSystem.consumeFuel. cbv zeta.
  destruct (Binary64.PropulsionSystem.consumeFuel_loop _ _ _).
  split; reflexivity.
Qed.

(** What [Update] leaves in the engine and in the propeller. *)
Lemma Binary64_Update_unfold ps throttleInput dt :
  let ps1 := Binary64.PropulsionSystem.with_Engine ps
               (Binary64.PistonEngine.with_ThrottlePosition
                  (Binary64.PropulsionSystem.Engine ps)
                  (Binary64.Max 0.0 (Binary64.Min 1.0 throttleInput))) in
  let ps2 := Binary64.PropulsionSystem.updateEngine ps1 dt in
  let ps' := Binary64.PropulsionSystem.Update ps throttleInput dt in
  Binary64.PropulsionSystem.Engine ps' = Binary64.PropulsionSystem.Engine ps2 /\
  Binary64.PropulsionSystem.Propeller ps' =
    Binary64.PropulsionSystem.Propeller
      (Binary64.PropulsionSystem.updatePropeller ps2 dt).
Proof.
  intros ps1 ps2 ps'. unfold ps', Binary64.PropulsionSystem.Update. cbv zeta.
  fold ps1. fold ps2.
  destruct (Binary64_updateFuelConsumption_frame
              (Binary64.PropulsionSystem.updatePropeller ps2 dt) dt)
    as (He & Hp).
  set (u := Binary64.PropulsionSystem.updateFuelConsumption _ _) in *.
  replace (Binary64.PropulsionSystem.Engine
             (Binary64.PropulsionSystem.updatePropeller ps2 dt))
    with (Binary64.PropulsionSystem.Engine ps2) in He by reflexivity.
  rewrite He.
  destruct (Binary64.PistonEngine.IsRunning (Binary64.PropulsionSystem.Engine ps2));
    cbn [Binary64.PropulsionSystem.with_RunningFactor
         Binary64.PropulsionSystem.Engine Binary64.PropulsionSystem.Propeller];
    rewrite ?He, ?Hp; split; reflexivity.
Qed.

(** C9, as the specification states it, fails on binary64.  The system of
    the constructor, its engine started by one update at full throttle,
    is updated with a NaN throttle: the clamp of the throttle, the engine
    RPM and the value of the thrust formula are NaN, and
    [math.Max(0.0, NaN)] is NaN, so the thrust that [Update] leaves is
    NaN, which is not greater than or equal to 0. *)
Lemma Update_thrust_NaN :
  let ps' := Binary64.PropulsionSystem.Update Binary64.Examples.runningSystem
               nan Binary64.Examples.step in
  let thrust :=
    Binary64.Propeller.Thrust (Binary64.PropulsionSystem.Propeller ps') in
  Binary64.PistonEngine.IsRunning
    (Binary64.PropulsionSystem.Engine Binary64.Examples.runningSystem) = true /\
  Binary64.IsNaN thrust = true /\
  (0 <=? thrust) = false.
Proof. vm_compute. repeat split. Qed.

(** C9, amended.  After every call to [Update], for any throttle input and
    step, the thrust is [math.Max(0.0, f)] of the value f of the thrust
    formula: 0 when f is negative or zero, f when f is positive, and NaN
    when f is NaN.  So the thrust is never negative, and it is greater
    than or equal to 0 whenever the formula's value is a number.  The
    induced velocity is sqrt (thrust / 0.5) when the thrust is positive
    and 0 otherwise (a NaN thrust included), and is always greater than or
    equal to 0. *)
Theorem Update_thrust_nonnegative
    (ps : Binary64.PropulsionSystem.t) (throttleInput dt : Binary64.float64) :
  let ps' := Binary64.PropulsionSystem.Update ps throttleInput dt in
  let thrust :=
    Binary64.Propeller.Thrust (Binary64.PropulsionSystem.Propeller ps') in
  let induced :=
    Binary64.Propeller.InducedVelocity (Binary64.PropulsionSystem.Propeller ps') in
  let formula :=
    Binary64.PropulsionSystem.RunningFactor ps *
    (Binary64.Propeller.RPM (Binary64.PropulsionSystem.Propeller ps')
     / Binary64.PropulsionSystem.ReferenceRPM ps) *
    (Binary64.PistonEngine.ManifoldPressure (Binary64.PropulsionSystem.Engine ps')
     / Binary64.PropulsionSystem.ReferenceMAP ps) *
    Binary64.PropulsionSystem.MaxThrust ps in
  thrust = Binary64.Max 0 formula /\
  ((formula <? 0) = true \/ (formula =? 0) = true -> thrust = 0) /\
  ((0 <? formula) = true -> thrust = formula) /\
  (Binary64.IsNaN formula = true -> Binary64.IsNaN thrust = true) /\
  (Binary64.IsNaN formula = false -> (0 <=? thrust) = true) /\
  (thrust <? 0) = false /\
  induced = (if 0 <? thrust then Binary64.Sqrt (thrust / 0.5) else 0) /\
  (0 <=? induced) = true.
Proof.
  intros ps' thrust induced formula.
  destruct (Binary64_Update_unfold ps throttleInput dt) as [He Hp].
  cbv zeta in He, Hp. fold ps' in He, Hp.
  assert (Ht : thrust = Binary64.Max 0 formula).
  { unfold thrust, formula. rewrite Hp, He. reflexivity. }
  assert (Hi : induced =
               (if 0 <? thrust then Binary64.Sqrt (thrust / 0.5) else 0)).
  { unfold induced, thrust. rewrite Hp. reflexivity. }
  clearbody thrust induced formula. clear He Hp.
  destruct (Max_zero formula) as (Hneg & Hzero & Hpos & Hnan).
  split; [exact Ht|].
  split; [intros [H|H]; rewrite Ht; auto|].
  split; [intros H; rewrite Ht; auto|].
  split; [intros H; rewrite Ht, (Hnan H); reflexivity|].
  assert (Hge : Binary64.IsNaN formula = false -> (0 <=? thrust) = true).
  { intros H. rewrite Ht.
    apply (Max_cases 0 formula); [reflexivity|exact H]. }
  split; [exact Hge|].
  split.
  { destruct (Binary64.IsNaN formula) eqn:Hn.
    - rewrite Ht, (Hnan eq_refl). reflexivity.
    - apply f64_leb_not_ltb. now apply Hge. }
  split; [exact Hi|].
  rewrite Hi. destruct (0 <? thrust) eqn:Hlt.
  - now apply Sqrt_div_half_nonneg.
  - reflexivity.
Qed.

End Binary64Thrust.

Lemma Update_unfold ps throttleInput dt :
  let ps1 := PropulsionSystem.with_Engine ps
               (PistonEngine.with_ThrottlePosition (PropulsionSystem.Engine ps)
                  (Rmax 0.0 (Rmin 1.0 throttleInput))) in
  let ps2 := PropulsionSystem.updateEngine ps1 dt in
  let ps' := PropulsionSystem.Update ps throttleInput dt in
  PropulsionSystem.Engine ps' = PropulsionSystem.Engine ps2 /\
  PropulsionSystem.Propeller ps' =
    PropulsionSystem.Propeller (PropulsionSystem.updatePropeller ps2 dt) /\
  PropulsionSystem.RunningFactor ps' =
    (if PistonEngine.IsRunning (PropulsionSystem.Engine ps2) then 1.0 else 0.3) /\
  PropulsionSystem.ReferenceRPM ps' = PropulsionSystem.ReferenceRPM ps /\
  PropulsionSystem.ReferenceMAP ps' = PropulsionSystem.ReferenceMAP ps /\
  PropulsionSystem.MaxThrust ps' = PropulsionSystem.MaxThrust ps.
Proof.
  intros ps1 ps2 ps'. unfold ps', PropulsionSystem.Update. cbv zeta.
  fold ps1. fold ps2.
  destruct (updateFuelConsumption_frame
              (PropulsionSystem.updatePropeller ps2 dt) dt)
    as (He & Hp & Hr & Hm & Ht).
  set (u := PropulsionSystem.updateFuelConsumption _ _) in *.
  replace (PropulsionSystem.Engine (PropulsionSystem.updatePropeller ps2 dt))
    with (PropulsionSystem.Engine ps2) in He by reflexivity.
  rewrite He.
  destruct (PistonEngine.IsRunning (PropulsionSystem.Engine ps2));
    cbn [PropulsionSystem.with_RunningFactor PropulsionSystem.Engine
         PropulsionSystem.Propeller PropulsionSystem.RunningFactor
         PropulsionSystem.ReferenceRPM PropulsionSystem.ReferenceMAP
         PropulsionSystem.MaxThrust];
    rewrite ?He, ?Hp, ?Hr, ?Hm, ?Ht; repeat split; reflexivity.
Qed.

(** The propeller stage on its own follows the formula with the running
    factor stored in the system: the two cases of the formula test
    (reference RPM and pressure; twice the RPM at half the pressure) give
    the maximum thrust of 200 lb when the stored factor is 1. *)
Lemma updatePropeller_reference_conditions (ps : PropulsionSystem.t) dt a b :
  PropulsionSystem.RunningFactor ps = 1.0 ->
  PropulsionSystem.ReferenceRPM ps = 1260 ->
  PropulsionSystem.ReferenceMAP ps = 81 ->
  PropulsionSystem.MaxThrust ps = 200 ->
  Propeller.RPM (PropulsionSystem.Propeller ps) = a * 1260 ->
  PistonEngine.ManifoldPressure (PropulsionSystem.Engine ps) = b * 81 ->
  a * b = 1 ->
  Propeller.Thrust
    (PropulsionSystem.Propeller (PropulsionSystem.updatePropeller ps dt)) = 200.
Proof.
  intros Hrf Hr Hm Ht Hrpm Hmap Hab.
  unfold PropulsionSystem.updatePropeller. simpl.
  rewrite Hrf, Hr, Hm, Ht, Hrpm, Hmap.
  replace (a * 1260 / 1260) with a by (field; lra).
  replace (b * 81 / 81) with b by (field; lra).
  rewrite Rmax_right; nra.
Qed.

Lemma updateEngine_stays_running ps dt :
  PistonEngine.IsRunning (PropulsionSystem.Engine ps) = true ->
  PistonEngine.IsRunning
    (PropulsionSystem.Engine (PropulsionSystem.updateEngine ps dt)) = true.
Proof.
  destruct ps as [[name run rpm map thr mr mm ir im] p fs mt rr rm rf pos ori].
  simpl. intros ->. reflexivity.
Qed.

(** X30.  Once the engine runs and the stored factor is 1, [Update] leaves
    the thrust of the formula, provided the formula is not negative. *)
Lemma Update_thrust_when_already_running ps throttleInput dt :
  PistonEngine.IsRunning (PropulsionSystem.Engine ps) = true ->
  PropulsionSystem.RunningFactor ps = 1.0 ->
  let ps' := PropulsionSystem.Update ps throttleInput dt in
  0 <= PropulsionSystem.spec_thrust ps' ->
  Propeller.Thrust (PropulsionSystem.Propeller ps')
  = PropulsionSystem.spec_thrust ps'.
Proof.
  intros Hrun Hrf ps'.
  destruct (Update_Propeller ps throttleInput dt) as [Ht _].
  destruct (Update_unfold ps throttleInput dt) as (He & _ & _ & Hr & Hm & Hmax).
  fold ps' in Ht, He, Hr, Hm, Hmax.
  assert (Hrun' : PistonEngine.IsRunning (PropulsionSystem.Engine ps') = true).
  { rewrite He. apply updateEngine_stays_running. exact Hrun. }
  unfold PropulsionSystem.spec_thrust. rewrite Hrun', Hr, Hm, Hmax.
  intros Hnn. rewrite Ht, Hrf. apply Rmax_right. lra.
Qed.

(** C5 at the update that starts the engine.  From the system the
    constructor builds, [Update] with full throttle starts the engine
    (3000 RPM, 61 inHg) and sets the running factor to 1, and the thrust it
    leaves was computed with the factor 0.3 of the stopped engine:
    0.3 (3000/1260) (61/81) 200, not the 1.0 (3000/1260) (61/81) 200 of the
    formula for a running engine. *)
Theorem Update_thrust_at_engine_start :
  let ps' :=
    PropulsionSystem.Update PropulsionSystem.NewPropulsionSystem 1 0.01 in
  PistonEngine.IsRunning (PropulsionSystem.Engine ps') = true /\
  PropulsionSystem.RunningFactor ps' = 1.0 /\
  Propeller.RPM (PropulsionSystem.Propeller ps') = 3000 /\
  PistonEngine.ManifoldPressure (PropulsionSystem.Engine ps') = 61 /\
  Propeller.Thrust (PropulsionSystem.Propeller ps')
    = 0.3 * (3000 / 1260) * (61 / 81) * 200 /\
  PropulsionSystem.spec_thrust ps' = 1.0 * (3000 / 1260) * (61 / 81) * 200 /\
  Propeller.Thrust (PropulsionSystem.Propeller ps')
    < PropulsionSystem.spec_thrust ps'.
Proof.
  intros ps'.
  destruct (Update_unfold PropulsionSystem.NewPropulsionSystem 1 0.01)
    as (He & Hp & Hrf & Hr & Hm & Ht).
  fold ps' in He, Hp, Hrf, Hr, Hm, Ht.
  unfold PropulsionSystem.spec_thrust.
  rewrite Hr, Hm, Ht, He, Hp, Hrf. clear.
  assert (Hthrottle : Rmax 0.0 (Rmin 1.0 1) = 1).
  { rewrite Rmin_right by lra. rewrite Rmax_right by lra. reflexivity. }
  rewrite Hthrottle.
  unfold PropulsionSystem.updatePropeller, PropulsionSystem.updateEngine.
  cbn. rewrite (bool_decide_eq_true_2 (1 > 0.1)) by lra.
  cbn. rewrite Rmax_right by lra.
  repeat split; lra.
Qed.

(** *** The actuator *)

(** Case analysis on every comparison of reals in the goal. *)
Ltac case_reals :=
  repeat match goal with
    | |- context [Rgt_dec ?a ?b] => destruct (Rgt_dec a b)
    | |- context [Rlt_dec ?a ?b] => destruct (Rlt_dec a b)
    | |- context [Rle_dec ?a ?b] => destruct (Rle_dec a b)
    | |- context [Rge_dec ?a ?b] => destruct (Rge_dec a b)
    end.

Lemma Get_Set_same pm name value :
  PropertyManager.Get (PropertyManager.Set_ pm name value) name = value.
Proof.
  unfold PropertyManager.Get, PropertyManager.Set_, PropertyManager.resolve.
  simpl. destruct (PropertyManager.aliases pm !! name);
    now rewrite lookup_insert_eq.
Qed.

Lemma actuator_rate_stage r dt target input :
  0 <= r * dt ->
  (if Rgt_dec input (target + r * dt) then target + r * dt
   else if Rlt_dec input (target - r * dt) then target - r * dt
   else input)
  = ActuatorComponent.spec_rate_limit (Finite r) dt target input.
Proof.
  intros H. unfold ActuatorComponent.spec_rate_limit.
  unfold Rmin; case_reals; unfold Rmax; case_reals; lra.
Qed.

Lemma actuator_lag_stage tau dt output target :
  0 <= tau -> 0 < dt ->
  (if Rgt_dec tau 0.0 then output + dt / (tau + dt) * (target - output)
   else target)
  = ActuatorComponent.spec_lag tau dt output target.
Proof.
  intros Htau Hdt. unfold ActuatorComponent.spec_lag.
  destruct (Rgt_dec tau 0.0) as [_|Hn]; [reflexivity|].
  assert (tau = 0) as -> by lra.
  replace (dt / (0 + dt)) with 1 by (field; lra). lra.
Qed.

Lemma actuator_hysteresis_off width previous input :
  ~ width > 0.0 -> 0 <= width ->
  ActuatorComponent.spec_hysteresis width previous input = input.
Proof.
  intros Hn Hw. unfold ActuatorComponent.spec_hysteresis.
  destruct (Rlt_dec _ _) as [Hlt|_]; [|reflexivity].
  pose proof (Rabs_pos (input - previous)). lra.
Qed.




(** *** The flight-control scheduler *)

Lemma inactive_Execute rg (h : heap) pm dt :
  ~ FlightControlSystem.active rg ->
  RateGroupScheduler.Execute rg h pm dt = Some (h, pm).
Proof.
  intros Hn. unfold RateGroupScheduler.Execute.
  destruct (RateGroupScheduler.Enabled rg) eqn:He; [|reflexivity].
  destruct (RateGroupScheduler.Components rg) eqn:Hc; [reflexivity|].
  exfalso. apply Hn. split; [exact He|]. rewrite Hc. discriminate.
Qed.

(** When at most the group [g] is active, a visit of the rate groups comes
    down to the execution of [g], wherever it stands in the order. *)
Lemma executeRateGroups_single g (groups : gmap string RateGroupScheduler.t)
    (order : list string) (h : heap) pm dt :
  NoDup order ->
  (forall n rg, groups !! n = Some rg -> FlightControlSystem.active rg -> n = g) ->
  FlightControlSystem.executeRateGroups order groups h pm dt =
  if decide (g ∈ order) then
    match groups !! g with
    | Some rg => RateGroupScheduler.Execute rg h pm dt
    | None => Some (h, pm)
    end
  else Some (h, pm).
Proof.
  intros Hnd Hsingle. revert h pm.
  induction order as [|name rest IH]; intros h pm.
  - simpl. destruct (decide (g ∈ [])) as [Hin|_]; [|reflexivity].
    now apply elem_of_nil in Hin.
  - apply NoDup_cons in Hnd as [Hnotin Hnd']. specialize (IH Hnd').
    cbn [FlightControlSystem.executeRateGroups].
    destruct (decide (name = g)) as [->|Hne].
    + rewrite decide_True by apply list_elem_of_here.
      destruct (groups !! g) as [rg|] eqn:Hg.
      * destruct (RateGroupScheduler.Execute rg h pm dt) as [[h' pm']|];
          [|reflexivity].
        rewrite IH. now rewrite decide_False.
      * rewrite IH. now rewrite decide_False.
    + destruct (groups !! name) as [rg|] eqn:Hn.
      * rewrite inactive_Execute
          by (intros Ha; apply Hne; eapply Hsingle; eauto).
        rewrite IH.
        destruct (decide (g ∈ rest)) as [Hin|Hout].
        -- rewrite decide_True by (now apply list_elem_of_further).
           reflexivity.
        -- rewrite decide_False; [reflexivity|].
           intros Hin. apply elem_of_cons in Hin as [->|Hin]; auto.
      * rewrite IH.
        destruct (decide (g ∈ rest)) as [Hin|Hout].
        -- rewrite decide_True by (now apply list_elem_of_further).
           reflexivity.
        -- rewrite decide_False; [reflexivity|].
           intros Hin. apply elem_of_cons in Hin as [->|Hin]; auto.
Qed.

Lemma iteration_order_NoDup {V} (m : gmap string V) order :
  FlightControlSystem.iteration_order m order -> NoDup order.
Proof.
  unfold FlightControlSystem.iteration_order. intros ->.
  apply NoDup_fst_map_to_list.
Qed.

(** Components added to a rate group are appended to its list, and the
    list is executed front to back: a component added later runs after
    those added before it. *)
Lemma executeComponents_app (l1 l2 : list nat) (h : heap) pm dt :
  RateGroupScheduler.executeComponents (l1 ++ l2) h pm dt =
  match RateGroupScheduler.executeComponents l1 h pm dt with
  | Some (h', pm') => RateGroupScheduler.executeComponents l2 h' pm' dt
  | None => None
  end.
Proof.
  revert h pm. induction l1 as [|a l1 IH]; intros h pm; [reflexivity|].
  simpl. destruct (h !! a) as [c|]; [|reflexivity].
  destruct (ComponentProcessor.Execute c pm dt) as [[[c' pm'] out]|];
    [apply IH|reflexivity].
Qed.

(** C1, as the specification states it, fails: the rate groups are kept in
    a Go map and visited in map order.  With the gain "double" in the
    default group feeding the gain "copy" in the group "fast", a step that
    visits "default" first leaves 2 in "b", and a step that visits "fast"
    first leaves 0. *)
Lemma Execute_observations_depend_on_visiting_order :
  Examples.succeeded Examples.twoGainFCS = true /\
  exists r1 r2,
    FlightControlSystem.runs
      (Examples.built Examples.twoGainFCS).1
      (Examples.built Examples.twoGainFCS).2 Examples.elevatorState 0.01 r1 /\
    FlightControlSystem.runs
      (Examples.built Examples.twoGainFCS).1
      (Examples.built Examples.twoGainFCS).2 Examples.elevatorState 0.01 r2 /\
    FlightControlSystem.observe r1 "b" = Some 2 /\
    FlightControlSystem.observe r2 "b" = Some 0.
Proof.
  split; [vm_compute; reflexivity|].
  eexists _, _. split; [|split].
  - exists ["default"; "fast"]. split; [|reflexivity].
    unfold FlightControlSystem.iteration_order. vm_compute. apply perm_swap.
  - exists ["fast"; "default"]. split; [|reflexivity].
    unfold FlightControlSystem.iteration_order. vm_compute. reflexivity.
  - split; vm_compute; f_equal; lra.
Qed.

(** C1, amended.  A step of the flight-control system is determined by
    the store, the rate groups, the components, the state, dt and the order
    in which the map of rate groups is visited; and when at most one rate
    group is active (enabled and not empty) every visiting order gives the
    same result, so any two runs agree on the whole outcome and on every
    observation of the property store. *)
Theorem Execute_deterministic_given_order
    (fcs : FlightControlSystem.t) (h : heap) (state : AircraftState.t)
    (dt : float64) (g : string)
    (Honly : FlightControlSystem.only_active g fcs) :
  forall r1 r2,
    FlightControlSystem.runs fcs h state dt r1 ->
    FlightControlSystem.runs fcs h state dt r2 ->
    r1 = r2 /\
    forall name,
      FlightControlSystem.observe r1 name = FlightControlSystem.observe r2 name.
Proof.
  intros r1 r2 (o1 & Ho1 & <-) (o2 & Ho2 & <-).
  assert (Heq : FlightControlSystem.Execute o1 fcs h state dt
                = FlightControlSystem.Execute o2 fcs h state dt).
  { unfold FlightControlSystem.Execute.
    destruct (FlightControlSystem.Enabled fcs); [|reflexivity]. simpl.
    rewrite !(executeRateGroups_single g)
      by (eauto using @iteration_order_NoDup).
    assert (Hiff : g ∈ o1 <-> g ∈ o2).
    { unfold FlightControlSystem.iteration_order in Ho1, Ho2.
      now rewrite Ho1, Ho2. }
    destruct (decide (g ∈ o1)) as [H1|H1], (decide (g ∈ o2)) as [H2|H2];
      try reflexivity; tauto. }
  split; [exact Heq|]. intros name. now rewrite Heq.
Qed.

Lemma Execute_deterministic_given_order_witness :
  Examples.succeeded Examples.oneGainFCS = true /\
  FlightControlSystem.Execute ["default"; "fast"]
    (Examples.built Examples.oneGainFCS).1
    (Examples.built Examples.oneGainFCS).2 Examples.elevatorState 0.01
  = FlightControlSystem.Execute ["fast"; "default"]
      (Examples.built Examples.oneGainFCS).1
      (Examples.built Examples.oneGainFCS).2 Examples.elevatorState 0.01.
Proof.
  split; [vm_compute; reflexivity|].
  refine (proj1 (Execute_deterministic_given_order
                   (Examples.built Examples.oneGainFCS).1
                   (Examples.built Examples.oneGainFCS).2
                   Examples.elevatorState 0.01 "default" _ _ _ _ _)).
  - apply (bool_decide_unpack _). vm_compute. exact I.
  - exists ["default"; "fast"]. split; [|reflexivity].
    unfold FlightControlSystem.iteration_order. vm_compute. apply perm_swap.
  - exists ["fast"; "default"]. split; [|reflexivity].
    unfold FlightControlSystem.iteration_order. vm_compute. reflexivity.
Defined.

(** *** Tables *)

Lemma lerp_between va vb f :
  0 <= f <= 1 ->
  Rmin va vb <= va + f * (vb - va) <= Rmax va vb.
Proof.
  intros [H0 H1]. unfold Rmin, Rmax. destruct (Rle_dec va vb); nra.
Qed.

Lemma lookup_MinMax (l : list R) (i : nat) v :
  l !! i = Some v -> MinRlist l <= v <= MaxRlist l.
Proof.
  intros H. apply list_elem_of_lookup_2, list_elem_of_In in H.
  split; [now apply MinRlist_P1 | now apply MaxRlist_P1].
Qed.

Lemma interpolate1D_loop_brackets (t : Table1D.t) (x last : R) :
  length (Table1D.Values t) = length (Table1D.Indices t) ->
  Table1D.Indices t !! (length (Table1D.Indices t) - 1)%nat = Some last ->
  x < last ->
  forall remaining i lo,
    (i + remaining = length (Table1D.Indices t) - 1)%nat ->
    Table1D.Indices t !! i = Some lo ->
    lo < x ->
    (forall j lo', (j < i)%nat -> Table1D.Indices t !! j = Some lo' -> lo' < x) ->
    exists r, interpolate1D_loop t x i remaining = Some r /\ bracketed t x r.
Proof.
  intros Hlen Hlast Hx. induction remaining as [|k IH]; intros i lo Hi Hlo Hlt Hbefore.
  - replace (i + 0)%nat with i in Hi by lia. rewrite <- Hi in Hlast.
    rewrite Hlast in Hlo. injection Hlo as ->. lra.
  - cbn [interpolate1D_loop]. rewrite Hlo.
    destruct (lookup_lt_is_Some_2 (Table1D.Indices t) (S i)) as [hi Hhi];
      [unfold float64 in *; lia|].
    unfold float64 in *. rewrite Hhi.
    rewrite (bool_decide_eq_true_2 (x >= lo)) by lra. cbn [andb].
    destruct (bool_decide (x <= hi)) eqn:Hle.
    + apply bool_decide_eq_true_1 in Hle.
      destruct (lookup_lt_is_Some_2 (Table1D.Values t) i) as [vlo Hvlo];
        [unfold float64 in *; lia|].
      destruct (lookup_lt_is_Some_2 (Table1D.Values t) (S i)) as [vhi Hvhi];
        [unfold float64 in *; lia|].
      unfold float64 in *. rewrite Hvlo, Hvhi. eexists. split; [reflexivity|].
      exists i, lo, hi, vlo, vhi. repeat split; auto; lra.
    + apply bool_decide_eq_false_1 in Hle.
      apply (IH (S i) hi); [lia|exact Hhi|lra|].
      intros j lo' Hj Hlo'. destruct (decide (j = i)) as [->|Hne].
      * rewrite Hlo in Hlo'. injection Hlo' as <-. exact Hlt.
      * apply (Hbefore j); [lia|exact Hlo'].
Qed.

Lemma bracketed_bounds t x r :
  bracketed t x r ->
  MinRlist (Table1D.Values t) <= r <= MaxRlist (Table1D.Values t).
Proof.
  intros (i & lo & hi & vlo & vhi & Hlo & Hhi & Hvlo & Hvhi & [H1 H2] & _ & ->).
  apply lookup_MinMax in Hvlo, Hvhi.
  assert (Hf : 0 <= (x - lo) / (hi - lo) <= 1).
  { split.
    - apply Rmult_le_pos; [lra|]. left. apply Rinv_0_lt_compat. lra.
    - apply Rmult_le_reg_r with (hi - lo); [lra|].
      unfold Rdiv. rewrite Rmult_assoc, Rinv_l by lra. lra. }
  pose proof (lerp_between vlo vhi _ Hf) as Hb.
  unfold Rmin, Rmax in Hb. destruct (Rle_dec vlo vhi); lra.
Qed.

Lemma interpolate1D_cases (t : Table1D.t) (x : R)
    (Hlen : length (Table1D.Values t) = length (Table1D.Indices t))
    (Hne : Table1D.Indices t <> []) :
  exists first last vfirst vlast r,
    Table1D.Indices t !! 0%nat = Some first /\
    Table1D.Indices t !! (length (Table1D.Indices t) - 1)%nat = Some last /\
    Table1D.Values t !! 0%nat = Some vfirst /\
    Table1D.Values t !! (length (Table1D.Indices t) - 1)%nat = Some vlast /\
    interpolate1D t x = Some r /\
    (x <= first -> r = vfirst) /\
    (first < x -> last <= x -> r = vlast) /\
    (first < x -> x < last -> bracketed t x r).
Proof.
  assert (Hpos : (0 < length (Table1D.Indices t))%nat).
  { destruct (Table1D.Indices t); [contradiction|simpl; lia]. }
  unfold float64 in *.
  destruct (lookup_lt_is_Some_2 (Table1D.Indices t) 0) as [first Hfirst];
    [unfold float64 in *; lia|].
  destruct (lookup_lt_is_Some_2 (Table1D.Indices t)
              (length (Table1D.Indices t) - 1)) as [last Hlast];
    [unfold float64 in *; lia|].
  destruct (lookup_lt_is_Some_2 (Table1D.Values t) 0) as [vfirst Hvfirst];
    [unfold float64 in *; lia|].
  destruct (lookup_lt_is_Some_2 (Table1D.Values t)
              (length (Table1D.Indices t) - 1)) as [vlast Hvlast];
    [unfold float64 in *; lia|].
  assert (E : interpolate1D t x =
              if Rle_dec x first then Some vfirst
              else if Rge_dec x last then Some vlast
              else interpolate1D_loop t x 0 (length (Table1D.Indices t) - 1)).
  { unfold interpolate1D. cbv zeta.
    unfold float64 in *. rewrite Hfirst, Hlast, Hvfirst, Hvlast. reflexivity. }
  exists first, last, vfirst, vlast.
  destruct (Rle_dec x first) as [H1|H1].
  - exists vfirst. repeat split; auto; intros; lra.
  - destruct (Rge_dec x last) as [H2|H2].
    + exists vlast. repeat split; auto; intros; lra.
    + destruct (interpolate1D_loop_brackets t x last Hlen Hlast ltac:(lra)
                  (length (Table1D.Indices t) - 1)%nat 0%nat first
                  ltac:(lia) Hfirst ltac:(lra) ltac:(intros; lia))
        as (r & Hr & Hb).
      exists r. rewrite E, Hr. repeat split; auto; intros; lra.
Qed.

Section Binary64Tables.
Import PrimFloat.
#[local] Open Scope float_scope.
#[local] Set Warnings "-inexact-float".


End Binary64Tables.





Lemma findIndices_loop_in_range (indices : list float64) (value : float64) :
  indices <> [] ->
  forall remaining i,
    (i + remaining = length indices - 1)%nat ->
    in_range (length indices) (findIndices_loop indices value i remaining).
Proof.
  intros Hne.
  assert (Hpos : (0 < length indices)%nat)
    by (destruct indices; [contradiction|simpl; lia]).
  assert (Hlast : in_range (length indices)
                    ((length indices - 1)%nat, (length indices - 1)%nat, 0)).
  { unfold in_range; simpl. split; [lia|]. split; [lia|]. split; [now left|auto]. }
  induction remaining as [|k IH]; intros i Hi; cbn [findIndices_loop].
  - exact Hlast.
  - destruct (indices !! i) as [lo|] eqn:Hlo; [|exact Hlast].
    destruct (indices !! S i) as [hi|] eqn:Hhi; [|exact Hlast].
    destruct (bool_decide (value >= lo)) eqn:H1; cbn [andb];
      [|apply IH; lia].
    destruct (bool_decide (value <= hi)) eqn:H2; [|apply IH; lia].
    apply lookup_lt_Some in Hhi.
    unfold in_range; simpl. split; [lia|]. split; [lia|]. split; [now right|].
    intros E. lia.
Qed.

(** X4.  On a list of breakpoints that is not empty, [findIndices]
    returns two indices inside the list, equal or adjacent, and the
    fraction 0 when they are equal, whatever the value looked up and
    whether or not the list is sorted. *)
Theorem findIndices_in_range (indices : list float64) (value : float64)
    (Hne : indices <> []) :
  in_range (length indices) (findIndices indices value).
Proof.
  assert (Hpos : (0 < length indices)%nat)
    by (destruct indices; [contradiction|simpl; lia]).
  unfold findIndices. cbv zeta.
  destruct (indices !! 0%nat) as [first|] eqn:Hf.
  2:{ apply lookup_ge_None in Hf. unfold float64 in *. lia. }
  destruct (indices !! (length indices - 1)%nat) as [last|] eqn:Hl.
  2:{ apply lookup_ge_None in Hl. unfold float64 in *. lia. }
  destruct (Rle_dec value first).
  - unfold in_range; simpl. split; [lia|]. split; [lia|]. split; [now left|auto].
  - destruct (Rge_dec value last).
    + unfold in_range; simpl. split; [lia|]. split; [lia|]. split; [now left|auto].
    + apply findIndices_loop_in_range; [assumption|lia].
Qed.

Lemma findIndices_in_range_witness :
  [0; 1; 2] <> ([] : list float64) /\
  in_range 3 (findIndices [0; 1; 2] 0.5).
Proof.
  assert (H : [0; 1; 2] <> ([] : list float64)) by discriminate.
  split; [exact H|]. exact (findIndices_in_range [0; 1; 2] 0.5 H).
Defined.

Lemma cell_is_Some data (r c : nat) :
  rectangular data ->
  (r < length data)%nat -> (c < length (nth 0 data []))%nat ->
  exists v, cell data r c = Some v.
Proof.
  intros Hrect Hr Hc. unfold cell.
  destruct (lookup_lt_is_Some_2 data r Hr) as [row Hrow]. rewrite Hrow.
  apply lookup_lt_is_Some_2.
  unfold rectangular in Hrect. rewrite Forall_forall in Hrect.
  rewrite (Hrect row); [exact Hc|]. eapply list_elem_of_lookup_2; eauto.
Qed.

(** X5.  [interpolate2D] returns on a nil table and on every table whose
    rows all have the length of the first row: its guards keep every
    [Data[r][c]] in range, whatever the index lists hold. *)
Theorem interpolate2D_never_panics (t : option Table2D.t) (row col : float64)
    (Hrect : match t with
             | Some t => rectangular (Table2D.Data t)
             | None => True
             end) :
  exists v, interpolate2D t row col = Some v.
Proof.
  destruct t as [t|]; [|eexists; reflexivity].
  unfold interpolate2D.
  set (data := Table2D.Data t) in *.
  destruct (length data =? 0)%nat; [eauto|].
  destruct (_ || _); [eauto|].
  destruct (existsb _ data); [eauto|].
  destruct (findIndices (Table2D.RowIndices t) row) as [[r1 r2] rf].
  destruct (findIndices (Table2D.ColIndices t) col) as [[c1 c2] cf].
  cbv zeta.
  destruct (length data <=? r1)%nat eqn:Hr1; cbn [orb]; [eauto|].
  destruct (length data <=? r2)%nat eqn:Hr2; [eauto|].
  destruct (length (nth 0 data []) =? 0)%nat; cbn [orb]; [eauto|].
  destruct (length (nth 0 data []) <=? c1)%nat eqn:Hc1; cbn [orb]; [eauto|].
  destruct (length (nth 0 data []) <=? c2)%nat eqn:Hc2; [eauto|].
  apply Nat.leb_gt in Hr1, Hr2, Hc1, Hc2.
  destruct (cell_is_Some data r1 c1 Hrect Hr1 Hc1) as [v11 ->].
  destruct (cell_is_Some data r1 c2 Hrect Hr1 Hc2) as [v12 ->].
  destruct (cell_is_Some data r2 c1 Hrect Hr2 Hc1) as [v21 ->].
  destruct (cell_is_Some data r2 c2 Hrect Hr2 Hc2) as [v22 ->].
  repeat match goal with |- context [if ?b then _ else _] => destruct b end;
    eauto.
Qed.

Lemma interpolate2D_never_panics_witness :
  rectangular [[1; 2]; [3; 4]] /\
  exists v, interpolate2D (Some (Table2D.mk 0 [0; 1] [0; 1] [[1; 2]; [3; 4]]))
                          0.5 0.5 = Some v.
Proof.
  assert (H : rectangular [[1; 2]; [3; 4]]) by (repeat constructor).
  split; [exact H|].
  exact (interpolate2D_never_panics
           (Some (Table2D.mk 0 [0; 1] [0; 1] [[1; 2]; [3; 4]])) 0.5 0.5 H).
Defined.

Lemma parse1DTableData_fold_lengths (lines : list (list float64)) (t0 : Table1D.t) :
  length (Table1D.Values t0) = length (Table1D.Indices t0) ->
  let t := fold_left
    (fun t fields =>
       match fields with
       | idx :: val :: _ =>
           Table1D.mk (Table1D.Indices t ++ [idx]) (Table1D.Values t ++ [val])
       | _ => t
       end) lines t0 in
  length (Table1D.Values t) = length (Table1D.Indices t).
Proof.
  revert t0. induction lines as [|fields lines IH]; intros t0 H0; [exact H0|].
  cbn [fold_left]. apply IH.
  destruct fields as [|idx [|val ?]]; try exact H0.
  cbn. unfold float64 in *. rewrite !length_app. cbn. lia.
Qed.

Lemma parse1DTableData_lengths (lines : list (list float64)) :
  length (Table1D.Values (parse1DTableData lines)) =
  length (Table1D.Indices (parse1DTableData lines)).
Proof. apply parse1DTableData_fold_lengths. reflexivity. Qed.

Lemma interpolate1D_total (t : Table1D.t) (x : float64) :
  length (Table1D.Values t) = length (Table1D.Indices t) ->
  exists r, interpolate1D t x = Some r.
Proof.
  intros Hlen. destruct (Table1D.Indices t) as [|i0 rest] eqn:Hi.
  - unfold interpolate1D. rewrite Hi. eauto.
  - assert (Hne : Table1D.Indices t <> []) by (rewrite Hi; discriminate).
    destruct (interpolate1D_cases t x ltac:(rewrite Hi; exact Hlen) Hne)
      as (f & l & vf & vl & r & _ & _ & _ & _ & Hr & _).
    eauto.
Qed.

(** X6.  A table with one independent variable and at least one
    [tableData] parses, and its evaluation against any property map
    returns a value, without error or panic: the interpolation of the
    first [tableData] at the value of the property the variable names,
    read as 0 when the map does not hold it. *)
Theorem ParseTable_1D_evaluates (t : Table.t) (iv : IndependentVar.t)
    (td : TableData.t) (rest : list TableData.t)
    (properties : gmap string float64)
    (Hvar : Table.IndependentVar t = [iv])
    (Hdata : Table.TableData t = td :: rest) :
  exists pt v,
    ParseTable t = Some pt /\
    InterpolateTable pt (tableInputs pt properties) = Returned v /\
    interpolate1D (parse1DTableData (TableData.Data td))
                  (default 0 (properties !! IndependentVar.Value iv)) = Some v.
Proof.
  destruct (interpolate1D_total (parse1DTableData (TableData.Data td))
              (default 0 (properties !! IndependentVar.Value iv))
              (parse1DTableData_lengths _)) as [v Hv].
  unfold ParseTable. rewrite Hvar, Hdata. cbn [length map].
  eexists _, v. split; [reflexivity|]. split; [|exact Hv].
  unfold InterpolateTable, tableInputs.
  cbn [ParsedTable.Dimension ParsedTable.IndependentVars ParsedTable.Data1D map].
  rewrite Hv. reflexivity.
Qed.

Lemma ParseTable_1D_evaluates_witness :
  Table.IndependentVar Examples.liftTable = [IndependentVar.mk "row" "aero/alpha-rad"] /\
  exists pt v,
    ParseTable Examples.liftTable = Some pt /\
    InterpolateTable pt (tableInputs pt ∅) = Returned v.
Proof.
  split; [reflexivity|].
  destruct (ParseTable_1D_evaluates Examples.liftTable (IndependentVar.mk "row" "aero/alpha-rad")
              (TableData.mk 0 [[-1; -0.5]; [0; 0]; [1; 0.5]]) [] ∅
              eq_refl eq_refl) as (pt & v & H1 & H2 & _).
  exists pt, v. split; assumption.
Defined.

(** *** The expression evaluator *)

Lemma collectValues_unfold (op : Operation) (properties : gmap string float64) :
  collectValues op properties =
  match nestedValues (Product op) "product" properties,
        nestedValues (Sum op) "sum" properties,
        nestedValues (Difference op) "difference" properties,
        nestedValues (Quotient op) "quotient" properties,
        tableValues (Table_ op) properties with
  | Some vp, Some vs, Some vd, Some vq, Some vt =>
      Some (collectProperties (Property op) properties ++ Value op
            ++ vp ++ vs ++ vd ++ vq ++ vt)
  | _, _, _, _, _ => None
  end.
Proof. destruct op; reflexivity. Qed.

Lemma collectProperties_app (l1 l2 : list string) (props : gmap string float64) :
  collectProperties (l1 ++ l2) props =
  collectProperties l1 props ++ collectProperties l2 props.
Proof.
  induction l1 as [|a l1 IH]; simpl; [reflexivity|].
  destruct (props !! a); simpl; now rewrite IH.
Qed.

Lemma collectProperties_nil_iff (names : list string) (props : gmap string float64) :
  collectProperties names props = [] <->
  Forall (fun name => props !! name = None) names.
Proof.
  induction names as [|a names IH]; simpl.
  - split; [constructor|reflexivity].
  - destruct (props !! a) eqn:Ha.
    + split; [discriminate|]. intros H. inversion H; subst. congruence.
    + rewrite IH. split; [now constructor|]. intros H. now inversion H.
Qed.

Lemma collectProperties_omap (names : list string)
    (properties : gmap string float64) :
  collectProperties names properties
  = omap (fun name => properties !! name) names.
Proof.
  induction names as [|name names IH]; [reflexivity|].
  cbn [collectProperties omap list_omap].
  destruct (properties !! name); now rewrite IH.
Qed.

Lemma evaluateOperation_error_iff (op : Operation) (opType : string)
    (properties : gmap string float64) :
  is_error (evaluateOperation op opType properties) <->
  collectValues op properties = Some [].
Proof.
  unfold evaluateOperation, reduceValues, is_error.
  destruct (collectValues op properties) as [[|v values]|]; split;
    try (intros [m Hm]; discriminate); try discriminate; eauto.
Qed.

Lemma performOperation_product (v0 : float64) (rest : list float64) :
  Evaluator.performOperation "product" (v0 :: rest)
  = fold_left (fun result v => result * v) (v0 :: rest) 1.0.
Proof.
  unfold Evaluator.performOperation.
  destruct (decide ("product" = "product")) as [_|n];
    [reflexivity|now contradiction n].
Qed.

(** C2, as the specification states it, fails.  A product node with the
    literal values 2 and 3 and a reference to a property that the store
    does not hold collects the values 2, 3 and evaluates to 6; with 0.0
    collected for the absent property, as the claim has it, the list
    would be 0, 2, 3 and the product 0. *)
Lemma absent_property_is_skipped :
  collectValues (leaf ["aero/alpha-rad"] [2; 3]) ∅ = Some [2; 3] /\
  evaluateOperation (leaf ["aero/alpha-rad"] [2; 3]) "product" ∅ = Returned 6 /\
  spec_collectProperties ["aero/alpha-rad"] ∅ ++ [2; 3] = [0.0; 2; 3] /\
  Evaluator.performOperation "product"
    (spec_collectProperties ["aero/alpha-rad"] ∅ ++ [2; 3]) = 0.
Proof.
  assert (E : collectValues (leaf ["aero/alpha-rad"] [2; 3]) ∅ = Some [2; 3])
    by reflexivity.
  assert (E' : spec_collectProperties ["aero/alpha-rad"] ∅ ++ [2; 3]
               = [0.0; 2; 3]) by reflexivity.
  split; [exact E|]. split; [|split; [exact E'|]].
  - unfold evaluateOperation. rewrite E. unfold reduceValues.
    rewrite performOperation_product. cbn. f_equal. lra.
  - rewrite E', performOperation_product. cbn. lra.
Qed.

(** C2, amended.  When the value list of a node is collected, the
    referenced properties that the store holds contribute their values,
    in order, and those it does not hold contribute nothing; the property
    values come first, followed by the literal values and by whatever the
    nested operations and the table add.  No error is raised for an
    absent property: the evaluation of a node fails exactly when the list
    it collects is empty, and a node of property references and literal
    values evaluates its operation on the values of the properties present
    followed by the literals.  A product node with the literal values 2, 3
    and one absent property reference evaluates to 6. *)
Theorem collectValues_skips_absent_properties
    (op : Operation) (properties : gmap string float64) :
  collectProperties (Property op) properties
  = omap (fun name => properties !! name) (Property op) /\
  (forall values,
      collectValues op properties = Some values ->
      exists nested,
        values = omap (fun name => properties !! name) (Property op)
                 ++ Value op ++ nested) /\
  (forall opType,
      is_error (evaluateOperation op opType properties) <->
      collectValues op properties = Some []) /\
  (forall names literals opType,
      evaluateOperation (leaf names literals) opType properties
      = reduceValues opType
          (Some (omap (fun name => properties !! name) names ++ literals))) /\
  evaluateOperation (leaf ["aero/alpha-rad"] [2; 3]) "product" ∅ = Returned 6.
Proof.
  split; [apply collectProperties_omap|]. split; [|split; [|split]].
  - intros values. rewrite collectValues_unfold.
    destruct (nestedValues (Product op) _ _) as [vp|]; [|discriminate].
    destruct (nestedValues (Sum op) _ _) as [vs|]; [|discriminate].
    destruct (nestedValues (Difference op) _ _) as [vd|]; [|discriminate].
    destruct (nestedValues (Quotient op) _ _) as [vq|]; [|discriminate].
    destruct (tableValues _ _) as [vt|]; [|discriminate].
    intros [= <-]. rewrite collectProperties_omap. eauto.
  - intros opType. apply evaluateOperation_error_iff.
  - intros names literals opType. unfold evaluateOperation, leaf.
    rewrite collectValues_unfold.
    cbn [Property Value Product Sum Difference Quotient Table_ nestedValues
         tableValues].
    now rewrite !app_nil_r, collectProperties_omap.
  - assert (E : collectValues (leaf ["aero/alpha-rad"] [2; 3]) ∅ = Some [2; 3])
      by reflexivity.
    unfold evaluateOperation. rewrite E. unfold reduceValues.
    rewrite performOperation_product. cbn. f_equal. lra.
Qed.

(** C3, as the specification states it, fails in both directions.  A
    function whose product field is set to a node without values fails
    with "no values for operation": it does not evaluate to 1.  And a
    function that sets none of the twelve operation fields but holds a
    table does not fail: it returns the value of the table. *)
Lemma empty_product_fails :
  firstSet (operationFields (productFunction (leaf [] [])))
  = Some (leaf [] [], "product") /\
  EvaluateFunction (Some (productFunction (leaf [] []))) ∅
  = Failed "no values for operation" /\
  firstSet (operationFields Examples.tableFunction) = None /\
  exists v, EvaluateFunction (Some Examples.tableFunction) ∅ = Returned v.
Proof.
  split; [reflexivity|]. split; [reflexivity|]. split; [reflexivity|].
  destruct (interpolate1D_total
              (parse1DTableData [[-1; -0.5]; [0; 0]; [1; 0.5]])
              (default 0 ((∅ : gmap string float64) !! "aero/alpha-rad"))
              (parse1DTableData_lengths _)) as [v Hv].
  exists v. unfold EvaluateFunction, Examples.tableFunction.
  cbn [Function.Product Function.Sum Function.Difference Function.Quotient
       Function.Pow Function.Abs Function.Sin Function.Cos Function.Tan
       Function.Asin Function.Acos Function.Atan Function.Table_].
  unfold ParseTable, Examples.liftTable.
  cbn [Table.IndependentVar Table.TableData Table.Name length map
       TableData.Data IndependentVar.Value IndependentVar.Lookup].
  unfold InterpolateTable, tableInputs.
  cbn [ParsedTable.Dimension ParsedTable.IndependentVars ParsedTable.Data1D map].
  rewrite Hv. reflexivity.
Qed.

(** C3, amended.  [EvaluateFunction] fails on a nil function.  Otherwise
    it evaluates the first of the twelve operation fields that is set, and
    that evaluation fails exactly when the node collects no value at all
    ("no values for operation"): a product node that collects no value
    fails, it does not evaluate to 1.  With no operation field set, the
    function evaluates its table when it has one, and fails with "no valid
    operation in function" when it has none. *)
Theorem EvaluateFunction_error_cases
    (f : Function.t) (properties : gmap string float64) :
  EvaluateFunction None properties = Failed "function is nil" /\
  (forall op opType,
      firstSet (operationFields f) = Some (op, opType) ->
      EvaluateFunction (Some f) properties
      = evaluateOperation op opType properties /\
      (is_error (EvaluateFunction (Some f) properties) <->
       collectValues op properties = Some [])) /\
  (forall op opType,
      collectValues op properties = Some [] ->
      evaluateOperation op opType properties
      = Failed "no values for operation") /\
  (firstSet (operationFields f) = None ->
   Function.Table_ f = None ->
   EvaluateFunction (Some f) properties
   = Failed "no valid operation in function") /\
  (firstSet (operationFields f) = None ->
   forall table, Function.Table_ f = Some table ->
   EvaluateFunction (Some f) properties =
   match ParseTable table with
   | Some pt => InterpolateTable pt (tableInputs pt properties)
   | None => Panicked
   end).
Proof.
  split; [reflexivity|].
  assert (Hfirst : forall op opType,
             firstSet (operationFields f) = Some (op, opType) ->
             EvaluateFunction (Some f) properties
             = evaluateOperation op opType properties).
  { intros op opType. unfold EvaluateFunction, operationFields.
    destruct f as [name desc p d s q pw ab sn cs tn asn acs atn tb].
    cbn [Function.Product Function.Sum Function.Difference Function.Quotient
         Function.Pow Function.Abs Function.Sin Function.Cos Function.Tan
         Function.Asin Function.Acos Function.Atan Function.Table_ firstSet].
    destruct p; [intros [= <- <-]; reflexivity|].
    destruct s; [intros [= <- <-]; reflexivity|].
    destruct d; [intros [= <- <-]; reflexivity|].
    destruct q; [intros [= <- <-]; reflexivity|].
    destruct pw; [intros [= <- <-]; reflexivity|].
    destruct ab; [intros [= <- <-]; reflexivity|].
    destruct sn; [intros [= <- <-]; reflexivity|].
    destruct cs; [intros [= <- <-]; reflexivity|].
    destruct tn; [intros [= <- <-]; reflexivity|].
    destruct asn; [intros [= <- <-]; reflexivity|].
    destruct acs; [intros [= <- <-]; reflexivity|].
    destruct atn; [intros [= <- <-]; reflexivity|].
    discriminate. }
  assert (Hnone : firstSet (operationFields f) = None ->
             EvaluateFunction (Some f) properties =
             match Function.Table_ f with
             | Some table =>
               match ParseTable table with
               | None => Panicked
               | Some pt => InterpolateTable pt (tableInputs pt properties)
               end
             | None => Failed "no valid operation in function"
             end).
  { unfold EvaluateFunction, operationFields.
    destruct f as [name desc p d s q pw ab sn cs tn asn acs atn tb].
    cbn [Function.Product Function.Sum Function.Difference Function.Quotient
         Function.Pow Function.Abs Function.Sin Function.Cos Function.Tan
         Function.Asin Function.Acos Function.Atan Function.Table_ firstSet].
    destruct p; [discriminate|]. destruct s; [discriminate|].
    destruct d; [discriminate|]. destruct q; [discriminate|].
    destruct pw; [discriminate|]. destruct ab; [discriminate|].
    destruct sn; [discriminate|]. destruct cs; [discriminate|].
    destruct tn; [discriminate|]. destruct asn; [discriminate|].
    destruct acs; [discriminate|]. destruct atn; [discriminate|].
    reflexivity. }
  split; [|split; [|split]].
  - intros op opType H. split; [now apply Hfirst|].
    rewrite (Hfirst op opType H). apply evaluateOperation_error_iff.
  - intros op opType H. unfold evaluateOperation. rewrite H. reflexivity.
  - intros H Ht. rewrite (Hnone H), Ht. reflexivity.
  - intros H table Ht. rewrite (Hnone H), Ht.
    destruct (ParseTable table); reflexivity.
Qed.

(** X7.  A property reference whose name the property map does not hold
    adds nothing to an operation: the operation evaluates as if the
    reference were not written. *)
Theorem evaluateOperation_ignores_absent_property
    (before after : list string) (name : string) (value : list float64)
    (table : option Table.t)
    (product difference sum quotient pow abs sin cos tan asin acos atan
       : option Operation)
    (opType : string) (properties : gmap string float64)
    (Habsent : properties !! name = None) :
  evaluateOperation
    (mkOperation (before ++ name :: after) value table product difference sum
                 quotient pow abs sin cos tan asin acos atan)
    opType properties =
  evaluateOperation
    (mkOperation (before ++ after) value table product difference sum
                 quotient pow abs sin cos tan asin acos atan)
    opType properties.
Proof.
  unfold evaluateOperation. rewrite !collectValues_unfold. cbn [Property Value Product Sum Difference Quotient Table_].
  rewrite !collectProperties_app. cbn [collectProperties]. rewrite Habsent.
  reflexivity.
Qed.

Lemma evaluateOperation_ignores_absent_property_witness :
  (∅ : gmap string float64) !! "aero/qbar" = None /\
  evaluateOperation (leaf ["aero/qbar"] [2; 3]) "product" ∅ =
  evaluateOperation (leaf [] [2; 3]) "product" ∅.
Proof.
  split; [reflexivity|].
  exact (evaluateOperation_ignores_absent_property [] [] "aero/qbar" [2; 3]
           None None None None None None None None None None None None None
           "product" ∅ eq_refl).
Defined.

(** X8.  An operation that holds only property references and literal
    values fails with an error exactly when it has no literal value and
    none of its properties is in the map. *)
Theorem leaf_fails_iff_nothing_to_evaluate
    (names : list string) (values : list float64) (opType : string)
    (properties : gmap string float64) :
  is_error (evaluateOperation (leaf names values) opType properties) <->
  values = [] /\ Forall (fun name => properties !! name = None) names.
Proof.
  unfold evaluateOperation, leaf. rewrite collectValues_unfold.
  cbn [Property Value Product Sum Difference Quotient Table_ nestedValues tableValues].
  rewrite !app_nil_r. rewrite <- collectProperties_nil_iff.
  unfold reduceValues, is_error.
  destruct (collectProperties names properties ++ values) eqn:E.
  - apply app_eq_nil in E as [-> ->]. split; [auto|]. intros _. eauto.
  - split; [intros [m Hm]; discriminate|].
    intros [-> Hn]. rewrite Hn in E. discriminate.
Qed.

(** X9.  The error of a nested product is swallowed: the enclosing
    operation evaluates as if the nested product were not there. *)
Theorem evaluateOperation_skips_failed_nested_product
    (sub : Operation) (property : list string) (value : list float64)
    (table : option Table.t)
    (difference sum quotient pow abs sin cos tan asin acos atan
       : option Operation)
    (opType : string) (properties : gmap string float64)
    (Hfails : is_error (evaluateOperation sub "product" properties)) :
  evaluateOperation
    (mkOperation property value table (Some sub) difference sum
                 quotient pow abs sin cos tan asin acos atan)
    opType properties =
  evaluateOperation
    (mkOperation property value table None difference sum
                 quotient pow abs sin cos tan asin acos atan)
    opType properties.
Proof.
  destruct Hfails as [message Hfails].
  unfold evaluateOperation at 1 2. rewrite !collectValues_unfold.
  cbn [Property Value Product Sum Difference Quotient Table_].
  unfold nestedValues at 1 5. rewrite Hfails. reflexivity.
Qed.

Lemma evaluateOperation_skips_failed_nested_product_witness :
  is_error (evaluateOperation (leaf [] []) "product" ∅) /\
  evaluateOperation
    (mkOperation [] [2; 3] None (Some (leaf [] [])) None None None None None
                 None None None None None None) "sum" ∅ =
  evaluateOperation (leaf [] [2; 3]) "sum" ∅.
Proof.
  assert (H : is_error (evaluateOperation (leaf [] []) "product" ∅))
    by (eexists; reflexivity).
  split; [exact H|].
  exact (evaluateOperation_skips_failed_nested_product (leaf [] []) [] [2; 3]
           None None None None None None None None None None None None
           "sum" ∅ H).
Defined.

(** X10.  [evaluateOperation] descends only into the nested product, sum,
    difference and quotient and into the table: whatever an operation
    holds in its nested pow, abs, sin, cos, tan, asin, acos and atan has no
    effect on its value. *)
Theorem evaluateOperation_never_evaluates_nested_unary
    (property : list string) (value : list float64) (table : option Table.t)
    (product difference sum quotient pow abs sin cos tan asin acos atan
       : option Operation)
    (opType : string) (properties : gmap string float64) :
  evaluateOperation
    (mkOperation property value table product difference sum quotient
                 pow abs sin cos tan asin acos atan)
    opType properties =
  evaluateOperation
    (mkOperation property value table product difference sum quotient
                 None None None None None None None None)
    opType properties.
Proof.
  unfold evaluateOperation. now rewrite !collectValues_unfold.
Qed.

Lemma quotient_fold_app (l1 l2 : list float64) (v0 : float64) :
  fold_left (fun result v => if Req_dec_T v 0 then result else result / v)
            (l1 ++ 0 :: l2) v0 =
  fold_left (fun result v => if Req_dec_T v 0 then result else result / v)
            (l1 ++ l2) v0.
Proof.
  rewrite !fold_left_app. cbn [fold_left].
  destruct (Req_dec_T 0 0) as [_|H]; [reflexivity|now contradiction H].
Qed.

(** X11.  A quotient skips a divisor that is 0: it divides by the
    remaining ones. *)
Theorem quotient_skips_zero_divisors (v0 : float64) (l1 l2 : list float64) :
  Evaluator.performOperation "quotient" (v0 :: l1 ++ 0 :: l2) =
  Evaluator.performOperation "quotient" (v0 :: l1 ++ l2).
Proof.
  unfold Evaluator.performOperation.
  repeat (match goal with |- context [decide ?P] => destruct (decide P) as [?|?] end; try discriminate).
  all: try apply quotient_fold_app; try congruence.
Qed.

Lemma truncate_below_one (y : float64) : y < 1 -> (Evaluator.truncate y <= 0)%Z.
Proof.
  intros Hy. unfold Evaluator.truncate, Evaluator.MinInt64. cbv zeta.
  assert (Hz : ((if Rle_dec 0 y then Int_part y else - Int_part (- y)) <= 0)%Z).
  { destruct (Rle_dec 0 y) as [H0|H0].
    - assert (Int_part y = 0%Z) as ->; [|lia].
      symmetry. apply Int_part_spec. simpl. lra.
    - assert (0 <= Int_part (- y))%Z; [|lia].
      apply le_IZR. destruct (base_Int_part (- y)) as [H1 H2].
      assert (-1 < IZR (Int_part (- y))) by lra.
      destruct (Z_lt_le_dec (Int_part (- y)) 0) as [Hn|Hn]; [|now apply IZR_le].
      assert (Int_part (- y) <= -1)%Z by lia. apply IZR_le in H3. lra. }
  destruct (_ && _); lia.
Qed.

Lemma truncate_overflows (y : float64) :
  IZR (2 ^ 63) <= y -> Evaluator.truncate y = Evaluator.MinInt64.
Proof.
  intros Hy. unfold Evaluator.truncate. cbv zeta.
  assert (H0 : 0 <= y).
  { apply Rle_trans with (IZR (2 ^ 63)); [apply IZR_le; lia|exact Hy]. }
  destruct (Rle_dec 0 y) as [_|H]; [|contradiction].
  destruct (base_Int_part y) as [H1 H2].
  assert (Hz : (2 ^ 63 <= Int_part y)%Z).
  { assert (H3 : IZR (2 ^ 63 - 1) < IZR (Int_part y))
      by (rewrite minus_IZR; lra).
    apply lt_IZR in H3. lia. }
  destruct (Z.ltb_spec (Int_part y) (2 ^ 63)) as [Hlt|_]; [lia|].
  now rewrite andb_false_r.
Qed.

Lemma truncate_in_range (n : nat) (y : float64) :
  INR n <= y < INR n + 1 -> y < IZR (2 ^ 63) ->
  Evaluator.truncate y = Z.of_nat n.
Proof.
  intros [H1 H2] Hy. unfold Evaluator.truncate, Evaluator.MinInt64. cbv zeta.
  pose proof (pos_INR n) as Hn.
  destruct (Rle_dec 0 y) as [_|H0]; [|lra].
  assert (Int_part y = Z.of_nat n) as ->.
  { symmetry. apply Int_part_spec. rewrite <- INR_IZR_INZ. lra. }
  assert (Hlt : (Z.of_nat n < 2 ^ 63)%Z).
  { apply lt_IZR. rewrite <- INR_IZR_INZ. lra. }
  destruct (Z.leb_spec (- 2 ^ 63) (Z.of_nat n)) as [_|Hc]; [|lia].
  destruct (Z.ltb_spec (Z.of_nat n) (2 ^ 63)) as [_|Hc]; [|lia].
  reflexivity.
Qed.

Lemma iter_pow (n : nat) (x : float64) :
  Nat.iter n (fun result => result * x) 1.0 = x ^ n.
Proof. induction n as [|n IH]; simpl; [lra|]. rewrite IH. ring. Qed.

(** X12.  [pow] multiplies 1.0 by the base int(y) times.  An exponent
    below 1 (negative ones included) gives 1.  So does an exponent of 2^63
    or more, which the conversion to int takes to the smallest int64.  An
    exponent in [n, n + 1) below 2^63 multiplies n times, which is the
    n-th power in exact arithmetic. *)
Theorem pow_truncates_exponent (x y : float64) :
  (y < 1 -> Evaluator.pow x y = 1) /\
  (IZR (2 ^ 63) <= y -> Evaluator.pow x y = 1) /\
  (forall n : nat,
      INR n <= y < INR n + 1 -> y < IZR (2 ^ 63) ->
      Evaluator.pow x y = Nat.iter n (fun result => result * x) 1.0 /\
      Evaluator.pow x y = x ^ n).
Proof.
  split; [|split].
  - intros Hy. unfold Evaluator.pow.
    apply truncate_below_one in Hy.
    replace (Z.to_nat (Evaluator.truncate y)) with 0%nat by lia. simpl. lra.
  - intros Hy. unfold Evaluator.pow.
    rewrite (truncate_overflows y Hy). simpl. lra.
  - intros n Hn Hy. unfold Evaluator.pow.
    rewrite (truncate_in_range n y Hn Hy), Nat2Z.id.
    split; [reflexivity|apply iter_pow].
Qed.

(** *** The property store *)

Lemma Get_Set_resolved (pm : PropertyManager.t) (name name' : string)
    (value : float64) :
  PropertyManager.Get (PropertyManager.Set_ pm name value) name' =
  if decide (PropertyManager.resolve pm name' = PropertyManager.resolve pm name)
  then value else PropertyManager.Get pm name'.
Proof.
  unfold PropertyManager.Get, PropertyManager.Set_, PropertyManager.resolve.
  cbn [PropertyManager.aliases PropertyManager.properties].
  set (k := match PropertyManager.aliases pm !! name with
            | Some a => a | None => name end).
  set (k' := match PropertyManager.aliases pm !! name' with
             | Some a => a | None => name' end).
  clearbody k k'. unfold float64 in *.
  destruct (decide (k' = k)) as [->|Hne].
  - simpl. now rewrite lookup_insert_eq.
  - rewrite lookup_insert_ne by congruence. reflexivity.
Qed.

(** X13.  After [Set] of a name, [Get] of any name that resolves to the
    same property (through at most one alias on either side) returns the
    value set, and [Get] of a name that resolves to another property is
    unchanged. *)
Theorem Get_after_Set (pm : PropertyManager.t) (name name' : string)
    (value : float64) :
  (PropertyManager.resolve pm name' = PropertyManager.resolve pm name ->
   PropertyManager.Get (PropertyManager.Set_ pm name value) name' = value) /\
  (PropertyManager.resolve pm name' <> PropertyManager.resolve pm name ->
   PropertyManager.Get (PropertyManager.Set_ pm name value) name' =
   PropertyManager.Get pm name').
Proof.
  rewrite Get_Set_resolved. split; intros H.
  - now rewrite decide_True.
  - now rewrite decide_False.
Qed.

Lemma Set_aliases pm name value :
  PropertyManager.aliases (PropertyManager.Set_ pm name value) =
  PropertyManager.aliases pm.
Proof. reflexivity. Qed.

Lemma Get_fold_Set (assignments : list (string * float64))
    (pm : PropertyManager.t) (name : string) :
  PropertyManager.aliases pm = ∅ ->
  PropertyManager.Get
    (fold_left (fun pm '(n, v) => PropertyManager.Set_ pm n v) assignments pm)
    name =
  match PropertyManager.lastAssigned assignments name with
  | Some v => v
  | None => PropertyManager.Get pm name
  end.
Proof.
  revert pm. induction assignments as [|[n v] rest IH]; intros pm Hal;
    [reflexivity|].
  cbn [fold_left PropertyManager.lastAssigned]. rewrite IH by (rewrite Set_aliases; exact Hal).
  destruct (PropertyManager.lastAssigned rest name); [reflexivity|].
  unfold PropertyManager.Get, PropertyManager.Set_, PropertyManager.resolve.
  cbn [PropertyManager.aliases PropertyManager.properties].
  rewrite Hal, !lookup_empty. unfold float64 in *.
  destruct (decide (n = name)) as [->|Hne].
  - now rewrite lookup_insert_eq.
  - now rewrite lookup_insert_ne.
Qed.

(** X14.  With no alias defined, writing the aircraft state into the
    property store and applying the store to the same state gives the
    state back: the four control-surface positions survive the round
    trip. *)
Theorem state_round_trip (pm : PropertyManager.t) (state : AircraftState.t)
    (Haliases : PropertyManager.aliases pm = ∅) :
  PropertyManager.ApplyToAircraftState
    (PropertyManager.UpdateFromAircraftState pm state) state = state.
Proof.
  unfold PropertyManager.ApplyToAircraftState,
    PropertyManager.UpdateFromAircraftState.
  rewrite !Get_fold_Set by exact Haliases.
  destruct state as [? ? ? ? ? ? ? ? ? ? ? ? ? ? ? ? ? ? ? ? ? [al ar el ru] ?].
  reflexivity.
Qed.

Lemma state_round_trip_witness :
  PropertyManager.ApplyToAircraftState
    (PropertyManager.UpdateFromAircraftState PropertyManager.NewPropertyManager
       Examples.elevatorState) Examples.elevatorState = Examples.elevatorState.
Proof.
  exact (state_round_trip PropertyManager.NewPropertyManager
           Examples.elevatorState eq_refl).
Defined.

(** *** Components *)

(** X17.  Executing a component panics exactly when it is a lag filter
    with no input: its guard reads [Inputs[0]] in the branch taken when
    the input list is empty.  The five other kinds always return. *)
Theorem ComponentProcessor_Execute_panics_iff
    (c : ComponentProcessor.t) (properties : PropertyManager.t) (dt : float64) :
  ComponentProcessor.Execute c properties dt = None <->
  exists lf, c = ComponentProcessor.LagFilter lf /\
             BaseComponent.Inputs (LagFilterComponent.Base lf) = [].
Proof.
  destruct c as [c|c|c|c|c|c]; cbn [ComponentProcessor.Execute].
  2:{ unfold LagFilterComponent.Execute.
      destruct (BaseComponent.Inputs (LagFilterComponent.Base c)) as [|i0 rest] eqn:Hi.
      - split; [intros _; eauto|]. intros _.
        now destruct (_ || _).
      - split.
        + destruct (_ || _); discriminate.
        + intros (lf & [= <-] & Hlf). congruence. }
  all: split; [|intros (lf & Hlf & _); discriminate Hlf].
  - destruct (ActuatorComponent.Execute c properties dt) as [[? ?] ?]; discriminate.
  - destruct (GainComponent.Execute c properties dt) as [[? ?] ?]; discriminate.
  - destruct (SummerComponent.Execute c properties dt) as [[? ?] ?]; discriminate.
  - destruct (ClipperComponent.Execute c properties dt) as [[? ?] ?]; discriminate.
  - destruct (SwitchComponent.Execute c properties dt) as [[? ?] ?]; discriminate.
Qed.

(** X18.  A disabled actuator, gain, summer, clipper or switch leaves the
    component and the property store as they are.  A disabled lag filter
    does not: it copies its first input to its output property. *)
Theorem disabled_component
    (c : ComponentProcessor.t) (properties : PropertyManager.t) (dt : float64)
    (Hdisabled : BaseComponent.Enabled (ComponentProcessor.Base c) = false) :
  (ComponentProcessor.isLagFilter c = false ->
   exists out, ComponentProcessor.Execute c properties dt
               = Some (c, properties, out)) /\
  (forall input rest,
     ComponentProcessor.isLagFilter c = true ->
     ComponentProcessor.GetInputs c = input :: rest ->
     ComponentProcessor.Execute c properties dt =
     Some (c,
           PropertyManager.Set_ properties (ComponentProcessor.GetOutput c)
             (PropertyManager.Get properties input),
           PropertyManager.Get properties input)).
Proof.
  destruct c as [c|c|c|c|c|c]; cbn in Hdisabled; split;
    try (intros ? ? [=]); try (intros [=]); intros.
  - cbn. unfold ActuatorComponent.Execute. rewrite Hdisabled.
    destruct (BaseComponent.Inputs _); eauto.
  - cbn in *. unfold LagFilterComponent.Execute. rewrite Hdisabled.
    unfold ComponentProcessor.GetInputs, ComponentProcessor.GetOutput in *.
    cbn in *. rewrite H0. reflexivity.
  - cbn. unfold GainComponent.Execute. rewrite Hdisabled.
    destruct (BaseComponent.Inputs _); eauto.
  - cbn. unfold SummerComponent.Execute. rewrite Hdisabled. eauto.
  - cbn. unfold ClipperComponent.Execute. rewrite Hdisabled.
    destruct (BaseComponent.Inputs _); eauto.
  - cbn. unfold SwitchComponent.Execute. rewrite Hdisabled. eauto.
Qed.

Lemma disabled_component_witness :
  BaseComponent.Enabled (ComponentProcessor.Base Examples.disabledGain) = false /\
  exists out,
    ComponentProcessor.Execute Examples.disabledGain PropertyManager.NewPropertyManager 0.01
    = Some (Examples.disabledGain, PropertyManager.NewPropertyManager, out).
Proof.
  split; [reflexivity|].
  exact (proj1 (disabled_component Examples.disabledGain
                  PropertyManager.NewPropertyManager 0.01 eq_refl) eq_refl).
Defined.

Section Binary64Clipper.
Import PrimFloat.
#[local] Open Scope float_scope.
#[local] Set Warnings "-inexact-float".

(** [math.Max(lo, math.Min(hi, x))] on numbers with lo <= hi. *)
Lemma clip_in_range (lo hi x : float) :
  (lo <=? hi) = true -> Binary64.IsNaN x = false ->
  let out := Binary64.Max lo (Binary64.Min hi x) in
  (lo <=? out) = true /\ (out <=? hi) = true /\
  (out = lo \/ out = hi \/ out = x) /\
  ((lo <=? x) = true -> (x <=? hi) = true -> (out =? x) = true).
Proof.
  intros Hr Hx out. subst out.
  destruct (f64_leb_IsNaN _ _ Hr) as [Hlo Hhi].
  destruct (Min_cases hi x Hhi Hx) as (Hm & Hmh & Hmx).
  set (m := Binary64.Min hi x) in *. clearbody m.
  assert (Hmn : Binary64.IsNaN m = false) by (now destruct (f64_leb_IsNaN _ _ Hmh)).
  destruct (Max_cases lo m Hlo Hmn) as (Ho & Hol & Hom).
  set (out := Binary64.Max lo m) in *. clearbody out.
  split; [exact Hol|]. split; [|split].
  - destruct Ho as [->| ->]; assumption.
  - destruct Ho as [->| ->]; [now left|]. right.
    destruct Hm as [->| ->]; [now left|now right].
  - intros H1 H2.
    assert (Hmx' : (m =? x) = true).
    { apply f64_leb_antisym; [exact Hmx|].
      destruct Hm as [->| ->]; [exact H2|now apply f64_leb_refl]. }
    destruct Ho as [->| ->]; [|exact Hmx'].
    apply f64_leb_antisym; [exact H1|].
    rewrite f64_eqb_sym in Hmx'.
    apply (f64_leb_trans x m lo); [now apply f64_eqb_leb|exact Hom].
Qed.

Lemma clip_NaN (lo hi x : float) :
  Binary64.IsNaN x = true ->
  Binary64.IsInf lo 1 = false -> Binary64.IsInf hi (-1) = false ->
  Binary64.Max lo (Binary64.Min hi x) = nan.
Proof.
  intros Hx Hlo Hhi. apply IsNaN_eq in Hx. subst x.
  assert (Hm : Binary64.Min hi nan = nan).
  { unfold Binary64.Min. rewrite Hhi.
    change (Binary64.IsInf nan (-1)) with false.
    change (Binary64.IsNaN nan) with true.
    cbn [orb]. now rewrite orb_true_r. }
  rewrite Hm. unfold Binary64.Max. rewrite Hlo.
  change (Binary64.IsInf nan 1) with false.
  change (Binary64.IsNaN nan) with true.
  cbn [orb]. now rewrite orb_true_r.
Qed.

(** X19.  An enabled clipper with min <= max, reading an input that is a
    number, returns and writes a value within [min, max] that is min, max
    or the input, and an input already in that range passes through (as a
    number: a zero may change its sign).  A NaN input is returned and
    written as NaN, unless min is +Inf or max is -Inf. *)
Theorem ClipperComponent_output_in_range
    (cc : Binary64.ClipperComponent.t)
    (properties : Binary64.PropertyManager.t) (dt : Binary64.float64)
    (input : string) (rest : list string)
    (Henabled : BaseComponent.Enabled (Binary64.ClipperComponent.Base cc) = true)
    (Hinputs : BaseComponent.Inputs (Binary64.ClipperComponent.Base cc)
               = input :: rest)
    (Hrange : (Binary64.ClipperComponent.MinValue cc
               <=? Binary64.ClipperComponent.MaxValue cc) = true) :
  let x := Binary64.PropertyManager.Get properties input in
  exists out,
    Binary64.ClipperComponent.Execute cc properties dt =
    (cc, Binary64.ClipperComponent.writeOutput
           (Binary64.ClipperComponent.Base cc) properties out, out) /\
    (Binary64.IsNaN x = false ->
     (Binary64.ClipperComponent.MinValue cc <=? out) = true /\
     (out <=? Binary64.ClipperComponent.MaxValue cc) = true /\
     (out = Binary64.ClipperComponent.MinValue cc \/
      out = Binary64.ClipperComponent.MaxValue cc \/ out = x) /\
     ((Binary64.ClipperComponent.MinValue cc <=? x) = true ->
      (x <=? Binary64.ClipperComponent.MaxValue cc) = true ->
      (out =? x) = true)) /\
    (Binary64.IsNaN x = true ->
     Binary64.IsInf (Binary64.ClipperComponent.MinValue cc) 1 = false ->
     Binary64.IsInf (Binary64.ClipperComponent.MaxValue cc) (-1) = false ->
     Binary64.IsNaN out = true).
Proof.
  intros x. unfold Binary64.ClipperComponent.Execute.
  rewrite Hinputs, Henabled. cbn [negb]. cbv zeta. fold x.
  eexists. split; [reflexivity|]. split.
  - intros Hx. now apply clip_in_range.
  - intros Hx Hlo Hhi. rewrite (clip_NaN _ _ _ Hx Hlo Hhi). reflexivity.
Qed.

Lemma ClipperComponent_output_in_range_witness :
  (Binary64.ClipperComponent.MinValue Binary64.Examples.unitClipper
   <=? Binary64.ClipperComponent.MaxValue Binary64.Examples.unitClipper) = true /\
  exists out,
    (Binary64.ClipperComponent.Execute Binary64.Examples.unitClipper
       (Binary64.Examples.store 5) Binary64.Examples.step).2 = out /\
    (out <=? 1) = true.
Proof.
  split; [reflexivity|].
  destruct (ClipperComponent_output_in_range Binary64.Examples.unitClipper
              (Binary64.Examples.store 5) Binary64.Examples.step
              "input" [] eq_refl eq_refl eq_refl) as (out & -> & Hout & _).
  exists out. split; [reflexivity|].
  exact (proj1 (proj2 (Hout eq_refl))).
Defined.

End Binary64Clipper.

Lemma rate_stage_bound (r dt t0 x : R) :
  0 <= r * dt ->
  Rabs ((if Rgt_dec x (t0 + r * dt) then t0 + r * dt
         else if Rlt_dec x (t0 - r * dt) then t0 - r * dt else x) - t0)
  <= r * dt.
Proof. intros H. case_reals; apply Rabs_le; lra. Qed.

Lemma lag_stage_between (lag dt c t : R) :
  0 <= dt ->
  Rmin c t <= (if Rgt_dec lag 0.0 then c + dt / (lag + dt) * (t - c) else t)
    <= Rmax c t.
Proof.
  intros Hdt. destruct (Rgt_dec lag 0.0) as [Hl|Hl].
  - assert (Ha : 0 <= dt / (lag + dt) <= 1).
    { split.
      - apply Rmult_le_pos; [lra|]. left. apply Rinv_0_lt_compat. lra.
      - apply Rmult_le_reg_r with (lag + dt); [lra|].
        unfold Rdiv. rewrite Rmult_assoc, Rinv_l by lra. lra. }
    set (a := dt / (lag + dt)) in *. unfold Rmin, Rmax.
    destruct (Rle_dec c t); nra.
  - unfold Rmin, Rmax. destruct (Rle_dec c t); lra.
Qed.



(** *** Building and resetting the flight-control system *)

Lemma SetRateGroup_twice (c : ComponentProcessor.t) (g1 g2 : string) :
  ComponentProcessor.SetRateGroup (ComponentProcessor.SetRateGroup c g1) g2 =
  ComponentProcessor.SetRateGroup c g2.
Proof. destruct c; reflexivity. Qed.

(** X20.  When [FlightControlSystem.AddComponent] returns, the component
    is registered under its name, appended to the list of exactly one rate
    group, the one it names if the system has that group and the default
    group otherwise, and its rate-group field holds the name of that
    group; nothing else in the heap changes. *)
Theorem AddComponent_places_component
    (fcs fcs' : FlightControlSystem.t) (h h' : heap) (component : nat)
    (Hadd : FlightControlSystem.AddComponent fcs h component = Some (fcs', h')) :
  exists c rg,
    h !! component = Some c /\
    FlightControlSystem.RateGroups fcs !! FlightControlSystem.targetGroup fcs c = Some rg /\
    FlightControlSystem.RateGroups fcs' =
      <[FlightControlSystem.targetGroup fcs c :=
          RateGroupScheduler.mk (RateGroupScheduler.Name rg)
            (RateGroupScheduler.RateHz rg) (RateGroupScheduler.Period rg)
            (RateGroupScheduler.Components rg ++ [component])
            (RateGroupScheduler.Enabled rg)]>
        (FlightControlSystem.RateGroups fcs) /\
    FlightControlSystem.Components fcs' =
      <[ComponentProcessor.GetName c := component]>
        (FlightControlSystem.Components fcs) /\
    h' = <[component :=
             ComponentProcessor.SetRateGroup c (RateGroupScheduler.Name rg)]> h.
Proof.
  unfold FlightControlSystem.AddComponent in Hadd.
  destruct (h !! component) as [c|] eqn:Hc; [|discriminate].
  exists c. unfold FlightControlSystem.targetGroup.
  destruct (decide (ComponentProcessor.GetRateGroup c = "")) as [Hempty|Hset].
  - cbn [FlightControlSystem.RateGroups FlightControlSystem.with_Components] in Hadd.
    assert (Ht : match FlightControlSystem.RateGroups fcs !! "default" with
                 | Some _ => "default" | None => "default" end = "default")
      by (now destruct (_ !! "default")).
    rewrite Ht in Hadd.
    destruct (FlightControlSystem.RateGroups fcs !! "default") as [rg|] eqn:Hrg;
      [|discriminate].
    exists rg. unfold RateGroupScheduler.AddComponent in Hadd.
    rewrite lookup_insert_eq in Hadd. injection Hadd as <- <-.
    rewrite SetRateGroup_twice, insert_insert_eq.
    repeat split; try reflexivity; try assumption.
  - cbn [FlightControlSystem.RateGroups FlightControlSystem.with_Components] in Hadd.
    destruct (FlightControlSystem.RateGroups fcs !! ComponentProcessor.GetRateGroup c)
      as [rg0|] eqn:Hg.
    + rewrite Hg in Hadd. exists rg0.
      unfold RateGroupScheduler.AddComponent in Hadd. rewrite Hc in Hadd.
      injection Hadd as <- <-. repeat split; try reflexivity; try assumption.
    + destruct (FlightControlSystem.RateGroups fcs !! "default") as [rg|] eqn:Hrg;
        [|discriminate].
      exists rg. unfold RateGroupScheduler.AddComponent in Hadd.
      rewrite Hc in Hadd. injection Hadd as <- <-. repeat split; try reflexivity; try assumption.
Qed.

Lemma built_succeeded (r : option (FlightControlSystem.t * heap)) :
  Examples.succeeded r = true ->
  r = Some ((Examples.built r).1, (Examples.built r).2).
Proof. destruct r as [[? ?]|]; [reflexivity|discriminate]. Qed.

Lemma AddComponent_places_component_witness :
  Examples.succeeded
    (FlightControlSystem.AddComponent Examples.emptyFCS Examples.twoGainHeap 1) = true /\
  exists c rg,
    Examples.twoGainHeap !! 1%nat = Some c /\
    FlightControlSystem.RateGroups Examples.emptyFCS !! FlightControlSystem.targetGroup Examples.emptyFCS c = Some rg.
Proof.
  assert (Hs : Examples.succeeded
                 (FlightControlSystem.AddComponent Examples.emptyFCS Examples.twoGainHeap 1)
               = true) by (vm_compute; reflexivity).
  split; [exact Hs|].
  destruct (AddComponent_places_component _ _ _ _ _ (built_succeeded _ Hs))
    as (c & rg & Hc & Hrg & _).
  exists c, rg. split; assumption.
Defined.

Lemma Reset_idempotent (c : ComponentProcessor.t) :
  ComponentProcessor.Reset (ComponentProcessor.Reset c) = ComponentProcessor.Reset c.
Proof. destruct c; reflexivity. Qed.

Lemma lookup_resetAt (addresses : list nat) (h : heap) (a : nat) :
  FlightControlSystem.resetAt addresses h !! a =
  (fun c => if decide (a ∈ addresses) then ComponentProcessor.Reset c else c)
    <$> h !! a.
Proof.
  unfold FlightControlSystem.resetAt. rewrite map_lookup_imap.
  destruct (h !! a); reflexivity.
Qed.

Lemma resetComponents_characterised (order : list string)
    (components : gmap string nat) (h : heap) :
  FlightControlSystem.resetComponents order components h =
  if decide (Forall (fun a => is_Some (h !! a)) (omap (components !!.) order))
  then Some (FlightControlSystem.resetAt (omap (components !!.) order) h)
  else None.
Proof.
  revert h. induction order as [|name rest IH]; intros h.
  - cbn. rewrite decide_True by constructor. f_equal.
    apply map_eq. intros a. rewrite lookup_resetAt.
    destruct (h !! a); cbn; [|reflexivity].
    rewrite decide_False; [reflexivity|]. apply not_elem_of_nil.
  - cbn [FlightControlSystem.resetComponents omap list_omap].
    destruct (components !! name) as [component|] eqn:Hn; [|apply IH].
    fold (omap (components !!.) rest).
    set (l := omap (components !!.) rest) in *.
    destruct (h !! component) as [c|] eqn:Hc.
    + rewrite IH. fold l.
      assert (Hdom : forall a, is_Some (<[component := ComponentProcessor.Reset c]> h !! a)
                               <-> is_Some (h !! a)).
      { intros a. destruct (decide (a = component)) as [->|Hne].
        - rewrite lookup_insert_eq, Hc. split; eauto.
        - now rewrite lookup_insert_ne. }
      destruct (decide (Forall (fun a => is_Some (h !! a)) l)) as [Hall|Hnot].
      * rewrite decide_True by (eapply Forall_impl; [exact Hall|]; intros; now apply Hdom).
        rewrite decide_True by (constructor; [rewrite Hc; eauto|exact Hall]).
        f_equal. apply map_eq. intros a. rewrite !lookup_resetAt.
        destruct (decide (a = component)) as [->|Hne].
        -- rewrite lookup_insert_eq, Hc. cbn.
           rewrite (decide_True (P := component ∈ component :: l))
             by apply list_elem_of_here.
           destruct (decide (component ∈ l)); [now rewrite Reset_idempotent|reflexivity].
        -- rewrite lookup_insert_ne by congruence.
           destruct (h !! a); cbn; [|reflexivity].
           destruct (decide (a ∈ l)) as [Hin|Hout].
           ++ rewrite decide_True by (now apply list_elem_of_further). reflexivity.
           ++ rewrite decide_False; [reflexivity|].
              intros Hin. apply elem_of_cons in Hin as [?|?]; auto.
      * rewrite decide_False
          by (intros Hall; apply Hnot; eapply Forall_impl; [exact Hall|];
              intros; now apply Hdom).
        rewrite decide_False; [reflexivity|].
        intros Hall. apply Forall_cons in Hall as [_ Hall]. auto.
    + rewrite decide_False; [reflexivity|].
      intros Hall. apply Forall_cons in Hall as [[? Hsome] _]. congruence.
Qed.

(** X21.  Unlike a step of the system, [Reset] does not depend on the
    order in which Go visits the map of components. *)
Theorem Reset_independent_of_visiting_order
    (fcs : FlightControlSystem.t) (h : heap) (order1 order2 : list string)
    (H1 : FlightControlSystem.iteration_order (FlightControlSystem.Components fcs) order1)
    (H2 : FlightControlSystem.iteration_order (FlightControlSystem.Components fcs) order2) :
  FlightControlSystem.Reset order1 fcs h = FlightControlSystem.Reset order2 fcs h.
Proof.
  unfold FlightControlSystem.iteration_order in *.
  assert (Hp : omap (FlightControlSystem.Components fcs !!.) order1 ≡ₚ
               omap (FlightControlSystem.Components fcs !!.) order2)
    by (now rewrite H1, H2).
  unfold FlightControlSystem.Reset. rewrite !resetComponents_characterised.
  set (l1 := omap _ order1) in *. set (l2 := omap _ order2) in *.
  assert (Hall : Forall (fun a => is_Some (h !! a)) l1 <->
                 Forall (fun a => is_Some (h !! a)) l2) by (now rewrite Hp).
  assert (Hreset : FlightControlSystem.resetAt l1 h = FlightControlSystem.resetAt l2 h).
  { apply map_eq. intros a. rewrite !lookup_resetAt.
    destruct (h !! a); cbn; [|reflexivity].
    destruct (decide (a ∈ l1)) as [Hin|Hout].
    - rewrite decide_True by (now rewrite <- Hp). reflexivity.
    - rewrite decide_False by (now rewrite <- Hp). reflexivity. }
  destruct (decide (Forall _ l1)) as [Ha|Hn].
  - rewrite decide_True by tauto. now rewrite Hreset.
  - rewrite decide_False by tauto. reflexivity.
Qed.

Lemma iteration_order_elem_of {V} (m : gmap string V) order name :
  FlightControlSystem.iteration_order m order ->
  name ∈ order <-> is_Some (m !! name).
Proof.
  unfold FlightControlSystem.iteration_order. intros ->.
  rewrite list_elem_of_fmap. split.
  - intros ([n v] & -> & Hin). apply elem_of_map_to_list in Hin. eauto.
  - intros [v Hv]. exists (name, v). split; [reflexivity|].
    now apply elem_of_map_to_list.
Qed.

(** X22.  When [Reset] returns, the execution counter is 0, every
    component registered in the master index is reset, and every other
    component of the heap is unchanged. *)
Theorem Reset_resets_registered_components
    (fcs fcs' : FlightControlSystem.t) (h h' : heap) (order : list string)
    (Horder : FlightControlSystem.iteration_order
                (FlightControlSystem.Components fcs) order)
    (Hreset : FlightControlSystem.Reset order fcs h = Some (fcs', h')) :
  FlightControlSystem.TotalExecutions fcs' = 0%Z /\
  forall a c,
    h !! a = Some c ->
    (FlightControlSystem.registered fcs a -> h' !! a = Some (ComponentProcessor.Reset c)) /\
    (~ FlightControlSystem.registered fcs a -> h' !! a = Some c).
Proof.
  unfold FlightControlSystem.Reset in Hreset. rewrite resetComponents_characterised in Hreset.
  destruct (decide (Forall _ _)) as [Hall|]; [|discriminate].
  injection Hreset as <- <-. split; [reflexivity|].
  intros a c Hc. rewrite lookup_resetAt, Hc. cbn.
  assert (Hiff : a ∈ omap (FlightControlSystem.Components fcs !!.) order
                 <-> FlightControlSystem.registered fcs a).
  { rewrite list_elem_of_omap. unfold FlightControlSystem.registered. split.
    - intros (name & _ & Hn). eauto.
    - intros (name & Hn). exists name. split; [|exact Hn].
      apply (iteration_order_elem_of _ _ _ Horder). eauto. }
  split; intros Hr.
  - rewrite decide_True by (now apply Hiff). reflexivity.
  - rewrite decide_False by (now rewrite Hiff). reflexivity.
Qed.

Lemma Reset_independent_of_visiting_order_witness :
  Examples.succeeded Examples.twoGainFCS = true /\
  FlightControlSystem.Reset ["double"; "copy"]
    (Examples.built Examples.twoGainFCS).1 (Examples.built Examples.twoGainFCS).2
  = FlightControlSystem.Reset ["copy"; "double"]
      (Examples.built Examples.twoGainFCS).1
      (Examples.built Examples.twoGainFCS).2.
Proof.
  split; [vm_compute; reflexivity|].
  apply Reset_independent_of_visiting_order;
    unfold FlightControlSystem.iteration_order; vm_compute;
    first [reflexivity | apply perm_swap].
Defined.

Lemma Reset_resets_registered_components_witness :
  Examples.succeeded
    (FlightControlSystem.Reset ["double"; "copy"]
       (Examples.built Examples.twoGainFCS).1
       (Examples.built Examples.twoGainFCS).2) = true /\
  FlightControlSystem.TotalExecutions
    (Examples.built
       (FlightControlSystem.Reset ["double"; "copy"]
          (Examples.built Examples.twoGainFCS).1
          (Examples.built Examples.twoGainFCS).2)).1 = 0%Z.
Proof.
  assert (Hs : Examples.succeeded
                 (FlightControlSystem.Reset ["double"; "copy"]
                    (Examples.built Examples.twoGainFCS).1
                    (Examples.built Examples.twoGainFCS).2) = true)
    by (vm_compute; reflexivity).
  split; [exact Hs|].
  refine (proj1 (Reset_resets_registered_components
                   (Examples.built Examples.twoGainFCS).1 _
                   (Examples.built Examples.twoGainFCS).2 _
                   ["double"; "copy"] _ (built_succeeded _ Hs))).
  unfold FlightControlSystem.iteration_order; vm_compute;
    first [reflexivity | apply perm_swap].
Defined.

(** *** Rotations, atmosphere and the Runge-Kutta step *)

Lemma Quaternion_Multiply_norm (q p : Quaternion.t) :
  Quaternion.norm (Quaternion.Multiply q p) =
  Quaternion.norm q * Quaternion.norm p.
Proof.
  destruct q as [a b c d], p as [e f g h].
  unfold Quaternion.norm, Quaternion.Multiply. cbn.
  rewrite <- sqrt_mult by apply sum_sq4_nonneg.
  f_equal. ring.
Qed.

Lemma RotateVector_magnitude (q : Quaternion.t) (v : Vector3.t) :
  Vector3.Magnitude (Quaternion.RotateVector q v) =
  Quaternion.norm q * Quaternion.norm q * Vector3.Magnitude v.
Proof.
  destruct q as [a b c d], v as [x y z].
  unfold Vector3.Magnitude, Quaternion.RotateVector, Quaternion.Multiply,
    Quaternion.norm. cbn.
  set (s := a * a + b * b + c * c + d * d).
  assert (Hs : 0 <= s) by apply sum_sq4_nonneg.
  rewrite sqrt_sqrt by exact Hs.
  rewrite <- (sqrt_square s) at 1 by exact Hs.
  rewrite <- sqrt_mult; [|nra|apply sum_sq3_nonneg].
  f_equal. unfold s. ring.
Qed.

(** X23.  Over the reals, the norm of a quaternion product is the product
    of the norms, and [RotateVector] scales the magnitude of a vector by
    the square of the quaternion's norm: a unit quaternion rotates without
    stretching. *)
Theorem Quaternion_norm_multiplicative (q : Quaternion.t) :
  (forall p : Quaternion.t,
      Quaternion.norm (Quaternion.Multiply q p) =
      Quaternion.norm q * Quaternion.norm p) /\
  (forall v : Vector3.t,
      Vector3.Magnitude (Quaternion.RotateVector q v) =
      Quaternion.norm q * Quaternion.norm q * Vector3.Magnitude v) /\
  (forall v : Vector3.t,
      Quaternion.norm q = 1 ->
      Vector3.Magnitude (Quaternion.RotateVector q v) = Vector3.Magnitude v).
Proof.
  split; [|split].
  - apply Quaternion_Multiply_norm.
  - apply RotateVector_magnitude.
  - intros v Hq. rewrite RotateVector_magnitude, Hq. unfold float64. ring.
Qed.

Lemma UpdateAtmosphere_positive (state : AircraftState.t) :
  let s := AircraftState.UpdateAtmosphere state in
  0 < AircraftState.Temperature s /\
  0 < AircraftState.Pressure s /\
  0 < AircraftState.Density s /\
  0 < AircraftState.SoundSpeed s.
Proof.
  cbv zeta. unfold AircraftState.UpdateAtmosphere.
  cbn [AircraftState.Temperature AircraftState.Pressure AircraftState.Density
       AircraftState.SoundSpeed].
  set (alt := if Rlt_dec (AircraftState.Altitude state) 0 then 0
              else AircraftState.Altitude state).
  set (T := if Rle_dec alt 11000 then 288.15 - 0.0065 * alt else 216.65).
  assert (HT : 0 < T) by (unfold T; destruct (Rle_dec alt 11000); lra).
  set (P := if Rle_dec alt 11000 then _ else _).
  assert (HP : 0 < P).
  { unfold P. destruct (Rle_dec alt 11000).
    - apply Rmult_lt_0_compat; [lra|]. unfold Rpower. apply exp_pos.
    - apply Rmult_lt_0_compat; [|apply exp_pos].
      apply Rmult_lt_0_compat; [lra|]. unfold Rpower. apply exp_pos. }
  split; [exact HT|]. split; [exact HP|].
  split; [apply Rdiv_lt_0_compat; [exact HP|nra]|].
  apply sqrt_lt_R0; nra.
Qed.

(** X24.  After [UpdateAtmosphere] the temperature is positive and at
    most 288.15 K at any altitude: it is the sea-level 288.15 K at or
    below sea level, where the pressure is the sea-level 101325 Pa,
    288.15 - 0.0065 h up to 11000 m, and the constant 216.65 K above.  The
    speed of sound is the square root of 1.4 * 287.05 T and is positive,
    and the density is the pressure divided by 287.05 T, a divisor that is
    never 0. *)
Theorem UpdateAtmosphere_bounds (state : AircraftState.t) :
  let h := AircraftState.Altitude state in
  let s := AircraftState.UpdateAtmosphere state in
  0 < AircraftState.Temperature s <= 288.15 /\
  (h <= 0 ->
   AircraftState.Temperature s = 288.15 /\ AircraftState.Pressure s = 101325) /\
  (0 <= h <= 11000 -> AircraftState.Temperature s = 288.15 - 0.0065 * h) /\
  (11000 < h -> AircraftState.Temperature s = 216.65) /\
  AircraftState.SoundSpeed s
  = sqrt (1.4 * 287.05 * AircraftState.Temperature s) /\
  0 < AircraftState.SoundSpeed s /\
  287.05 * AircraftState.Temperature s <> 0 /\
  AircraftState.Density s
  = AircraftState.Pressure s / (287.05 * AircraftState.Temperature s).
Proof.
  cbv zeta.
  pose proof (UpdateAtmosphere_positive state) as Hpos. cbv zeta in Hpos.
  destruct Hpos as (HT0 & _ & _ & Hc).
  split; [split; [exact HT0|]|].
  { unfold AircraftState.UpdateAtmosphere. cbn [AircraftState.Temperature].
    destruct (Rlt_dec (AircraftState.Altitude state) 0);
      destruct (Rle_dec _ 11000); lra. }
  split.
  { intros Hlow. unfold AircraftState.UpdateAtmosphere.
    cbn [AircraftState.Temperature AircraftState.Pressure].
    assert (Ha : (if Rlt_dec (AircraftState.Altitude state) 0 then 0
                  else AircraftState.Altitude state) = 0)
      by (destruct (Rlt_dec _ 0); lra).
    rewrite Ha.
    destruct (Rle_dec 0 11000) as [_|Hn]; [|lra].
    split; [lra|].
    replace ((288.15 - 0.0065 * 0) / 288.15) with 1 by lra.
    unfold Rpower. rewrite ln_1, Rmult_0_r, exp_0. lra. }
  split.
  { intros [H0 H1]. unfold AircraftState.UpdateAtmosphere.
    cbn [AircraftState.Temperature].
    destruct (Rlt_dec (AircraftState.Altitude state) 0); [lra|].
    destruct (Rle_dec _ 11000); [reflexivity|lra]. }
  split.
  { intros H1. unfold AircraftState.UpdateAtmosphere.
    cbn [AircraftState.Temperature].
    destruct (Rlt_dec (AircraftState.Altitude state) 0); [lra|].
    destruct (Rle_dec _ 11000); [lra|reflexivity]. }
  split; [reflexivity|]. split; [exact Hc|].
  split; [lra|reflexivity].
Qed.


Lemma weighted_shrinks (a : Vector3.t) :
  RungeKutta4Integrator.weighted a (Vector3.Scale a 0.95) (Vector3.Scale a 0.98)
                                 (Vector3.Scale a 0.90)
  = Vector3.Scale a 0.96.
Proof.
  destruct a as [x y z]. unfold RungeKutta4Integrator.weighted.
  apply Vector3_eq;
    cbn [Vector3.X Vector3.Y Vector3.Z Vector3.Add Vector3.Scale]; lra.
Qed.

Lemma weighted_position (q : Quaternion.t) (v a : Vector3.t) (dt : R) :
  RungeKutta4Integrator.weighted
    (Quaternion.RotateVector q v)
    (Quaternion.RotateVector q (Vector3.Add v (Vector3.Scale a (dt * 0.5))))
    (Quaternion.RotateVector q (Vector3.Add v (Vector3.Scale a (dt * 0.5))))
    (Quaternion.RotateVector q (Vector3.Add v (Vector3.Scale a dt)))
  = Quaternion.RotateVector q (Vector3.Add v (Vector3.Scale a (dt / 2))).
Proof.
  destruct q as [qw qx qy qz], v as [vx vy vz], a as [ax ay az].
  unfold RungeKutta4Integrator.weighted, Quaternion.RotateVector.
  apply Vector3_eq;
    cbn [Vector3.X Vector3.Y Vector3.Z Vector3.Add Vector3.Scale
         Quaternion.W Quaternion.X Quaternion.Y Quaternion.Z
         Quaternion.Multiply]; unfold float64; lra.
Qed.

(** X26.  The Runge-Kutta integrator in closed form: the four slopes of
    the velocity and of the angular rate are the given derivative scaled
    by 1, 0.95, 0.98 and 0.90, so both advance by 0.96 dt times the
    derivative; the position advances by dt times the Earth-frame image of
    the mid-step velocity; the time advances by dt and the altitude is
    minus the z position. *)
Theorem RungeKutta4_closed_form
    (state : AircraftState.t) (derivatives : StateDerivatives.t) (dt : float64) :
  let s := RungeKutta4Integrator.Integrate state derivatives dt in
  AircraftState.Velocity s =
    Vector3.Add (AircraftState.Velocity state)
      (Vector3.Scale (StateDerivatives.VelocityDot derivatives) (0.96 * dt)) /\
  AircraftState.AngularRate s =
    Vector3.Add (AircraftState.AngularRate state)
      (Vector3.Scale (StateDerivatives.AngularRateDot derivatives) (0.96 * dt)) /\
  AircraftState.Position s =
    Vector3.Add (AircraftState.Position state)
      (Vector3.Scale
         (Quaternion.RotateVector (AircraftState.Orientation state)
            (Vector3.Add (AircraftState.Velocity state)
               (Vector3.Scale (StateDerivatives.VelocityDot derivatives)
                  (dt / 2)))) dt) /\
  AircraftState.Time s = AircraftState.Time state + dt /\
  AircraftState.Altitude s = - Vector3.Z (AircraftState.Position s).
Proof.
  cbv zeta. unfold RungeKutta4Integrator.Integrate. cbv zeta.
  rewrite refresh_Velocity, refresh_AngularRate, refresh_Position,
    refresh_Time, refresh_Altitude.
  cbn [AircraftState.with_kinematics AircraftState.Velocity
       AircraftState.AngularRate AircraftState.Position AircraftState.Time
       AircraftState.Altitude].
  rewrite !weighted_shrinks, weighted_position.
  split; [|split; [|split; [|split]]]; try reflexivity.
  - apply Vector3_eq;
      cbn [Vector3.X Vector3.Y Vector3.Z Vector3.Add Vector3.Scale]; lra.
  - apply Vector3_eq;
      cbn [Vector3.X Vector3.Y Vector3.Z Vector3.Add Vector3.Scale]; lra.
Qed.

(** *** Fuel, engine envelope and torque *)

Lemma sumContents_nonneg tanks :
  Forall (fun tank => 0 <= FuelTank.Contents tank) tanks ->
  0 <= FuelSystem.sumContents tanks.
Proof.
  induction 1 as [|k l Hk Hl IH]; cbn; [lra|]. fold (FuelSystem.sumContents l). lra.
Qed.

Lemma consumeFuel_loop_draws (tanks : list FuelTank.t) :
  Forall (fun tank => 0 <= FuelTank.Contents tank) tanks ->
  forall burn total,
    let r := PropulsionSystem.consumeFuel_loop tanks burn total in
    let drawn := Rmin (Rmax 0 burn) (FuelSystem.sumContents tanks) in
    FuelSystem.sumContents r.1 = FuelSystem.sumContents tanks - drawn /\
    r.2 = total - drawn /\
    Forall (fun tank => 0 <= FuelTank.Contents tank) r.1.
Proof.
  induction 1 as [|k l Hk Hl IH]; intros burn total; cbv zeta.
  - cbn. unfold Rmin, Rmax; case_reals; repeat split; try lra; constructor.
  - cbn [PropulsionSystem.consumeFuel_loop].
    pose proof (sumContents_nonneg l Hl) as Hsum.
    destruct (bool_decide (burn <= 0)) eqn:Hb; cbn [orb].
    + apply bool_decide_eq_true_1 in Hb.
      specialize (IH burn total). cbv zeta in IH.
      destruct (PropulsionSystem.consumeFuel_loop l burn total) as [l' t'].
      cbn [fst snd] in *. destruct IH as (H1 & H2 & H3).
      cbn [FuelSystem.sumContents fold_right]. fold (FuelSystem.sumContents l) (FuelSystem.sumContents l').
      rewrite H1, H2.
      assert (Hd : Rmax 0 burn = 0) by (unfold Rmax; case_reals; lra).
      rewrite Hd in *.
      rewrite !Rmin_left by lra.
      split; [lra|]. split; [lra|]. now constructor.
    + apply bool_decide_eq_false_1 in Hb.
      destruct (bool_decide (FuelTank.Contents k <= 0)) eqn:Hc.
      * apply bool_decide_eq_true_1 in Hc.
        specialize (IH burn total). cbv zeta in IH.
        destruct (PropulsionSystem.consumeFuel_loop l burn total) as [l' t'].
        cbn [fst snd] in *. destruct IH as (H1 & H2 & H3).
        cbn [FuelSystem.sumContents fold_right]. fold (FuelSystem.sumContents l) (FuelSystem.sumContents l').
        rewrite H1, H2.
        assert (Hk0 : FuelTank.Contents k = 0) by lra. rewrite Hk0, !Rplus_0_l.
        split; [lra|]. split; [reflexivity|]. now constructor.
      * apply bool_decide_eq_false_1 in Hc.
        set (b := Rmin burn (FuelTank.Contents k)).
        specialize (IH (burn - b) (total - b)). cbv zeta in IH.
        destruct (PropulsionSystem.consumeFuel_loop l (burn - b) (total - b))
          as [l' t'].
        cbn [fst snd] in *. destruct IH as (H1 & H2 & H3).
        cbn [FuelSystem.sumContents fold_right FuelTank.with_Contents FuelTank.Contents].
        fold (FuelSystem.sumContents l) (FuelSystem.sumContents l').
        rewrite H1, H2.
        assert (Hb' : 0 < burn) by lra.
        rewrite (Rmax_right 0 burn) by lra.
        assert (Hbm : b <= burn /\ b <= FuelTank.Contents k /\
                      (b = burn \/ b = FuelTank.Contents k))
          by (unfold b, Rmin; case_reals; lra).
        clearbody b. destruct Hbm as (Hb1 & Hb2 & Hb3).
        rewrite (Rmax_right 0 (burn - b)) by lra.
        split; [|split].
        -- unfold Rmin; case_reals; lra.
        -- unfold Rmin; case_reals; lra.
        -- constructor; [|exact H3]. cbn. lra.
Qed.


Lemma NewPropulsionSystem_fuel_accounted :
  FuelSystem.accounted (PropulsionSystem.FuelSystem PropulsionSystem.NewPropulsionSystem).
Proof.
  unfold FuelSystem.accounted. cbn. split; [lra|].
  repeat constructor; cbn; lra.
Qed.


Section Binary64Engine.
Import PrimFloat.
#[local] Open Scope float_scope.
#[local] Set Warnings "-inexact-float".

(** Every float is NaN, at most 0, strictly between 0 and 1, or at least 1. *)
Lemma unit_interval_cases (x : float) :
  Binary64.IsNaN x = true \/ (x <=? 0) = true \/
  ((0 <? x) = true /\ (x <? 1) = true) \/ (1 <=? x) = true.
Proof.
  destruct (float_sign_cases x) as [H|[H|[H|H]]].
  - now left.
  - right; left. now apply f64_ltb_leb.
  - right; left. now apply f64_eqb_leb.
  - right; right. destruct (x <? 1) eqn:H1; [now left|right].
    apply f64_ltb_false_leb; [reflexivity| |exact H1].
    now destruct (f64_ltb_IsNaN _ _ H).
Qed.

(** The throttle clamp [math.Max(0.0, math.Min(1.0, x))]. *)
Lemma throttle_clamp (x : float) :
  let th := Binary64.Max 0.0 (Binary64.Min 1.0 x) in
  (Binary64.IsNaN x = true -> th = nan) /\
  ((x <=? 0) = true -> th = 0) /\
  ((1 <=? x) = true -> th = 1) /\
  ((0 <? x) = true -> (x <? 1) = true -> th = x).
Proof.
  intros th. unfold th. split; [|split; [|split]].
  - intros H. apply IsNaN_eq in H. subst x. reflexivity.
  - intros H. apply f64_leb_cases in H. destruct H as [H|H].
    + rewrite Min_right by (apply (f64_ltb_trans x 0 1); [exact H|reflexivity]).
      now apply Max_left.
    + apply f64_eqb_zero in H. destruct H as [->| ->]; reflexivity.
  - intros H. apply f64_leb_cases in H. destruct H as [H|H].
    + rewrite Min_left by exact H. reflexivity.
    + apply f64_eqb_eq_or_zero in H. destruct H as [<-|[H _]];
        [reflexivity|discriminate H].
  - intros H0 H1. rewrite Min_right by exact H1. now apply Max_right.
Qed.

(** The clamp does not move the input across the starting threshold. *)
Lemma throttle_clamp_starts (x : float) :
  (0.1 <? Binary64.Max 0.0 (Binary64.Min 1.0 x)) = (0.1 <? x).
Proof.
  destruct (throttle_clamp x) as (Hnan & Hlow & Hhigh & Hmid).
  cbv zeta in *.
  destruct (unit_interval_cases x) as [H|[H|[[H0 H1]|H]]].
  - rewrite (Hnan H). apply IsNaN_eq in H. subst x. reflexivity.
  - rewrite (Hlow H). change (0.1 <? 0) with false. symmetry.
    destruct (0.1 <? x) eqn:E; [|reflexivity].
    pose proof (f64_ltb_leb_trans _ _ _ E H) as C. discriminate C.
  - now rewrite (Hmid H0 H1).
  - rewrite (Hhigh H). change (0.1 <? 1) with true. symmetry.
    apply (f64_ltb_leb_trans 0.1 1 x); [reflexivity|exact H].
Qed.

(** X28.  After [Update] the throttle position is the clamp of the
    throttle input: 0 for an input at or below 0, 1 for an input at or
    above 1, the input itself in between, and NaN for a NaN input; so it
    lies in [0, 1] whenever the input is a number.  The propeller turns
    at the engine's RPM.  The engine runs exactly when it ran before or
    the throttle input exceeds 0.1: it never stops, and a NaN input does
    not start it.  A running engine is at the linear interpolation
    between its idle and maximum RPM and manifold pressure, a stopped one
    at 0 RPM and 29.92 inHg. *)
Theorem Update_engine_envelope
    (ps : Binary64.PropulsionSystem.t) (throttleInput dt : Binary64.float64) :
  let e := Binary64.PropulsionSystem.Engine ps in
  let ps' := Binary64.PropulsionSystem.Update ps throttleInput dt in
  let e' := Binary64.PropulsionSystem.Engine ps' in
  let throttle := Binary64.PistonEngine.ThrottlePosition e' in
  (Binary64.IsNaN throttleInput = true -> Binary64.IsNaN throttle = true) /\
  ((throttleInput <=? 0) = true -> throttle = 0) /\
  ((1 <=? throttleInput) = true -> throttle = 1) /\
  ((0 <? throttleInput) = true -> (throttleInput <? 1) = true ->
   throttle = throttleInput) /\
  (Binary64.IsNaN throttleInput = false ->
   (0 <=? throttle) = true /\ (throttle <=? 1) = true) /\
  Binary64.Propeller.RPM (Binary64.PropulsionSystem.Propeller ps')
  = Binary64.PistonEngine.RPM e' /\
  Binary64.PistonEngine.IsRunning e'
  = Binary64.PistonEngine.IsRunning e || (0.1 <? throttleInput) /\
  (Binary64.PistonEngine.IsRunning e' = true ->
   Binary64.PistonEngine.RPM e'
   = Binary64.PistonEngine.IdleRPM e +
     throttle * (Binary64.PistonEngine.MaxRPM e - Binary64.PistonEngine.IdleRPM e) /\
   Binary64.PistonEngine.ManifoldPressure e'
   = Binary64.PistonEngine.IdleMAP e +
     throttle * (Binary64.PistonEngine.MaxMAP e - Binary64.PistonEngine.IdleMAP e)) /\
  (Binary64.PistonEngine.IsRunning e' = false ->
   Binary64.PistonEngine.RPM e' = 0 /\
   Binary64.PistonEngine.ManifoldPressure e' = 29.92).
Proof.
  cbv zeta.
  destruct (Binary64_Update_unfold ps throttleInput dt) as (He & Hp).
  cbv zeta in He, Hp. rewrite He, Hp. clear He Hp.
  destruct (throttle_clamp throttleInput) as (Hnan & Hlow & Hhigh & Hmid).
  pose proof (throttle_clamp_starts throttleInput) as Hstart.
  cbv zeta in *.
  set (th := Binary64.Max 0.0 (Binary64.Min 1.0 throttleInput)) in *.
  assert (Hrange : Binary64.IsNaN throttleInput = false ->
                   (0 <=? th) = true /\ (th <=? 1) = true).
  { intros Hn.
    destruct (unit_interval_cases throttleInput) as [H|[H|[[H0 H1]|H]]].
    - congruence.
    - rewrite (Hlow H). split; reflexivity.
    - rewrite (Hmid H0 H1). split; now apply f64_ltb_leb.
    - rewrite (Hhigh H). split; reflexivity. }
  assert (Hnan' : Binary64.IsNaN throttleInput = true -> Binary64.IsNaN th = true)
    by (intros H; rewrite (Hnan H); reflexivity).
  clearbody th.
  destruct ps as [[name run rpm map thr mr mm ir im] p fs mt rr rm rf pos ori].
  unfold Binary64.PropulsionSystem.updatePropeller,
         Binary64.PropulsionSystem.updateEngine.
  cbn [Binary64.PropulsionSystem.Engine Binary64.PropulsionSystem.Propeller
       Binary64.PropulsionSystem.with_Engine Binary64.PropulsionSystem.with_Propeller
       Binary64.PistonEngine.with_ThrottlePosition Binary64.PistonEngine.with_IsRunning
       Binary64.PistonEngine.with_RPM_MAP Binary64.PistonEngine.IsRunning
       Binary64.PistonEngine.ThrottlePosition Binary64.PistonEngine.RPM
       Binary64.PistonEngine.ManifoldPressure Binary64.PistonEngine.IdleRPM
       Binary64.PistonEngine.IdleMAP Binary64.PistonEngine.MaxRPM
       Binary64.PistonEngine.MaxMAP Binary64.PistonEngine.Name
       Binary64.Propeller.with_RPM Binary64.Propeller.with_Thrust
       Binary64.Propeller.with_InducedVelocity Binary64.Propeller.RPM
       negb andb].
  rewrite Hstart.
  destruct run; cbn [negb andb orb].
  - cbn. repeat split; auto; try apply Hrange; auto; discriminate.
  - destruct (0.1 <? throttleInput); cbn;
      repeat split; auto; try apply Hrange; auto; discriminate.
Qed.

End Binary64Engine.

(** X29.  After [Update], [GetTorque] stores the torque it returns; with
    the propeller turning, the torque is not negative and torque times
    angular velocity is thrust times induced velocity; with the propeller
    at rest it is 0. *)
Theorem GetTorque_after_Update
    (ps : PropulsionSystem.t) (throttleInput dt : float64) :
  let ps' := PropulsionSystem.Update ps throttleInput dt in
  let p := PropulsionSystem.Propeller ps' in
  let torque := (PropulsionSystem.GetTorque ps').2 in
  Propeller.Torque (PropulsionSystem.Propeller (PropulsionSystem.GetTorque ps').1) = torque /\
  (Propeller.RPM p > 0 ->
   0 <= torque /\
   torque * (Propeller.RPM p * 2 * PI / 60)
   = Propeller.Thrust p * Propeller.InducedVelocity p) /\
  (~ Propeller.RPM p > 0 -> torque = 0).
Proof.
  cbv zeta.
  destruct (Update_Propeller ps throttleInput dt) as [Ht Hi]. cbv zeta in Ht, Hi.
  generalize dependent (PropulsionSystem.Update ps throttleInput dt).
  intros ps' Ht Hi.
  destruct ps' as [e [pname pdiam prpm pthrust ptorque pind] fs mt rr rm rf pos ori].
  cbn [PropulsionSystem.Propeller PropulsionSystem.Engine Propeller.Thrust
       Propeller.RPM Propeller.InducedVelocity] in *.
  assert (Hthrust : 0 <= pthrust).
  { rewrite Ht. unfold Rmax. destruct (Rle_dec _ _); lra. }
  assert (Hind : 0 <= pind).
  { rewrite Hi. destruct (Rgt_dec pthrust 0); [apply sqrt_pos|lra]. }
  clear Ht Hi.
  unfold PropulsionSystem.GetTorque.
  cbn [fst snd PropulsionSystem.with_Propeller PropulsionSystem.Propeller
       Propeller.with_Torque Propeller.Torque Propeller.RPM Propeller.Thrust
       Propeller.InducedVelocity].
  split; [reflexivity|].
  pose proof PI_RGT_0 as Hpi.
  destruct (Rgt_dec prpm 0) as [Hr|Hr].
  - split; [|intros H; contradiction]. intros _.
    assert (Hw2 : prpm * 2 * PI / 60 = prpm * 2.0 * PI / 60.0)
      by lra.
    set (w := prpm * 2.0 * PI / 60.0) in *.
    assert (Hw : 0 < w).
    { unfold w. apply Rdiv_lt_0_compat; [|lra].
      apply Rmult_lt_0_compat; [apply Rmult_lt_0_compat|]; lra. }
    clearbody w.
    destruct (Rgt_dec w 0) as [_|Hn]; [|lra].
    split.
    + apply Rmult_le_pos; [now apply Rmult_le_pos|].
      left. now apply Rinv_0_lt_compat.
    + rewrite Hw2. field. lra.
  - split; [intros H; contradiction|]. intros _. lra.
Qed.

Lemma Update_thrust_when_already_running_witness :
  PistonEngine.IsRunning (PropulsionSystem.Engine Examples.runningSystem) = true /\
  Propeller.Thrust
    (PropulsionSystem.Propeller (PropulsionSystem.Update Examples.runningSystem 0 0.01))
  = PropulsionSystem.spec_thrust (PropulsionSystem.Update Examples.runningSystem 0 0.01).
Proof.
  split; [reflexivity|].
  apply (Update_thrust_when_already_running Examples.runningSystem 0 0.01 eq_refl eq_refl).
  destruct (Update_unfold Examples.runningSystem 0 0.01) as (He & Hp & Hrf & Hr & Hm & Ht).
  cbv zeta in He, Hp, Hrf, Hr, Hm, Ht.
  unfold PropulsionSystem.spec_thrust. rewrite Hr, Hm, Ht, He, Hp.
  assert (Hthrottle : Rmax 0.0 (Rmin 1.0 0) = 0).
  { rewrite Rmin_right by lra. rewrite Rmax_left by lra. lra. }
  rewrite Hthrottle.
  unfold PropulsionSystem.updatePropeller, PropulsionSystem.updateEngine.
  cbn. lra.
Defined.
